(** * soheabs-sync-tools: change detection, throttling and validation

    A shallow embedding of [autosync.py] (the [SaveConfig] state store and
    the [AutoSyncTree] sync gate) and of [debugger.py] (the
    [SoheabsTreeDebugger] validation reporter), with the properties of the
    design document proved or refuted against the embedded code.

    Conventions.
    - Python integers are [Z]; instants and durations are integral
      microseconds (what [datetime] and [timedelta] store), so that
      [now - last_sync >= interval] is exact integer arithmetic. What
      [datetime] refuses (an instant outside the years 1 to 9999) and what
      a float loses ([timestamp()]) is modelled in [Datetime].
    - Byte strings are [list byte]; text is [string], holding the UTF-8
      encoding of the Python [str]: comparing the bytes lexicographically
      then orders as Python orders [str], and [len] counts code points.
    - Methods that read or write the process state are functions in a small
      state-and-exception monad; a raised exception keeps the state reached
      so far, as in Python.
    - Coroutines are run to completion one after the other (the design
      assumes a single logical flow per tree). *)

From Stdlib Require Import ZArith Lia Bool List.
From Stdlib.Strings Require Import Ascii String Byte.
From Stdlib Require Import Permutation Sorted.
From stdpp Require Import base option gmap strings list pretty.

Import ListNotations.
Local Open Scope string_scope.
Local Open Scope list_scope.
Local Open Scope Z_scope.

(* ===================================================================== *)
(** ** xxHash64, as called through [xxhash.xxh64_hexdigest(data, seed=0)] *)
(* ===================================================================== *)

Module Xxh64.

Definition PRIME64_1 : Z := 0x9E3779B185EBCA87.
Definition PRIME64_2 : Z := 0xC2B2AE3D27D4EB4F.
Definition PRIME64_3 : Z := 0x165667B19E3779F9.
Definition PRIME64_4 : Z := 0x85EBCA77C2B2AE63.
Definition PRIME64_5 : Z := 0x27D4EB2F165667C5.

(** Unsigned 64-bit arithmetic: every operation is reduced modulo 2^64. *)
Definition wrap64 (x : Z) : Z := x mod 2 ^ 64.

Definition rotl64 (x : Z) (r : Z) : Z :=
  wrap64 (Z.lor (Z.shiftl x r) (Z.shiftr x (64 - r))).

Definition byte_val (b : byte) : Z := Z.of_N (Byte.to_N b).

(** Little-endian read of a run of bytes. *)
Fixpoint read_le (bs : list byte) : Z :=
  match bs with
  | [] => 0
  | b :: rest => byte_val b + 256 * read_le rest
  end.

Definition round (acc input : Z) : Z :=
  wrap64 (rotl64 (wrap64 (acc + input * PRIME64_2)) 31 * PRIME64_1).

Definition merge_round (acc val : Z) : Z :=
  wrap64 (Z.lxor acc (round 0 val) * PRIME64_1 + PRIME64_4).

Record lanes : Type := Lanes { v1 : Z; v2 : Z; v3 : Z; v4 : Z }.

Definition init_lanes (seed : Z) : lanes :=
  {| v1 := wrap64 (seed + PRIME64_1 + PRIME64_2);
     v2 := wrap64 (seed + PRIME64_2);
     v3 := wrap64 seed;
     v4 := wrap64 (seed - PRIME64_1) |}.

(** The 32-byte stripe loop; [fuel] bounds the number of stripes. *)
Fixpoint stripes (fuel : nat) (v : lanes) (data : list byte) : lanes * list byte :=
  match fuel with
  | O => (v, data)
  | S fuel' =>
      if (32 <=? length data)%nat then
        let w1 := read_le (firstn 8 data) in
        let w2 := read_le (firstn 8 (skipn 8 data)) in
        let w3 := read_le (firstn 8 (skipn 16 data)) in
        let w4 := read_le (firstn 8 (skipn 24 data)) in
        stripes fuel'
          {| v1 := round (v1 v) w1; v2 := round (v2 v) w2;
             v3 := round (v3 v) w3; v4 := round (v4 v) w4 |}
          (skipn 32 data)
      else (v, data)
  end.

Definition converge (v : lanes) : Z :=
  let h := wrap64 (rotl64 (v1 v) 1 + rotl64 (v2 v) 7
                   + rotl64 (v3 v) 12 + rotl64 (v4 v) 18) in
  merge_round (merge_round (merge_round (merge_round h (v1 v)) (v2 v)) (v3 v)) (v4 v).

(** The tail: 8-byte words, then one 4-byte word, then single bytes. *)
Fixpoint tail8 (fuel : nat) (h : Z) (data : list byte) : Z * list byte :=
  match fuel with
  | O => (h, data)
  | S fuel' =>
      if (8 <=? length data)%nat then
        let k1 := round 0 (read_le (firstn 8 data)) in
        let h1 := Z.lxor h k1 in
        tail8 fuel' (wrap64 (rotl64 h1 27 * PRIME64_1 + PRIME64_4)) (skipn 8 data)
      else (h, data)
  end.

Definition tail4 (h : Z) (data : list byte) : Z * list byte :=
  if (4 <=? length data)%nat then
    let h1 := Z.lxor h (wrap64 (read_le (firstn 4 data) * PRIME64_1)) in
    (wrap64 (rotl64 h1 23 * PRIME64_2 + PRIME64_3), skipn 4 data)
  else (h, data).

Fixpoint tail1 (h : Z) (data : list byte) : Z :=
  match data with
  | [] => h
  | b :: rest =>
      let h1 := Z.lxor h (wrap64 (byte_val b * PRIME64_5)) in
      tail1 (wrap64 (rotl64 h1 11 * PRIME64_1)) rest
  end.

Definition avalanche (h : Z) : Z :=
  let h1 := Z.lxor h (Z.shiftr h 33) in
  let h2 := wrap64 (h1 * PRIME64_2) in
  let h3 := Z.lxor h2 (Z.shiftr h2 29) in
  let h4 := wrap64 (h3 * PRIME64_3) in
  Z.lxor h4 (Z.shiftr h4 32).

Definition xxh64_intdigest (data : list byte) (seed : Z) : Z :=
  let n := length data in
  let '(h0, rest) :=
    if (32 <=? n)%nat then
      let '(v, rest) := stripes n (init_lanes seed) data in
      (converge v, rest)
    else (wrap64 (seed + PRIME64_5), data) in
  let h1 := wrap64 (h0 + Z.of_nat n) in
  let '(h2, rest2) := tail8 (length rest) h1 rest in
  let '(h3, rest3) := tail4 h2 rest2 in
  avalanche (tail1 h3 rest3).

(** Hexadecimal rendering: 16 digits, most significant nibble first. *)
Definition hex_digit (n : Z) : ascii :=
  match n with
  | 0 => "0" | 1 => "1" | 2 => "2" | 3 => "3" | 4 => "4" | 5 => "5"
  | 6 => "6" | 7 => "7" | 8 => "8" | 9 => "9" | 10 => "a" | 11 => "b"
  | 12 => "c" | 13 => "d" | 14 => "e" | _ => "f"
  end%char.

Fixpoint hex_nibbles (k : nat) (x : Z) (acc : string) : string :=
  match k with
  | O => acc
  | S k' => hex_nibbles k' (Z.shiftr x 4) (String (hex_digit (Z.land x 15)) acc)
  end.

Definition xxh64_hexdigest (data : list byte) (seed : Z) : string :=
  hex_nibbles 16 (xxh64_intdigest data seed) "".

End Xxh64.

Definition bytes_of_string (s : string) : list byte := list_byte_of_string s.

(** [len(s)] counts the code points of a [str]. In the UTF-8 encoding
    these are the bytes that do not continue a character, the
    continuation bytes being those of the form [10xxxxxx]. *)
Definition is_continuation (a : ascii) : bool :=
  let n := N_of_ascii a in (128 <=? n)%N && (n <? 192)%N.

Definition len (s : string) : nat :=
  length (List.filter (fun a => negb (is_continuation a)) (list_ascii_of_string s)).

(* ===================================================================== *)
(** ** Exceptions and results *)
(* ===================================================================== *)

(** The exceptions the two modules raise or let through. [TransportError]
    stands for whatever the remote sync raises; it carries an opaque
    payload so that "propagated unmodified" can be stated. The messages
    of the exceptions a library raises ([datetime], [msgspec], the file
    system) are indicative; no statement depends on them. *)
Inductive Exn : Type :=
| TypeError (msg : string)
| ValueError (msg : string)
| OverflowError (msg : string)
| OSError (what : string)
| DecodeError (what : string)
| EncodeError (what : string)
| TransportError (payload : Z).

Inductive Res (A : Type) : Type :=
| Ok (a : A)
| Raise (e : Exn).
Arguments Ok {A} a.
Arguments Raise {A} e.

(** Sequencing of computations that may raise. *)
Definition and_then {A B} (r : Res A) (k : A -> Res B) : Res B :=
  match r with
  | Ok a => k a
  | Raise e => Raise e
  end.

(* ===================================================================== *)
(** ** MessagePack, as produced by [msgspec.msgpack.encode] *)
(* ===================================================================== *)

Module Msgpack.

(** The values a command payload ([to_dict]) is built from. A float is
    carried as its IEEE-754 binary64 bit pattern; a dict keeps its
    insertion order, which is the order msgspec writes. *)
#[warnings="-register-all"]
Inductive Value : Type :=
| VNil
| VBool (b : bool)
| VInt (n : Z)
| VFloat (bits : Z)
| VStr (s : string)
| VArray (items : list Value)
| VMap (entries : list (string * Value)).

Definition byte_of_Z (x : Z) : byte :=
  match Byte.of_N (Z.to_N (x mod 256)) with
  | Some b => b
  | None => x00
  end.

(** [k] bytes of [x], most significant first. *)
Fixpoint be_bytes (k : nat) (x : Z) : list byte :=
  match k with
  | O => []
  | S k' => be_bytes k' (Z.shiftr x 8) ++ [byte_of_Z x]
  end.

(** Integers take the shortest form; outside [-2^63, 2^64) msgspec raises
    [OverflowError]. *)
Definition encode_int (n : Z) : Res (list byte) :=
  if n <? -32 then
    if n <? -32768 then
      if n <? -2147483648 then
        if n <? -9223372036854775808
        then Raise (OverflowError "can't serialize ints < -2**63 or > 2**64 - 1")
        else Ok (byte_of_Z 0xd3 :: be_bytes 8 n)
      else Ok (byte_of_Z 0xd2 :: be_bytes 4 n)
    else if n <? -128 then Ok (byte_of_Z 0xd1 :: be_bytes 2 n)
    else Ok (byte_of_Z 0xd0 :: be_bytes 1 n)
  else if n <? 128 then Ok [byte_of_Z n]
  else if n <? 65536 then
    if n <? 256 then Ok (byte_of_Z 0xcc :: be_bytes 1 n)
    else Ok (byte_of_Z 0xcd :: be_bytes 2 n)
  else if n <? 4294967296 then Ok (byte_of_Z 0xce :: be_bytes 4 n)
  else if n <? 18446744073709551616 then Ok (byte_of_Z 0xcf :: be_bytes 8 n)
  else Raise (OverflowError "can't serialize ints < -2**63 or > 2**64 - 1").

(** A length header: the short form packs the length in the tag byte; a
    length of 2^32 or more cannot be written. *)
Definition header (fix_tag fix_limit tag16 tag32 : Z) (n : nat) : Res (list byte) :=
  let z := Z.of_nat n in
  if z <? fix_limit then Ok [byte_of_Z (Z.lor fix_tag z)]
  else if z <? 65536 then Ok (byte_of_Z tag16 :: be_bytes 2 z)
  else if z <? 4294967296 then Ok (byte_of_Z tag32 :: be_bytes 4 z)
  else Raise (EncodeError "longer than 2**32 - 1").

Definition encode_str (s : string) : Res (list byte) :=
  let raw := bytes_of_string s in
  let z := Z.of_nat (length raw) in
  and_then
    (if z <? 32 then Ok [byte_of_Z (Z.lor 0xa0 z)]
     else if z <? 256 then Ok (byte_of_Z 0xd9 :: be_bytes 1 z)
     else if z <? 65536 then Ok (byte_of_Z 0xda :: be_bytes 2 z)
     else if z <? 4294967296 then Ok (byte_of_Z 0xdb :: be_bytes 4 z)
     else Raise (EncodeError "longer than 2**32 - 1"))
    (fun head => Ok (head ++ raw)).

(** The header is written first, then the items in order: the first item
    that cannot be written decides the exception. *)
Fixpoint encode (v : Value) : Res (list byte) :=
  match v with
  | VNil => Ok [byte_of_Z 0xc0]
  | VBool false => Ok [byte_of_Z 0xc2]
  | VBool true => Ok [byte_of_Z 0xc3]
  | VInt n => encode_int n
  | VFloat bits => Ok (byte_of_Z 0xcb :: be_bytes 8 bits)
  | VStr s => encode_str s
  | VArray items =>
      and_then (header 0x90 16 0xdc 0xdd (length items)) (fun head =>
      and_then
        ((fix each (l : list Value) : Res (list byte) :=
            match l with
            | [] => Ok []
            | x :: rest =>
                and_then (encode x) (fun first =>
                and_then (each rest) (fun others => Ok (first ++ others)))
            end) items)
        (fun body => Ok (head ++ body)))
  | VMap entries =>
      and_then (header 0x80 16 0xde 0xdf (length entries)) (fun head =>
      and_then
        ((fix each (l : list (string * Value)) : Res (list byte) :=
            match l with
            | [] => Ok []
            | (k, x) :: rest =>
                and_then (encode_str k) (fun key =>
                and_then (encode x) (fun first =>
                and_then (each rest) (fun others => Ok (key ++ first ++ others))))
            end) entries)
        (fun body => Ok (head ++ body)))
  end.

End Msgpack.

(* ===================================================================== *)
(** ** A state-and-exception monad for the methods *)
(* ===================================================================== *)

Definition M (S A : Type) : Type := S -> Res A * S.

Definition ret {S A} (a : A) : M S A := fun s => (Ok a, s).

Definition raise {S A} (e : Exn) : M S A := fun s => (Raise e, s).

Definition bind {S A B} (m : M S A) (k : A -> M S B) : M S B :=
  fun s =>
    match m s with
    | (Ok a, s') => k a s'
    | (Raise e, s') => (Raise e, s')
    end.

(** [try: m except Exception as e: h e] *)
Definition try_except {S A} (m : M S A) (h : Exn -> M S A) : M S A :=
  fun s =>
    match m s with
    | (Ok a, s') => (Ok a, s')
    | (Raise e, s') => h e s'
    end.

Definition get_state {S} : M S S := fun s => (Ok s, s).
Definition set_state {S} (s : S) : M S unit := fun _ => (Ok tt, s).
Definition gets {S A} (f : S -> A) : M S A := fun s => (Ok (f s), s).
Definition modify {S} (f : S -> S) : M S unit := fun s => (Ok tt, f s).

Notation "'let*' x ':=' m 'in' k" := (bind m (fun x => k))
  (at level 10, x name, m at level 100, k at level 200).
Notation "m ';;;' k" := (bind m (fun _ => k))
  (at level 100, k at level 200, right associativity).

(** Run a method of a component inside the state of its owner. *)
Definition zoom {S T A} (proj : S -> T) (inj : T -> S -> S) (m : M T A) : M S A :=
  fun s => let '(r, t') := m (proj s) in (r, inj t' s).


(* ===================================================================== *)
(** ** [datetime]: what it refuses, and what a float loses *)
(* ===================================================================== *)

Module Datetime.

(** The seconds since the epoch of 0001-01-01T00:00:00 and of
    9999-12-31T23:59:59 (UTC). *)
Definition MIN_TIMESTAMP : Z := -62135596800.
Definition MAX_TIMESTAMP : Z := 253402300799.

(** [datetime.min] and [datetime.max] taken as UTC, in microseconds since
    the epoch. *)
Definition MIN : Z := MIN_TIMESTAMP * 1000000.
Definition MAX : Z := MAX_TIMESTAMP * 1000000 + 999999.

(** [datetime.fromtimestamp(timestamp, tz=utc)] for an [int]: the instant,
    unless its year falls outside 1 to 9999, which raises [ValueError]
    (further out, where the platform's [gmtime] or [time_t] gives up
    first, the exception is an [OSError] or an [OverflowError]; nothing
    below depends on which of them it is). *)
Definition fromtimestamp (timestamp : Z) : Res Z :=
  if (MIN_TIMESTAMP <=? timestamp) && (timestamp <=? MAX_TIMESTAMP)
  then Ok (timestamp * 1000000)
  else Raise (ValueError "year is out of range").

(** [instant + delta]: a [datetime] again, or [OverflowError]. *)
Definition add (instant delta : Z) : Res Z :=
  let sum := instant + delta in
  if (MIN <=? sum) && (sum <=? MAX) then Ok sum
  else Raise (OverflowError "date value out of range").

(** [timedelta(seconds=float(n))] for an [int] [n]: a [timedelta] spans
    -999999999 days to 999999999 days 23:59:59.999999, inside which
    [float(n)] is exact; outside, either conversion raises
    [OverflowError]. *)
Definition timedelta_of_seconds (n : Z) : Res Z :=
  if (-86399999913600 <=? n) && (n <=? 86399999999999)
  then Ok (n * 1000000)
  else Raise (OverflowError "days must have magnitude <= 999999999").

(** The integer nearest to [p / q], ties going to the even one
    ([0 <= p], [0 < q]). *)
Definition round_half_even (p q : Z) : Z :=
  let quo := p / q in
  let r := p mod q in
  if 2 * r <? q then quo
  else if q <? 2 * r then quo + 1
  else if Z.even quo then quo else quo + 1.

(** [n / d] on two [int]s ([0 <= n], [0 < d]): the binary64 nearest to
    the quotient, given as [(m, e)] for [m * 2^e] with a mantissa of 53
    bits. The quotients taken here are far from the ends of the exponent
    range. *)
Definition true_divide (n d : Z) : Z * Z :=
  if n =? 0 then (0, 0)
  else
    let l := Z.log2 n - Z.log2 d in
    let below := if 0 <=? l then n <? d * 2 ^ l else n * 2 ^ (- l) <? d in
    let e := (if below then l - 1 else l) - 52 in
    let m := if 0 <=? e then round_half_even n (d * 2 ^ e)
             else round_half_even (n * 2 ^ (- e)) d in
    (m, e).

(** [int(x)] for a float [x >= 0]. *)
Definition int_of_float (x : Z * Z) : Z :=
  let '(m, e) := x in if 0 <=? e then m * 2 ^ e else m / 2 ^ (- e).

(** [int(instant.timestamp())]: [timestamp()] is the microseconds since
    the epoch divided by 10^6 as a float, and [int] drops the fraction.
    Up to the year 2514 (2^34 s) this is the whole second the instant
    falls in; beyond, an instant less than two microseconds before a
    full second may come out as that next second. *)
Definition int_timestamp (instant : Z) : Z :=
  if 0 <=? instant then int_of_float (true_divide instant 1000000)
  else - int_of_float (true_divide (- instant) 1000000).

End Datetime.

Arguments Datetime.int_timestamp : simpl never.
Arguments Datetime.fromtimestamp : simpl never.
Arguments Datetime.add : simpl never.

(* ===================================================================== *)
(** ** The environment: files, clock, log and the remote API *)
(* ===================================================================== *)

(** *** JSON documents and [msgspec.json]

    A file's text is either a JSON document or text that is not JSON. The
    model works on the parsed document: lexical matters (white space,
    escapes) are msgspec's, the schema check below is what decides whether
    [decode(content, type=SavedConfig)] succeeds. *)
#[warnings="-register-all"]
Inductive JValue : Type :=
| JNull
| JBool (b : bool)
| JInt (n : Z)
| JFloat (repr : string)
| JStr (s : string)
| JArr (items : list JValue)
| JObj (fields : list (string * JValue)).

Inductive FileText : Type :=
| Json (doc : JValue)
| Malformed (raw : string).

(** [class SavedConfig(TypedDict)]: both keys are required by the type;
    the fallback dict holds [None] under both. *)
Record SavedConfig : Type := mkSavedConfig {
  last_timestamp : option Z;
  last_hex : option string
}.

Definition absent_config : SavedConfig :=
  {| last_timestamp := None; last_hex := None |}.

(** Walk the members of the object in order: a recognised key must hold a
    value of its declared type ([int], [str]; [null], booleans and floats
    are refused), an unknown key is skipped, a repeated key overwrites. *)
Fixpoint decode_fields (fields : list (string * JValue))
    (ts : option Z) (hx : option string) : option (option Z * option string) :=
  match fields with
  | [] => Some (ts, hx)
  | (k, v) :: rest =>
      if String.eqb k "last_timestamp" then
        match v with
        | JInt n => decode_fields rest (Some n) hx
        | _ => None
        end
      else if String.eqb k "last_hex" then
        match v with
        | JStr h => decode_fields rest ts (Some h)
        | _ => None
        end
      else decode_fields rest ts hx
  end.

(** [msgspec.json.decode(content, type=SavedConfig)]; [None] stands for the
    [DecodeError] / [ValidationError] it raises. *)
Definition json_decode (content : FileText) : option SavedConfig :=
  match content with
  | Json (JObj fields) =>
      match decode_fields fields None None with
      | Some (Some ts, Some hx) =>
          Some {| last_timestamp := Some ts; last_hex := Some hx |}
      | _ => None
      end
  | _ => None
  end.

Definition json_of_option {A} (f : A -> JValue) (o : option A) : JValue :=
  match o with
  | Some a => f a
  | None => JNull
  end.

(** [msgspec.json.encode(config)]: one object with both keys (in the order
    of the dict, which is not modelled: decoding does not depend on it). *)
Definition json_encode (config : SavedConfig) : FileText :=
  Json (JObj [("last_hex", json_of_option JStr (last_hex config));
              ("last_timestamp", json_of_option JInt (last_timestamp config))]).

(** *** The file system seen through [pathlib]

    A resolved path is the pair of the directory and the file name in it
    ([directory / f"{filename}.json"]). [sealed] lists the directories in
    which nothing can be created. *)
Abbreviation Path := (string * string)%type.

Inductive Node : Type :=
| File (text : FileText) (readable writable : bool).

Record FS : Type := mkFS {
  nodes : gmap Path Node;
  dirs : gset string;
  sealed : gset string
}.

(** [path.parent.mkdir(parents=True, exist_ok=True)] *)
Definition mkdir_parents (d : string) : M FS unit :=
  fun fs =>
    if decide (d ∈ dirs fs) then (Ok tt, fs)
    else if decide (d ∈ sealed fs) then (Raise (OSError "mkdir"), fs)
    else (Ok tt, {| nodes := nodes fs; dirs := {[d]} ∪ dirs fs; sealed := sealed fs |}).

Definition exists_ (p : Path) : M FS bool :=
  fun fs => (Ok (bool_decide (is_Some (nodes fs !! p))), fs).

(** [path.read_text(encoding="utf-8")] *)
Definition read_text (p : Path) : M FS FileText :=
  fun fs =>
    match nodes fs !! p with
    | None => (Raise (OSError "FileNotFoundError"), fs)
    | Some (File text readable _) =>
        if readable then (Ok text, fs) else (Raise (OSError "PermissionError"), fs)
    end.

(** [path.write_text(text, encoding="utf-8")] *)
Definition write_text (p : Path) (text : FileText) : M FS unit :=
  fun fs =>
    match nodes fs !! p with
    | None =>
        if decide (p.1 ∈ dirs fs) then
          if decide (p.1 ∈ sealed fs) then (Raise (OSError "PermissionError"), fs)
          else (Ok tt, {| nodes := <[p := File text true true]> (nodes fs);
                          dirs := dirs fs; sealed := sealed fs |})
        else (Raise (OSError "FileNotFoundError"), fs)
    | Some (File _ readable writable) =>
        if writable then
          (Ok tt, {| nodes := <[p := File text readable writable]> (nodes fs);
                     dirs := dirs fs; sealed := sealed fs |})
        else (Raise (OSError "PermissionError"), fs)
    end.

(** *** Log records: one constructor per logging call of [autosync.py] *)
Inductive Level : Type := DEBUG | INFO | WARNING.

Inductive LogEvent : Type :=
| ChangingDirectory (old new : string)
| ChangingFilename (old new : string)
| LoadedConfig (p : Path)
| FailedToLoad (p : Path) (e : Exn)
| UpdatingConfig (new_hex : string)
| CheckingCanSync (last_sync interval : option Z)
| CanSyncUngated
| CanSyncResult (now next_sync : Z) (res : bool)
| CheckingIfNeeded
| HexLengthMismatch (last_len current_len : nat)
| HexCompared (last : string) (current : string) (res : bool)
| Synced (count : nat) (guild : option Z).

(** *** The world a call runs in *)
Record World : Type := mkWorld {
  fs : FS;
  clock : Z;                          (* [discord.utils.utcnow()], in microseconds *)
  log : list (Level * LogEvent);      (* records emitted so far, oldest first *)
  remote_calls : list (option Z)      (* scopes the transport was invoked for *)
}.

Definition with_fs (f : FS) (w : World) : World :=
  {| fs := f; clock := clock w; log := log w; remote_calls := remote_calls w |}.

Definition with_clock (t : Z) (w : World) : World :=
  {| fs := fs w; clock := t; log := log w; remote_calls := remote_calls w |}.

Definition with_log (l : list (Level * LogEvent)) (w : World) : World :=
  {| fs := fs w; clock := clock w; log := l; remote_calls := remote_calls w |}.

Definition with_remote_calls (c : list (option Z)) (w : World) : World :=
  {| fs := fs w; clock := clock w; log := log w; remote_calls := c |}.

Section WorldAccess.
Context {X : Type}.

Definition on_world {A} (m : M World A) : M (World * X) A :=
  zoom fst (fun w s => (w, s.2)) m.

Definition on_fs {A} (m : M FS A) : M (World * X) A :=
  on_world (zoom fs with_fs m).

Definition logw (lvl : Level) (ev : LogEvent) : M (World * X) unit :=
  on_world (modify (fun w => with_log (log w ++ [(lvl, ev)]) w)).

Definition utcnow : M (World * X) Z := on_world (gets clock).

Definition self : M (World * X) X := gets snd.

Definition update_self (f : X -> X) : M (World * X) unit :=
  modify (fun ws => (ws.1, f ws.2)).
End WorldAccess.

(* ===================================================================== *)
(** ** [class SaveConfig] *)
(* ===================================================================== *)

(** [str.removesuffix] *)
Definition removesuffix (s suffix : string) : string :=
  let n := String.length s in
  let k := String.length suffix in
  if (k <=? n)%nat && String.eqb (substring (n - k) k s) suffix
  then substring 0 (n - k) s
  else s.

Module SaveConfig.

Record t : Type := mk {
  __directory : string;
  __filename : string;
  __path : option Path;
  _config : option SavedConfig
}.

Definition with_directory (d : string) (s : t) : t :=
  {| __directory := d; __filename := __filename s;
     __path := __path s; _config := _config s |}.

Definition with_filename (f : string) (s : t) : t :=
  {| __directory := __directory s; __filename := f;
     __path := __path s; _config := _config s |}.

Definition with_path (p : option Path) (s : t) : t :=
  {| __directory := __directory s; __filename := __filename s;
     __path := p; _config := _config s |}.

Definition with_config (c : option SavedConfig) (s : t) : t :=
  {| __directory := __directory s; __filename := __filename s;
     __path := __path s; _config := c |}.

(** [def __ensure_path_exists(self, path)] *)
Definition __ensure_path_exists (p : Path) : M (World * t) unit :=
  on_fs (mkdir_parents p.1) ;;;
  let* present := on_fs (exists_ p) in
  if negb present then on_fs (write_text p (Json (JObj []))) else ret tt.

(** [directory] (getter) *)
Definition directory : M (World * t) string :=
  let* s := self in ret (__directory s).

(** [filename] (getter) *)
Definition filename : M (World * t) string :=
  let* s := self in ret (__filename s).

(** [directory] (setter). The [isinstance] test cannot fail on a [string]. *)
Definition set_directory (new_path : string) : M (World * t) unit :=
  let* s := self in
  logw DEBUG (ChangingDirectory (__directory s) new_path) ;;;
  update_self (with_directory new_path) ;;;
  update_self (with_path None).

(** [filename] (setter) *)
Definition set_filename (new_filename : string) : M (World * t) unit :=
  let new_filename := removesuffix new_filename ".json" in
  let* s := self in
  logw DEBUG (ChangingFilename (__filename s) new_filename) ;;;
  update_self (with_filename new_filename) ;;;
  update_self (with_path None).

(** [path] (property): the cached path if there is one, else resolve,
    cache, and only then make sure the file exists. *)
Definition path : M (World * t) Path :=
  let* s := self in
  match __path s with
  | Some p => ret p
  | None =>
      let* name := filename in
      let p := (__directory s, (name ++ ".json")%string) in
      update_self (with_path (Some p)) ;;;
      __ensure_path_exists p ;;;
      ret p
  end.

Definition decode (content : FileText) : M (World * t) SavedConfig :=
  match json_decode content with
  | Some c => ret c
  | None => raise (DecodeError "SavedConfig")
  end.

(** [def get_config(self, force_reload=False)]. Both arms of the [try]
    leave the value they return in [self._config]. *)
Definition get_config (force_reload : bool) : M (World * t) SavedConfig :=
  let* s := self in
  match _config s, force_reload with
  | Some c, false => ret c
  | _, _ =>
      try_except
        (let* p := path in
         let* content := on_fs (read_text p) in
         let* c := decode content in
         update_self (with_config (Some c)) ;;;
         let* p' := path in
         logw INFO (LoadedConfig p') ;;;
         ret c)
        (fun e =>
           let* p := path in
           logw WARNING (FailedToLoad p e) ;;;
           update_self (with_config (Some absent_config)) ;;;
           ret absent_config)
  end.

(** [def _update(self, new_hex)]. [config] is the very dict held in
    [self._config], so each item assignment is already visible there. *)
Definition _update (new_hex : string) : M (World * t) unit :=
  let* config := get_config false in
  logw INFO (UpdatingConfig new_hex) ;;;
  let config1 := {| last_timestamp := last_timestamp config;
                    last_hex := Some new_hex |} in
  update_self (with_config (Some config1)) ;;;
  let* now := utcnow in
  let config2 := {| last_timestamp := Some (Datetime.int_timestamp now);
                    last_hex := Some new_hex |} in
  update_self (with_config (Some config2)) ;;;
  let* p := path in
  on_fs (write_text p (json_encode config2)) ;;;
  update_self (with_config (Some config2)).

(** [last_synced_at] (property): the instant of the last sync, or [None]
    when the stored timestamp is falsy ([None] or [0]); a timestamp that
    is no [datetime] raises. *)
Definition last_synced_at : M (World * t) (option Z) :=
  let* config := get_config false in
  match last_timestamp config with
  | None => ret None
  | Some timestamp =>
      if timestamp =? 0 then ret None
      else
        match Datetime.fromtimestamp timestamp with
        | Ok instant => ret (Some instant)
        | Raise e => raise e
        end
  end.

(** [last_hex] (property) *)
Definition last_hex : M (World * t) (option string) :=
  let* config := get_config false in
  ret (last_hex config).

(** [def __init__(self, directory, filename)] *)
Definition __init__ (directory filename : string) : M World t :=
  fun w =>
    let s0 := {| __directory := directory; __filename := filename;
                 __path := None; _config := None |} in
    match get_config true (w, s0) with
    | (Ok _, (w', s')) => (Ok s', w')
    | (Raise e, (w', _)) => (Raise e, w')
    end.

End SaveConfig.

(* ===================================================================== *)
(** ** [class AutoSyncTree(discord.app_commands.CommandTree)] *)
(* ===================================================================== *)

(** What the fingerprint reads of a command: the sort key and the two
    payloads ([to_dict(tree)] and, under the tree's translator,
    [get_translated_payload(tree, translator)]). *)
Record Command : Type := mkCommand {
  qualified_name : string;
  to_dict : Msgpack.Value;
  get_translated_payload : Msgpack.Value
}.

(** An entry of the result set the remote API answers with. *)
Record AppCommand : Type := mkAppCommand {
  app_command_id : Z;
  app_command_name : string
}.

(** The remote sync ([CommandTree.sync]) is an external call: for a scope it
    takes some time and either answers or raises. *)
Record TransportOutcome : Type := mkOutcome {
  took : Z;
  reply : Res (list AppCommand)
}.

Definition Transport : Type := option Z -> TransportOutcome.

(** The [minimal_sync_interval] argument of the constructor. A number of
    seconds is taken as an integer here; a [timedelta] is given by its
    microseconds. *)
Inductive IntervalArg : Type :=
| MISSING
| NoInterval
| Timedelta (microseconds : Z)
| Seconds (n : Z).

(** [sorted(commands, key=lambda c: c.qualified_name)]: a stable sort, so
    commands with equal names keep their relative order. *)
Fixpoint insert_by_name (c : Command) (l : list Command) : list Command :=
  match l with
  | [] => [c]
  | d :: rest =>
      if String.leb (qualified_name c) (qualified_name d)
      then c :: d :: rest
      else d :: insert_by_name c rest
  end.

Definition sorted (l : list Command) : list Command :=
  fold_right insert_by_name [] l.

(** Python truthiness of a [str | None]. *)
Definition truthy (o : option string) : bool :=
  match o with
  | Some (String _ _) => true
  | _ => false
  end.

Module AutoSyncTree.

Definition DEFAULT_MINIMAL_SYNC_INTERVAL_SECONDS : Z := 300.
Definition DEFAULT_FILENAME : string := "discord_py_autosync_config".

Record t : Type := mk {
  _config_manager : SaveConfig.t;
  minimal_sync_interval : option Z;          (* a timedelta, in microseconds *)
  _current_hex : option string;
  _get_all_commands : option Z -> list Command;   (* inherited registry *)
  translator : bool                           (* whether a translator is set *)
}.

Definition with_config_manager (c : SaveConfig.t) (tree : t) : t :=
  {| _config_manager := c;
     minimal_sync_interval := minimal_sync_interval tree;
     _current_hex := _current_hex tree;
     _get_all_commands := _get_all_commands tree;
     translator := translator tree |}.

Definition with_current_hex (h : option string) (tree : t) : t :=
  {| _config_manager := _config_manager tree;
     minimal_sync_interval := minimal_sync_interval tree;
     _current_hex := h;
     _get_all_commands := _get_all_commands tree;
     translator := translator tree |}.

(** A method of [self.config_manager], run on the tree's state. *)
Definition config_manager {A} (m : M (World * SaveConfig.t) A) : M (World * t) A :=
  zoom (fun ws => (ws.1, _config_manager ws.2))
       (fun wc ws => (wc.1, with_config_manager wc.2 ws.2)) m.

(** [def __init__(self, *args, config=None, minimal_sync_interval=MISSING)] *)
Definition __init__ (config : option SaveConfig.t) (interval : IntervalArg)
    (cwd : string) (registry : option Z -> list Command) (has_translator : bool)
    : M World t :=
  fun w =>
    let '(made, w1) :=
      match config with
      | Some c => (Ok c, w)
      | None => SaveConfig.__init__ cwd DEFAULT_FILENAME w
      end in
    match made with
    | Raise e => (Raise e, w1)
    | Ok c =>
        let minimal :=
          match interval with
          | NoInterval => Ok None
          | MISSING =>
              and_then (Datetime.timedelta_of_seconds DEFAULT_MINIMAL_SYNC_INTERVAL_SECONDS)
                (fun us => Ok (Some us))
          | Timedelta us => Ok (Some us)
          | Seconds n =>
              and_then (Datetime.timedelta_of_seconds n) (fun us => Ok (Some us))
          end in
        match minimal with
        | Raise e => (Raise e, w1)
        | Ok minimal =>
            (Ok {| _config_manager := c; minimal_sync_interval := minimal;
                   _current_hex := None; _get_all_commands := registry;
                   translator := has_translator |}, w1)
        end
    end.

(** [last_synced_at], [last_hex], [current_hex] (properties) *)
Definition last_synced_at : M (World * t) (option Z) :=
  config_manager SaveConfig.last_synced_at.

Definition last_hex : M (World * t) (option string) :=
  config_manager SaveConfig.last_hex.

Definition current_hex : M (World * t) (option string) :=
  let* tree := self in ret (_current_hex tree).

(** [can_sync] (property). [now - last_sync] is a [timedelta] for any two
    instants; [last_sync + interval], computed for the log line, has to be
    a [datetime]. *)
Definition can_sync : M (World * t) bool :=
  let* last_sync := last_synced_at in
  let* tree := self in
  let minimal := minimal_sync_interval tree in
  logw INFO (CheckingCanSync last_sync minimal) ;;;
  match minimal, last_sync with
  | Some interval, Some last =>
      let* now := utcnow in
      let res := interval <=? now - last in
      match Datetime.add last interval with
      | Raise e => raise e
      | Ok next_sync =>
          logw INFO (CanSyncResult now next_sync res) ;;;
          ret res
      end
  | _, _ =>
      logw INFO CanSyncUngated ;;;
      ret true
  end.

(** The payloads serialised for a list of commands already in order. *)
Definition payload_of (translated : bool) (commands : list Command)
    : list Msgpack.Value :=
  if translated then map get_translated_payload commands
  else map to_dict commands.

(** [async def generate_hex(self, guild=None)]. [asyncio.gather] returns
    the payloads in the order of its arguments. *)
Definition generate_hex (guild : option Z) : M (World * t) string :=
  let* tree := self in
  let commands := sorted (_get_all_commands tree guild) in
  let payload := payload_of (translator tree) commands in
  match Msgpack.encode (Msgpack.VArray payload) with
  | Raise e => raise e
  | Ok encoded =>
      let digest := Xxh64.xxh64_hexdigest encoded 0 in
      update_self (with_current_hex (Some digest)) ;;;
      ret digest
  end.

(** [async def should_sync(self)] *)
Definition should_sync : M (World * t) bool :=
  logw INFO CheckingIfNeeded ;;;
  let* allowed := can_sync in
  if negb allowed then ret false
  else
    let* last := last_hex in
    let* current := generate_hex None in
    (match last with
     | Some h =>
         if truthy last && negb (len h =? len current)%nat
         then logw WARNING (HexLengthMismatch (len h) (len current))
         else ret tt
     | None => ret tt
     end) ;;;
    let res := negb (bool_decide (last = Some current)) in
    logw INFO (HexCompared (default "" last) current res) ;;;
    ret res.

(** [await super().sync(guild=guild)] against a given remote. *)
Definition super_sync (remote : Transport) (guild : option Z)
    : M (World * t) (list AppCommand) :=
  on_world (fun w =>
    let outcome := remote guild in
    (reply outcome,
     with_remote_calls (remote_calls w ++ [guild])
       (with_clock (clock w + took outcome) w))).

(** [async def sync(self, *, guild=None)] *)
Definition sync (remote : Transport) (guild : option Z)
    : M (World * t) (list AppCommand) :=
  let* needed := should_sync in
  if negb needed then ret []
  else
    let* synced_commands := super_sync remote guild in
    let* current := current_hex in
    let* new_hex :=
      if truthy current then ret (default "" current)
      else generate_hex guild in
    config_manager (SaveConfig._update new_hex) ;;;
    logw INFO (Synced (length synced_commands) guild) ;;;
    ret synced_commands.

End AutoSyncTree.

(* ===================================================================== *)
(** ** [debugger.py]: [class SoheabsTreeDebugger] *)
(* ===================================================================== *)

(** [def format_bool_none(value)] *)
Definition format_bool_none (value : option bool) : string :=
  match value with
  | Some true => "Yes"
  | Some false => "No"
  | None => "Unset"
  end.

Definition nl : string := String (ascii_of_nat 10) EmptyString.

Definition concat_str (l : list string) : string :=
  fold_right String.append "" l.

(** [sep.join(parts)] *)
Fixpoint join (sep : string) (parts : list string) : string :=
  match parts with
  | [] => ""
  | [x] => x
  | x :: rest => (x ++ sep ++ join sep rest)%string
  end.

(** discord.py's flag holders: each flag is stored as [bool | None] and
    read through a property that returns [bool(stored)]. *)
Module AppInstallationType.
Record t : Type := mk { _guild : option bool; _user : option bool }.
Definition guild (a : t) : bool := default false (_guild a).
Definition user (a : t) : bool := default false (_user a).
End AppInstallationType.

Module AppCommandContext.
Record t : Type := mk {
  _guild : option bool;
  _dm_channel : option bool;
  _private_channel : option bool
}.
Definition guild (a : t) : bool := default false (_guild a).
Definition dm_channel (a : t) : bool := default false (_dm_channel a).
Definition private_channel (a : t) : bool := default false (_private_channel a).
End AppCommandContext.

Module Debugger.

(** What the checks read of a command ([CommandT]). *)
Record CommandT : Type := mkCommandT {
  name : string;
  allowed_installs : option AppInstallationType.t;
  allowed_contexts : option AppCommandContext.t
}.

(** [discord.IntegrationTypeConfig]: an object, hence truthy. *)
Inductive IntegrationTypeConfig : Type := IntegrationConfig.

Record AppInfo : Type := mkAppInfo {
  app_id : Z;
  guild_integration_config : option IntegrationTypeConfig;
  user_integration_config : option IntegrationTypeConfig
}.

Inductive Integration : Type :=
| BotIntegration (application_id : Z)
| OtherIntegration.

Record Guild : Type := mkGuild {
  guild_id : Z;
  integrations : Res (list Integration)      (* [await guild.integrations()] *)
}.

(** The [guild] argument: a bare [discord.Object] or a [discord.Guild]. *)
Inductive GuildArg : Type :=
| AsObject (id : Z)
| AsGuild (g : Guild).

Definition arg_id (g : GuildArg) : Z :=
  match g with
  | AsObject id => id
  | AsGuild g => guild_id g
  end.

(** [self.tree.client] *)
Record Client : Type := mkClient {
  application : option AppInfo;
  application_info : Res AppInfo;
  get_guild : Z -> option Guild;
  intents_guilds : bool;
  fetch_guild : Z -> Res Guild
}.

(** [class _DebugableCommand] *)
Record _DebugableCommand : Type := mkDebugable {
  command : CommandT;
  is_guild_installable : bool;
  is_user_installable : bool;
  is_guild_usable : bool;
  is_dm_usable : bool;
  is_private_channel_usable : bool
}.

(** [_DebugableCommand.__str__] *)
Definition __str__ (d : _DebugableCommand) : string :=
  concat_str
    ["- Command '"; name (command d); "':"; nl;
     "  Can be added to a server: ";
       format_bool_none (Some (is_guild_installable d)); nl;
     "  Can be added to a user: ";
       format_bool_none (Some (is_user_installable d)); nl;
     "  Can be used in a server: ";
       format_bool_none (Some (is_guild_usable d)); nl;
     "  Can be used in the bot's DM: ";
       format_bool_none (Some (is_dm_usable d)); nl;
     "  Can be used in an user's or group DM: ";
       format_bool_none (Some (is_private_channel_usable d)); nl].

Record t : Type := mk {
  get_commands : option Z -> list CommandT;       (* [self.tree.get_commands] *)
  client : Client;
  _global_allowed_contexts : AppCommandContext.t;
  _global_allowed_installs : AppInstallationType.t;
  _application : option AppInfo;
  _app_user_installable : option IntegrationTypeConfig;
  _app_guild_installable : option IntegrationTypeConfig
}.

Definition with_application (a : AppInfo) (d : t) : t :=
  {| get_commands := get_commands d; client := client d;
     _global_allowed_contexts := _global_allowed_contexts d;
     _global_allowed_installs := _global_allowed_installs d;
     _application := Some a;
     _app_user_installable := user_integration_config a;
     _app_guild_installable := guild_integration_config a |}.

(** What a run leaves behind: the report file, the console, and the
    calls passed on to the wrapped [tree.sync]. *)
Record Outputs : Type := mkOutputs {
  cwd_writable : bool;
  debug_info_json : option JValue;
  stdout : list string;
  original_sync_calls : list (option GuildArg)
}.

Definition St : Type := (Outputs * t)%type.

(** [async def store_application(self)] *)
Definition store_application : M St AppInfo :=
  let* d := gets snd in
  let* app :=
    match _application d with
    | Some a => ret a
    | None =>
        match application (client d) with
        | Some a => ret a
        | None =>
            match application_info (client d) with
            | Ok a => ret a
            | Raise e => raise e
            end
        end
    end in
  modify (fun s => (s.1, with_application app s.2)) ;;;
  ret app.

Definition __is_bot_guild_installable (d : t) : bool :=
  match AppInstallationType._guild (_global_allowed_installs d) with
  | Some _ => AppInstallationType.guild (_global_allowed_installs d)
  | None =>
      match _app_guild_installable d with
      | Some _ => true
      | None => AppInstallationType.guild (_global_allowed_installs d)
      end
  end.

Definition __is_bot_user_installable (d : t) : bool :=
  match AppInstallationType._user (_global_allowed_installs d) with
  | Some _ => AppInstallationType.user (_global_allowed_installs d)
  | None =>
      match _app_user_installable d with
      | Some _ => true
      | None => AppInstallationType.user (_global_allowed_installs d)
      end
  end.

Definition __is_bot_guild_usable (d : t) : bool :=
  match AppCommandContext._guild (_global_allowed_contexts d) with
  | Some _ => AppCommandContext.guild (_global_allowed_contexts d)
  | None => true
  end.

Definition __is_bot_dm_usable (d : t) : bool :=
  match AppCommandContext._dm_channel (_global_allowed_contexts d) with
  | Some _ => AppCommandContext.dm_channel (_global_allowed_contexts d)
  | None => true
  end.

Definition __is_bot_private_channel_usable (d : t) : bool :=
  match AppCommandContext._private_channel (_global_allowed_contexts d) with
  | Some _ => AppCommandContext.private_channel (_global_allowed_contexts d)
  | None => true
  end.

Definition __is_command_guild_installable (c : CommandT) : bool :=
  match allowed_installs c with
  | Some a => AppInstallationType.guild a
  | None => true
  end.

Definition __is_command_user_installable (c : CommandT) : bool :=
  match allowed_installs c with
  | Some a => AppInstallationType.user a
  | None => false
  end.

Definition __is_command_guild_usable (c : CommandT) : bool :=
  match allowed_contexts c with
  | Some a => AppCommandContext.guild a
  | None => true
  end.

Definition __is_command_dm_usable (c : CommandT) : bool :=
  match allowed_contexts c with
  | Some a => AppCommandContext.dm_channel a
  | None => true
  end.

Definition __is_command_private_channel_usable (c : CommandT) : bool :=
  match allowed_contexts c with
  | Some a => AppCommandContext.private_channel a
  | None => false
  end.

(** [def get_bot_debug_info(self)] *)
Definition get_bot_debug_info (d : t) : string :=
  concat_str
    ["Bot installability and usability:"; nl;
     "  Commands can be added to a server: ";
       format_bool_none (Some (__is_bot_guild_installable d)); nl;
     "  Commands can be added to an user: ";
       format_bool_none (Some (__is_bot_user_installable d)); nl;
     "  Commands can be used in a server: ";
       format_bool_none (Some (__is_bot_guild_usable d)); nl;
     "  Commands can be used in the bot's DMs: ";
       format_bool_none (Some (__is_bot_dm_usable d)); nl;
     "  Commands can be used in user or group DMs: ";
       format_bool_none (Some (__is_bot_private_channel_usable d)); nl].

Definition mismatch (c : CommandT) (what bot_what : string) : Exn :=
  ValueError (concat_str ["Command '"; name c; "' is "; what;
                          ", but the bot is not "; bot_what; "."]).

(** [async def check_command(self, command)] *)
Definition check_command (c : CommandT) : M St _DebugableCommand :=
  let* d := gets snd in
  let is_guild_installable := __is_command_guild_installable c in
  let is_user_installable := __is_command_user_installable c in
  let is_guild_usable := __is_command_guild_usable c in
  let is_dm_usable := __is_command_dm_usable c in
  let is_private_channel_usable := __is_command_private_channel_usable c in
  if is_guild_installable && negb (__is_bot_guild_installable d) then
    raise (mismatch c "guild installable" "guild installable")
  else if is_user_installable && negb (__is_bot_user_installable d) then
    raise (mismatch c "user installable" "user installable")
  else if is_guild_usable && negb (__is_bot_guild_usable d) then
    raise (mismatch c "guild usable" "guild usable")
  else if is_dm_usable && negb (__is_bot_dm_usable d) then
    raise (mismatch c "DM usable" "DM usable")
  else if is_private_channel_usable && negb (__is_bot_private_channel_usable d) then
    raise (mismatch c "private channel usable" "private channel usable")
  else
    ret {| command := c;
           is_guild_installable := is_guild_installable;
           is_user_installable := is_user_installable;
           is_guild_usable := is_guild_usable;
           is_dm_usable := is_dm_usable;
           is_private_channel_usable := is_private_channel_usable |}.

(** The [for command in commands] loop of [check]. *)
Fixpoint check_each (commands : list CommandT) (done : list _DebugableCommand)
    : M St (list _DebugableCommand) :=
  match commands with
  | [] => ret done
  | c :: rest =>
      let* dcommand := check_command c in
      check_each rest (done ++ [dcommand])
  end.

(** The guild branch of [check]: resolve the guild and look for the
    bot's own integration in it. *)
Definition check_guild (app : AppInfo) (guild : GuildArg) : M St unit :=
  let* d := gets snd in
  let found :=
    match guild with
    | AsGuild g => Some g
    | AsObject id => get_guild (client d) id
    end in
  let* guild_object :=
    match found with
    | Some g => ret (Some g)
    | None =>
        if negb (intents_guilds (client d)) then
          match fetch_guild (client d) (arg_id guild) with
          | Ok g => ret (Some g)
          | Raise e => raise e
          end
        else ret None
    end in
  match guild_object with
  | None =>
      raise (ValueError (concat_str ["Tried to sync to an unknown guild with ID ";
                                     pretty (arg_id guild); "."]))
  | Some g =>
      match integrations g with
      | Raise e => raise e
      | Ok l =>
          let is_bot i :=
            match i with
            | BotIntegration a => a =? app_id app
            | OtherIntegration => false
            end in
          match find is_bot l with
          | Some _ => ret tt
          | None =>
              raise (ValueError
                       (concat_str ["The bot is not installed in the guild with ID ";
                                    pretty (arg_id guild); "."]))
          end
      end
  end.

Definition flags_json (d : _DebugableCommand) : JValue :=
  JObj [("name", JStr (name (command d)));
        ("guild_installable", JBool (is_guild_installable d));
        ("user_installable", JBool (is_user_installable d));
        ("guild_usable", JBool (is_guild_usable d));
        ("dm_usable", JBool (is_dm_usable d));
        ("private_channel_usable", JBool (is_private_channel_usable d))].

Definition debug_info (d : t) (l : list _DebugableCommand) : JValue :=
  JObj [("bot",
         JObj [("guild_installable", JBool (__is_bot_guild_installable d));
               ("user_installable", JBool (__is_bot_user_installable d));
               ("guild_usable", JBool (__is_bot_guild_usable d));
               ("dm_usable", JBool (__is_bot_dm_usable d));
               ("private_channel_usable", JBool (__is_bot_private_channel_usable d))]);
        ("commands", JArr (map flags_json l))].

(** [with open("debug_info.json", "w") as f: json.dump(debug_info, f)] *)
Definition dump (doc : JValue) : M St unit :=
  fun s =>
    if cwd_writable s.1 then
      (Ok tt, ({| cwd_writable := true; debug_info_json := Some doc;
                  stdout := stdout s.1;
                  original_sync_calls := original_sync_calls s.1 |}, s.2))
    else (Raise (OSError "PermissionError"), s).

(** [print(a, b, c)]: the arguments separated by a space, then a newline. *)
Definition print (args : list string) : M St unit :=
  modify (fun s =>
    ({| cwd_writable := cwd_writable s.1; debug_info_json := debug_info_json s.1;
        stdout := stdout s.1 ++ [(join " " args ++ nl)%string];
        original_sync_calls := original_sync_calls s.1 |}, s.2)).

(** [async def check(self, *, guild=None)] *)
Definition check (guild : option GuildArg) : M St unit :=
  let* app := store_application in
  (match guild with
   | Some g => check_guild app g
   | None => ret tt
   end) ;;;
  let* d := gets snd in
  let commands := get_commands d (option_map arg_id guild) in
  match commands with
  | [] =>
      raise (ValueError
               (concat_str
                  ["No ";
                   match guild with
                   | None => "global commands"
                   | Some g => ("commands for guild " ++ pretty (arg_id g))%string
                   end;
                   " found to sync."]))
  | _ =>
      let* debugable_commands := check_each commands [] in
      let* d := gets snd in
      dump (debug_info d debugable_commands) ;;;
      print [get_bot_debug_info d;
             ("Commands debug info:" ++ nl)%string;
             join nl (map __str__ debugable_commands)]
  end.

(** [async def new_sync(self, *, guild=None)], which replaces [tree.sync];
    [original] is what the wrapped method does when called. *)
Definition new_sync (original : option GuildArg -> Res unit)
    (guild : option GuildArg) : M St unit :=
  check guild ;;;
  fun s =>
    (original guild,
     ({| cwd_writable := cwd_writable s.1; debug_info_json := debug_info_json s.1;
         stdout := stdout s.1;
         original_sync_calls := original_sync_calls s.1 ++ [guild] |}, s.2)).

End Debugger.

(* ===================================================================== *)
(** ** Specification-level functions *)
(* ===================================================================== *)

(** The second a stored state records, a falsy one ([None], [0])
    counting as none. *)
Definition recorded (c : SavedConfig) : option Z :=
  match last_timestamp c with
  | None => None
  | Some timestamp => if timestamp =? 0 then None else Some timestamp
  end.

(** What [last_synced_at] answers for a stored state. *)
Definition instant_of (c : SavedConfig) : Res (option Z) :=
  match recorded c with
  | None => Ok None
  | Some timestamp =>
      and_then (Datetime.fromtimestamp timestamp) (fun instant => Ok (Some instant))
  end.

(** The decision [can_sync] takes, as a function of what it reads. *)
Definition gate (interval last_sync : option Z) (now : Z) : Res bool :=
  match interval, last_sync with
  | Some i, Some last =>
      and_then (Datetime.add last i) (fun _ => Ok (i <=? now - last))
  | _, _ => Ok true
  end.

(** The log lines [can_sync] writes for a given reading. *)
Definition can_sync_log (interval last_sync : option Z) (now : Z)
    : list (Level * LogEvent) :=
  (INFO, CheckingCanSync last_sync interval)
  :: match interval, last_sync with
     | Some i, Some last =>
         match Datetime.add last i with
         | Ok next_sync => [(INFO, CanSyncResult now next_sync (i <=? now - last))]
         | Raise _ => []
         end
     | _, _ => [(INFO, CanSyncUngated)]
     end.

(** What [generate_hex] answers for the commands a tree holds for a
    scope. *)
Definition digest (tree : AutoSyncTree.t) (guild : option Z) : Res string :=
  and_then
    (Msgpack.encode
       (Msgpack.VArray
          (AutoSyncTree.payload_of (AutoSyncTree.translator tree)
             (sorted (AutoSyncTree._get_all_commands tree guild)))))
    (fun encoded => Ok (Xxh64.xxh64_hexdigest encoded 0)).

(** The fingerprint of the commands a tree holds for a scope (the empty
    string where they do not serialise and there is none). *)
Definition fingerprint (tree : AutoSyncTree.t) (guild : option Z) : string :=
  match digest tree guild with
  | Ok h => h
  | Raise _ => ""
  end.

(** The comparison [should_sync] makes once the gate is open. *)
Definition differs (last : option string) (current : string) : bool :=
  negb (bool_decide (last = Some current)).

(** The log lines [should_sync] writes after the gate has opened. *)
Definition compare_log (last : option string) (current : string)
    : list (Level * LogEvent) :=
  match last with
  | Some h =>
      if truthy last && negb (len h =? len current)%nat
      then [(WARNING, HexLengthMismatch (len h) (len current))]
      else []
  | None => []
  end
  ++ [(INFO, HexCompared (default "" last) current (differs last current))].

(** What [can_sync] answers on a store whose cached state is [c]. *)
Definition allowed (tree : AutoSyncTree.t) (c : SavedConfig) (now : Z) : Res bool :=
  and_then (instant_of c)
    (fun last => gate (AutoSyncTree.minimal_sync_interval tree) last now).

(** What [should_sync] answers on a store whose cached state is [c]. *)
Definition needs_sync (tree : AutoSyncTree.t) (c : SavedConfig) (now : Z) : Res bool :=
  and_then (allowed tree c now) (fun open =>
    if open
    then and_then (digest tree None) (fun current => Ok (differs (last_hex c) current))
    else Ok false).

(** An instant [datetime] can hold, and a timestamp it can be built from. *)
Definition representable (instant : Z) : Prop :=
  Datetime.MIN <= instant <= Datetime.MAX.

Definition convertible (timestamp : Z) : Prop :=
  Datetime.MIN_TIMESTAMP <= timestamp <= Datetime.MAX_TIMESTAMP.

(** The number of seconds given for the interval is one a [timedelta]
    holds. *)
Definition valid_interval (interval : IntervalArg) : Prop :=
  match interval with
  | Seconds n => -86399999913600 <= n <= 86399999999999
  | _ => True
  end.

(** What a tree never changes about itself while syncing. *)
Definition same_setup (t1 t2 : AutoSyncTree.t) : Prop :=
  AutoSyncTree._get_all_commands t2 = AutoSyncTree._get_all_commands t1 /\
  AutoSyncTree.minimal_sync_interval t2 = AutoSyncTree.minimal_sync_interval t1 /\
  AutoSyncTree.translator t2 = AutoSyncTree.translator t1.

(** The order [sorted] puts commands in. *)
Definition name_le (c d : Command) : Prop :=
  String.leb (qualified_name c) (qualified_name d) = true.

(** A digit of a lowercase hexadecimal numeral. *)
Definition is_lower_hex (a : ascii) : bool :=
  existsb (Ascii.eqb a) (list_ascii_of_string "0123456789abcdef").

(** A command declares a capability that the bot-level policy denies. *)
Definition incompatible (d : Debugger.t) (c : Debugger.CommandT) : bool :=
  (Debugger.__is_command_guild_installable c && negb (Debugger.__is_bot_guild_installable d))
  || (Debugger.__is_command_user_installable c && negb (Debugger.__is_bot_user_installable d))
  || (Debugger.__is_command_guild_usable c && negb (Debugger.__is_bot_guild_usable d))
  || (Debugger.__is_command_dm_usable c && negb (Debugger.__is_bot_dm_usable d))
  || (Debugger.__is_command_private_channel_usable c
      && negb (Debugger.__is_bot_private_channel_usable d)).

(** The report a run has emitted: the JSON file and the console. *)
Definition report (o : Debugger.Outputs) : option JValue * list string :=
  (Debugger.debug_info_json o, Debugger.stdout o).

(** Whether a log holds the length-mismatch diagnostic. *)
Definition is_mismatch_warning (r : Level * LogEvent) : bool :=
  match r with
  | (WARNING, HexLengthMismatch _ _) => true
  | _ => false
  end.

Definition is_load_warning (r : Level * LogEvent) : bool :=
  match r with
  | (WARNING, FailedToLoad _ _) => true
  | _ => false
  end.

(** The file a store reads: the cached path, else the one its directory
    and file name resolve to. *)
Definition target (s : SaveConfig.t) : Path :=
  match SaveConfig.__path s with
  | Some p => p
  | None => (SaveConfig.__directory s, (SaveConfig.__filename s ++ ".json")%string)
  end.

(** The backing file cannot be loaded: it is missing (the store then
    writes [{}], which lacks both fields), unreadable, or does not decode
    to a [SavedConfig]. *)
Definition unloadable (w : World) (s : SaveConfig.t) : bool :=
  match nodes (fs w) !! target s with
  | None => true
  | Some (File text readable _) =>
      negb readable || negb (bool_decide (is_Some (json_decode text)))
  end.

(* ===================================================================== *)
(** ** Sample data *)
(* ===================================================================== *)

Module Sample.
Import Msgpack.

(** 2023-11-14 22:13:20 UTC, in microseconds. *)
Definition t0 : Z := 1700000000 * 1000000.

Definition slash (name description : string) : Command :=
  let payload := VMap [("name", VStr name); ("type", VInt 1);
                       ("description", VStr description);
                       ("options", VArray [])] in
  {| qualified_name := name; to_dict := payload;
     get_translated_payload := payload |}.

(** A context menu: type 2 (user) or 3 (message), no description. *)
Definition context_menu (name : string) (type : Z) : Command :=
  let payload := VMap [("name", VStr name); ("type", VInt type)] in
  {| qualified_name := name; to_dict := payload;
     get_translated_payload := payload |}.

Definition ban : Command := slash "ban" "Ban a member".
Definition kick : Command := slash "kick" "Kick a member".

(** A slash command with an integer option (type 4) whose upper bound
    is 2^64. *)
Definition lottery : Command :=
  let payload :=
    VMap [("name", VStr "lottery"); ("type", VInt 1);
          ("description", VStr "Draw a ticket");
          ("options",
           VArray [VMap [("type", VInt 4); ("name", VStr "ticket");
                         ("description", VStr "The ticket to draw");
                         ("max_value", VInt 18446744073709551616)]])] in
  {| qualified_name := "lottery"; to_dict := payload;
     get_translated_payload := payload |}.

Definition registry (glob : list Command) (per_guild : list (Z * list Command))
    : option Z -> list Command :=
  fun guild =>
    match guild with
    | None => glob
    | Some id =>
        match find (fun e => fst e =? id) per_guild with
        | Some e => snd e
        | None => []
        end
    end.

Definition config_path : Path := ("/srv/bot", "discord_py_autosync_config.json").

Definition disk (files : list (Path * Node)) : FS :=
  {| nodes := list_to_map files; dirs := {["/srv/bot"]}; sealed := ∅ |}.

Definition world (files : list (Path * Node)) (now : Z) : World :=
  {| fs := disk files; clock := now; log := []; remote_calls := [] |}.

Definition state_file (timestamp : Z) (hex : string) : Node :=
  File (Json (JObj [("last_timestamp", JInt timestamp); ("last_hex", JStr hex)]))
       true true.

(** A tree as its constructor leaves it, over a given disk. *)
Definition boot (files : list (Path * Node)) (now : Z) (interval : IntervalArg)
    (commands : option Z -> list Command) : World * AutoSyncTree.t :=
  match AutoSyncTree.__init__ None interval "/srv/bot" commands false
          (world files now) with
  | (Ok tree, w) => (w, tree)
  | (Raise _, w) =>
      (w, {| AutoSyncTree._config_manager :=
               {| SaveConfig.__directory := "/srv/bot";
                  SaveConfig.__filename := AutoSyncTree.DEFAULT_FILENAME;
                  SaveConfig.__path := None; SaveConfig._config := None |};
             AutoSyncTree.minimal_sync_interval := None;
             AutoSyncTree._current_hex := None;
             AutoSyncTree._get_all_commands := commands;
             AutoSyncTree.translator := false |})
  end.

(** A store and a tree written out field by field. *)
Definition store (cached : option SavedConfig) : SaveConfig.t :=
  {| SaveConfig.__directory := "/srv/bot";
     SaveConfig.__filename := AutoSyncTree.DEFAULT_FILENAME;
     SaveConfig.__path := Some config_path;
     SaveConfig._config := cached |}.

Definition tree (cached : option SavedConfig) (interval : option Z)
    (commands : option Z -> list Command) : AutoSyncTree.t :=
  {| AutoSyncTree._config_manager := store cached;
     AutoSyncTree.minimal_sync_interval := interval;
     AutoSyncTree._current_hex := None;
     AutoSyncTree._get_all_commands := commands;
     AutoSyncTree.translator := false |}.

Definition saved (timestamp : Z) (hex : string) : SavedConfig :=
  {| last_timestamp := Some timestamp; last_hex := Some hex |}.

Definition five_minutes : option Z := Some (300 * 1000000).

Definition succeed (answer : list AppCommand) : Transport :=
  fun _ => {| took := 250000; reply := Ok answer |}.

Definition fail (code : Z) : Transport :=
  fun _ => {| took := 250000; reply := Raise (TransportError code) |}.

Definition registered : list AppCommand :=
  [ {| app_command_id := 1001; app_command_name := "ban" |};
    {| app_command_id := 1002; app_command_name := "kick" |} ].

(** A bot that may be installed to servers only, with three commands
    of which the second asks for user installs. *)
Definition guild_only : AppInstallationType.t :=
  {| AppInstallationType._guild := Some true; AppInstallationType._user := Some false |}.

Definition everywhere : AppInstallationType.t :=
  {| AppInstallationType._guild := Some true; AppInstallationType._user := Some true |}.

Definition unset_contexts : AppCommandContext.t :=
  {| AppCommandContext._guild := None; AppCommandContext._dm_channel := None;
     AppCommandContext._private_channel := None |}.

Definition ping : Debugger.CommandT :=
  {| Debugger.name := "ping"; Debugger.allowed_installs := None;
     Debugger.allowed_contexts := None |}.

Definition profile : Debugger.CommandT :=
  {| Debugger.name := "profile"; Debugger.allowed_installs := Some everywhere;
     Debugger.allowed_contexts := None |}.

Definition remind : Debugger.CommandT :=
  {| Debugger.name := "remind"; Debugger.allowed_installs := Some everywhere;
     Debugger.allowed_contexts := None |}.

Definition app : Debugger.AppInfo :=
  {| Debugger.app_id := 7; Debugger.guild_integration_config := None;
     Debugger.user_integration_config := None |}.

Definition bot_client : Debugger.Client :=
  {| Debugger.application := Some app;
     Debugger.application_info := Ok app;
     Debugger.get_guild := fun _ => None;
     Debugger.intents_guilds := true;
     Debugger.fetch_guild := fun _ => Raise (ValueError "NotFound") |}.

Definition debugger (commands : list Debugger.CommandT) : Debugger.t :=
  {| Debugger.get_commands := fun _ => commands;
     Debugger.client := bot_client;
     Debugger._global_allowed_contexts := unset_contexts;
     Debugger._global_allowed_installs := guild_only;
     Debugger._application := None;
     Debugger._app_user_installable := None;
     Debugger._app_guild_installable := None |}.

Definition console : Debugger.Outputs :=
  {| Debugger.cwd_writable := true; Debugger.debug_info_json := None;
     Debugger.stdout := []; Debugger.original_sync_calls := [] |}.

End Sample.

(* ===================================================================== *)
(** ** Further specification-level functions *)
(* ===================================================================== *)

(** The pair [_update] leaves for a fingerprint written at instant [now]. *)
Definition updated_pair (new_hex : string) (now : Z) : SavedConfig :=
  {| last_timestamp := Some (Datetime.int_timestamp now); last_hex := Some new_hex |}.

(** Both fields present, or both absent. *)
Definition paired (c : SavedConfig) : Prop :=
  is_Some (last_timestamp c) <-> is_Some (last_hex c).

(** Whether the store's file is there and can be read. *)
Definition readable_at (w : World) (p : Path) : bool :=
  match nodes (fs w) !! p with
  | Some (File _ readable _) => readable
  | None => false
  end.

(** The flags [check_command] reads off a command that passes. *)
Definition describe (c : Debugger.CommandT) : Debugger._DebugableCommand :=
  {| Debugger.command := c;
     Debugger.is_guild_installable := Debugger.__is_command_guild_installable c;
     Debugger.is_user_installable := Debugger.__is_command_user_installable c;
     Debugger.is_guild_usable := Debugger.__is_command_guild_usable c;
     Debugger.is_dm_usable := Debugger.__is_command_dm_usable c;
     Debugger.is_private_channel_usable := Debugger.__is_command_private_channel_usable c |}.

(** The line [check] prints for a debugger state and its commands. *)
Definition console_text (d : Debugger.t) (l : list Debugger._DebugableCommand) : string :=
  (join " " [Debugger.get_bot_debug_info d;
             ("Commands debug info:" ++ nl)%string;
             join nl (map Debugger.__str__ l)] ++ nl)%string.

(* ===================================================================== *)
(** * Properties *)
(* ===================================================================== *)

Ltac unfold_monad :=
  repeat (unfold logw, utcnow, self, update_self, on_fs, on_world in *);
  unfold bind, ret, raise, try_except, gets, modify, get_state, set_state, zoom in *.

(** Case analysis on an innermost stuck [match]. *)
Ltac destruct_inner :=
  match goal with
  | |- context [match ?x with _ => _ end] =>
      lazymatch x with
      | context [match _ with _ => _ end] => fail
      | _ => destruct x eqn:?
      end
  end.

Ltac unfold_store :=
  unfold SaveConfig.get_config, SaveConfig.path, SaveConfig.__ensure_path_exists,
    SaveConfig.decode, SaveConfig.filename in *;
  unfold mkdir_parents, exists_, read_text, write_text in *.

(** ** Test vectors for the hash *)

Example xxh64_empty : Xxh64.xxh64_hexdigest [] 0 = "ef46db3751d8e999".
Proof. vm_compute. reflexivity. Qed.
Example xxh64_a : Xxh64.xxh64_hexdigest (bytes_of_string "a") 0 = "d24ec4f1a98c6e5b".
Proof. vm_compute. reflexivity. Qed.
Example xxh64_abc : Xxh64.xxh64_hexdigest (bytes_of_string "abc") 0 = "44bc2cf5ad770999".
Proof. vm_compute. reflexivity. Qed.
Example xxh64_xxhash : Xxh64.xxh64_hexdigest (bytes_of_string "xxhash") 0 = "32dd38952c4bc720".
Proof. vm_compute. reflexivity. Qed.
Example xxh64_seeded :
  Xxh64.xxh64_hexdigest (bytes_of_string "xxhash") 20141025 = "b559b98d844e0635".
Proof. vm_compute. reflexivity. Qed.
Example xxh64_long :
  Xxh64.xxh64_hexdigest (bytes_of_string "Nobody inspects the spammish repetition") 0
  = "fbcea83c8a378bf1".
Proof. vm_compute. reflexivity. Qed.

(** ** The state store *)

(** With a cached state and no forced reload, [get_config] is a pure read. *)
Lemma get_config_cached (w : World) (s : SaveConfig.t) (c : SavedConfig) :
  SaveConfig._config s = Some c ->
  SaveConfig.get_config false (w, s) = (Ok c, (w, s)).
Proof.
  intros H. unfold SaveConfig.get_config. unfold_monad. simpl. rewrite H. reflexivity.
Qed.

(** [get_config] never raises; it leaves its result in the cache, and what
    it may change is the file system (the default file), the cached path
    and the log. *)
Lemma get_config_ok (force : bool) (w : World) (s : SaveConfig.t) :
  exists c w' s',
    SaveConfig.get_config force (w, s) = (Ok c, (w', s')) /\
    SaveConfig._config s' = Some c /\
    clock w' = clock w /\ remote_calls w' = remote_calls w /\
    SaveConfig.__directory s' = SaveConfig.__directory s /\
    SaveConfig.__filename s' = SaveConfig.__filename s.
Proof.
  destruct s as [d f p c]; destruct w as [[nd ds sl] clk lg calls].
  unfold_store. unfold_monad. cbn.
  repeat (destruct_inner; cbn in *; simplify_eq; eauto 12).
Qed.

(** What is already in the log has no influence on [get_config], which
    only appends to it. *)
Lemma get_config_log_frame (force : bool) (w : World) (s : SaveConfig.t)
    (l : list (Level * LogEvent)) :
  exists r w' s' extra,
    SaveConfig.get_config force (w, s) = (r, (w', s')) /\
    log w' = log w ++ extra /\
    SaveConfig.get_config force (with_log l w, s) = (r, (with_log (l ++ extra) w', s')).
Proof.
  destruct s as [d f p c]; destruct w as [[nd ds sl] clk lg calls].
  destruct c as [c|]; [destruct force|].
  2: { exists (Ok c), {| fs := mkFS nd ds sl; clock := clk; log := lg; remote_calls := calls |},
         (SaveConfig.mk d f p (Some c)), [].
       rewrite !app_nil_r. repeat split. }
  all: unfold_store; unfold_monad; cbn;
    repeat (destruct_inner; cbn in *; simplify_eq);
    do 4 eexists; unfold with_log; cbn; rewrite <- ?app_assoc;
    (split; [reflexivity|]); split; reflexivity.
Qed.

Lemma last_synced_at_run (w w' : World) (s s' : SaveConfig.t) (c : SavedConfig) :
  SaveConfig.get_config false (w, s) = (Ok c, (w', s')) ->
  SaveConfig.last_synced_at (w, s) = (instant_of c, (w', s')).
Proof.
  intros H. unfold SaveConfig.last_synced_at, instant_of, recorded, bind. rewrite H.
  destruct (last_timestamp c) as [ts|]; [destruct (ts =? 0)|]; try reflexivity.
  unfold and_then. destruct (Datetime.fromtimestamp ts); reflexivity.
Qed.

Lemma last_hex_run (w w' : World) (s s' : SaveConfig.t) (c : SavedConfig) :
  SaveConfig.get_config false (w, s) = (Ok c, (w', s')) ->
  SaveConfig.last_hex (w, s) = (Ok (last_hex c), (w', s')).
Proof.
  intros H. unfold SaveConfig.last_hex, bind. rewrite H. reflexivity.
Qed.

(** ** What [datetime] takes *)

Lemma fromtimestamp_convertible (timestamp : Z) :
  convertible timestamp -> Datetime.fromtimestamp timestamp = Ok (timestamp * 1000000).
Proof.
  unfold convertible, Datetime.fromtimestamp. intros [H1 H2].
  apply Z.leb_le in H1, H2. rewrite H1, H2. reflexivity.
Qed.

Lemma fromtimestamp_inv (timestamp instant : Z) :
  Datetime.fromtimestamp timestamp = Ok instant ->
  convertible timestamp /\ instant = timestamp * 1000000.
Proof.
  unfold convertible, Datetime.fromtimestamp.
  destruct (Z.leb_spec Datetime.MIN_TIMESTAMP timestamp);
    destruct (Z.leb_spec timestamp Datetime.MAX_TIMESTAMP); cbn; intros [=]; auto.
Qed.

Lemma fromtimestamp_refuses (timestamp : Z) :
  ~ convertible timestamp -> exists e, Datetime.fromtimestamp timestamp = Raise e.
Proof.
  intros H. destruct (Datetime.fromtimestamp timestamp) as [i|e] eqn:Hf; [|eauto].
  apply fromtimestamp_inv in Hf as [Hc _]. contradiction.
Qed.

Lemma add_representable (instant delta : Z) :
  representable (instant + delta) -> Datetime.add instant delta = Ok (instant + delta).
Proof.
  unfold representable, Datetime.add. intros [H1 H2].
  apply Z.leb_le in H1, H2. cbv zeta. rewrite H1, H2. reflexivity.
Qed.

Lemma add_inv (instant delta sum : Z) :
  Datetime.add instant delta = Ok sum ->
  representable (instant + delta) /\ sum = instant + delta.
Proof.
  unfold representable, Datetime.add. cbv zeta.
  destruct (Z.leb_spec Datetime.MIN (instant + delta));
    destruct (Z.leb_spec (instant + delta) Datetime.MAX); cbn; intros [=]; auto.
Qed.

Lemma add_refuses (instant delta : Z) :
  ~ representable (instant + delta) -> exists e, Datetime.add instant delta = Raise e.
Proof.
  intros H. destruct (Datetime.add instant delta) as [i|e] eqn:Hf; [|eauto].
  apply add_inv in Hf as [Hc _]. contradiction.
Qed.

(** The stored second comes out of [int(timestamp())] as expected up to
    the year 2514, and one second late just before a full second after
    it. *)
Example int_timestamp_vectors :
  map Datetime.int_timestamp
    [0; 999999; 1000000; 1700000000123456; 17179869183999999;
     17179869184999999; 20000000000999999; 253402300799999999; -1; -1000000;
     -62135596800000000]
  = [0; 0; 1; 1700000000; 17179869183;
     17179869185; 20000000001; 253402300800; 0; -1;
     -62135596800].
Proof. vm_compute. reflexivity. Qed.

(** ** The interval gate *)

Lemma tree_last_synced_at_run (w w' : World) (tree : AutoSyncTree.t)
    (s' : SaveConfig.t) (c : SavedConfig) :
  SaveConfig.get_config false (w, AutoSyncTree._config_manager tree) = (Ok c, (w', s')) ->
  AutoSyncTree.last_synced_at (w, tree)
  = (instant_of c, (w', AutoSyncTree.with_config_manager s' tree)).
Proof.
  intros H. unfold AutoSyncTree.last_synced_at, AutoSyncTree.config_manager, zoom.
  cbn. rewrite (last_synced_at_run _ _ _ _ _ H). reflexivity.
Qed.

Lemma tree_last_hex_run (w w' : World) (tree : AutoSyncTree.t)
    (s' : SaveConfig.t) (c : SavedConfig) :
  SaveConfig.get_config false (w, AutoSyncTree._config_manager tree) = (Ok c, (w', s')) ->
  AutoSyncTree.last_hex (w, tree)
  = (Ok (last_hex c), (w', AutoSyncTree.with_config_manager s' tree)).
Proof.
  intros H. unfold AutoSyncTree.last_hex, AutoSyncTree.config_manager, zoom.
  cbn. rewrite (last_hex_run _ _ _ _ _ H). reflexivity.
Qed.

(** [can_sync] raises what [last_synced_at] raises, before any log line;
    otherwise it answers as [gate] does, the exception of the addition
    coming after the first log line. *)
Lemma can_sync_run (w w' : World) (tree : AutoSyncTree.t)
    (s' : SaveConfig.t) (c : SavedConfig) :
  SaveConfig.get_config false (w, AutoSyncTree._config_manager tree) = (Ok c, (w', s')) ->
  AutoSyncTree.can_sync (w, tree)
  = match instant_of c with
    | Raise e => (Raise e, (w', AutoSyncTree.with_config_manager s' tree))
    | Ok last =>
        (gate (AutoSyncTree.minimal_sync_interval tree) last (clock w'),
         (with_log (log w' ++ can_sync_log (AutoSyncTree.minimal_sync_interval tree)
                                           last (clock w')) w',
          AutoSyncTree.with_config_manager s' tree))
    end.
Proof.
  intros H. unfold AutoSyncTree.can_sync, bind at 1.
  rewrite (tree_last_synced_at_run _ _ _ _ _ H).
  destruct (instant_of c) as [last|e]; [|reflexivity].
  unfold gate, can_sync_log. unfold_monad. cbn.
  destruct (AutoSyncTree.minimal_sync_interval tree) as [i|];
    destruct last as [l|]; cbn;
    try (unfold and_then; destruct (Datetime.add l i); cbn);
    unfold with_log; cbn; rewrite <- ?app_assoc; reflexivity.
Qed.

Lemma can_sync_value (w : World) (tree : AutoSyncTree.t) (c : SavedConfig) :
  SaveConfig._config (AutoSyncTree._config_manager tree) = Some c ->
  fst (AutoSyncTree.can_sync (w, tree)) = allowed tree c (clock w).
Proof.
  intros Hc. rewrite (can_sync_run _ _ _ _ _ (get_config_cached w _ _ Hc)).
  unfold allowed, and_then. destruct (instant_of c); reflexivity.
Qed.





(** C10. A stored [last_timestamp] of [0] counts as "never synced":
    [last_synced_at] is [None], and [can_sync] is [True] whatever the
    minimal interval and the clock are. *)
Theorem epoch_timestamp_is_never_synced (w : World) (tree : AutoSyncTree.t)
    (c : SavedConfig) :
  SaveConfig._config (AutoSyncTree._config_manager tree) = Some c ->
  last_timestamp c = Some 0 ->
  fst (AutoSyncTree.last_synced_at (w, tree)) = Ok None /\
  fst (AutoSyncTree.can_sync (w, tree)) = Ok true.
Proof.
  intros Hc Hts.
  pose proof (get_config_cached w _ _ Hc) as Hrun.
  rewrite (tree_last_synced_at_run _ _ _ _ _ Hrun), (can_sync_run _ _ _ _ _ Hrun).
  unfold instant_of, recorded. rewrite Hts. cbn.
  split; [reflexivity|].
  unfold gate. destruct (AutoSyncTree.minimal_sync_interval tree); reflexivity.
Qed.

Lemma epoch_timestamp_is_never_synced_witness :
  let w := Sample.world [(Sample.config_path, Sample.state_file 0 "0123456789abcdef")]
             Sample.t0 in
  let tree := Sample.tree (Some (Sample.saved 0 "0123456789abcdef"))
                Sample.five_minutes (Sample.registry [Sample.ban] []) in
  fst (AutoSyncTree.last_synced_at (w, tree)) = Ok None /\
  fst (AutoSyncTree.can_sync (w, tree)) = Ok true.
Proof.
  cbv zeta.
  apply (epoch_timestamp_is_never_synced _ _ (Sample.saved 0 "0123456789abcdef"));
    reflexivity.
Defined.

(** ** The change gate *)

Lemma with_config_manager_twice (s1 s2 : SaveConfig.t) (tree : AutoSyncTree.t) :
  AutoSyncTree.with_config_manager s2 (AutoSyncTree.with_config_manager s1 tree)
  = AutoSyncTree.with_config_manager s2 tree.
Proof. reflexivity. Qed.

Lemma digest_with_config_manager (s : SaveConfig.t) (tree : AutoSyncTree.t)
    (guild : option Z) :
  digest (AutoSyncTree.with_config_manager s tree) guild = digest tree guild.
Proof. reflexivity. Qed.

(** [generate_hex] caches what it returns, and caches nothing when the
    payloads do not serialise. *)
Lemma generate_hex_run (w : World) (tree : AutoSyncTree.t) (guild : option Z) :
  AutoSyncTree.generate_hex guild (w, tree)
  = match digest tree guild with
    | Ok h => (Ok h, (w, AutoSyncTree.with_current_hex (Some h) tree))
    | Raise e => (Raise e, (w, tree))
    end.
Proof.
  unfold AutoSyncTree.generate_hex, digest, and_then, bind, self, gets.
  cbv beta iota. cbn [snd].
  destruct (Msgpack.encode _); reflexivity.
Qed.

Lemma digest_fingerprint (tree : AutoSyncTree.t) (guild : option Z) (h : string) :
  digest tree guild = Ok h -> fingerprint tree guild = h.
Proof. unfold fingerprint. intros ->. reflexivity. Qed.

Lemma should_sync_run (w w' : World) (tree : AutoSyncTree.t)
    (s' : SaveConfig.t) (c : SavedConfig) :
  SaveConfig.get_config false
    (with_log (log w ++ [(INFO, CheckingIfNeeded)]) w,
     AutoSyncTree._config_manager tree) = (Ok c, (w', s')) ->
  let interval := AutoSyncTree.minimal_sync_interval tree in
  let loaded := AutoSyncTree.with_config_manager s' tree in
  AutoSyncTree.should_sync (w, tree)
  = match instant_of c with
    | Raise e => (Raise e, (w', loaded))
    | Ok last =>
        let opened := with_log (log w' ++ can_sync_log interval last (clock w')) w' in
        match gate interval last (clock w') with
        | Raise e => (Raise e, (opened, loaded))
        | Ok false => (Ok false, (opened, loaded))
        | Ok true =>
            match digest tree None with
            | Raise e => (Raise e, (opened, loaded))
            | Ok current =>
                (Ok (differs (last_hex c) current),
                 (with_log (log opened ++ compare_log (last_hex c) current) w',
                  AutoSyncTree.with_current_hex (Some current) loaded))
            end
        end
    end.
Proof.
  intros H interval loaded.
  rename H into Hrun.
  assert (Hcached : SaveConfig._config s' = Some c).
  { destruct (get_config_ok false (with_log (log w ++ [(INFO, CheckingIfNeeded)]) w)
                (AutoSyncTree._config_manager tree))
      as (c0 & w0 & s0 & H0 & Hc0 & _).
    rewrite Hrun in H0. congruence. }
  unfold AutoSyncTree.should_sync.
  unfold bind at 1. unfold logw at 1. unfold on_world, zoom, modify. cbn [fst snd].
  unfold bind at 1. rewrite (can_sync_run _ _ _ _ _ Hrun).
  fold interval. fold loaded.
  destruct (instant_of c) as [last|e]; [|reflexivity].
  cbv zeta.
  set (opened := with_log (log w' ++ can_sync_log interval last (clock w')) w').
  destruct (gate interval last (clock w')) as [[|]|e]; cbn [negb]; try reflexivity.
  unfold bind at 1.
  erewrite tree_last_hex_run; last by (cbn; apply get_config_cached).
  unfold bind at 1. rewrite generate_hex_run.
  subst loaded.
  rewrite !with_config_manager_twice, !digest_with_config_manager.
  destruct (digest tree None) as [current|e]; [|reflexivity].
  subst opened.
  set (entries := can_sync_log interval last (clock w')). clearbody entries.
  unfold compare_log, differs.
  destruct (last_hex c) as [h|]; cbn [truthy default].
  - destruct (_ && _); unfold_monad; cbn;
      unfold with_log; cbn; rewrite <- ?app_assoc; reflexivity.
  - unfold_monad; cbn. unfold with_log; cbn; rewrite <- ?app_assoc; reflexivity.
Qed.

Lemma differs_true_iff (last : option string) (current : string) :
  differs last current = true <-> last = None \/ last <> Some current.
Proof.
  unfold differs. rewrite negb_true_iff, bool_decide_eq_false.
  split; [auto|]. intros [-> | H]; [discriminate | exact H].
Qed.

(** C4 (as amended). Let the interval gate return, neither of its two
    [datetime] conversions raising. When it returns [False],
    [should_sync] returns [False] and computes no fingerprint. When it
    returns [True] and the commands serialise, [should_sync] caches the
    current fingerprint and returns [True] exactly when no fingerprint is
    stored or the stored one differs from the current one; a stored
    fingerprint of another length (in characters) is a mismatch, and when
    it is moreover non-empty the call appends the length-mismatch warning
    to the log. *)
Theorem should_sync_change_gate (w : World) (tree : AutoSyncTree.t) (open : bool) :
  fst (AutoSyncTree.can_sync (w, tree)) = Ok open ->
  let st := snd (AutoSyncTree.should_sync (w, tree)) in
  (open = false ->
     fst (AutoSyncTree.should_sync (w, tree)) = Ok false /\
     AutoSyncTree._current_hex st.2 = AutoSyncTree._current_hex tree) /\
  (open = true ->
     forall (current : string) (last : option string),
       fst (AutoSyncTree.generate_hex None (w, tree)) = Ok current ->
       fst (AutoSyncTree.last_hex (w, tree)) = Ok last ->
       exists (b : bool) (appended : list (Level * LogEvent)),
         fst (AutoSyncTree.should_sync (w, tree)) = Ok b /\
         log st.1 = log w ++ appended /\
         AutoSyncTree._current_hex st.2 = Some current /\
         (b = true <-> last = None \/ last <> Some current) /\
         forall h, last = Some h ->
                   len h <> len current ->
                   b = true /\
                   (h <> "" ->
                    In (WARNING, HexLengthMismatch (len h) (len current)) appended)).
Proof.
  intros Hgate.
  set (cm := AutoSyncTree._config_manager tree).
  destruct (get_config_log_frame false w cm (log w ++ [(INFO, CheckingIfNeeded)]))
    as (r & w' & s' & extra & H1 & Hlog & H2).
  destruct (get_config_ok false w cm) as (c & w0 & s0 & Hok & _ & Hclock & _).
  rewrite H1 in Hok. injection Hok as -> <- <-.
  pose proof (should_sync_run _ _ _ _ _ H2) as Hrun. cbv zeta in Hrun.
  change (clock (with_log _ w')) with (clock w') in Hrun.
  rewrite (can_sync_run _ _ _ _ _ H1) in Hgate.
  destruct (instant_of c) as [stamp|e]; [|discriminate].
  cbn [fst] in Hgate. rewrite Hgate in Hrun.
  cbv zeta. rewrite Hrun. clear Hrun.
  split.
  - intros ->. split; reflexivity.
  - intros -> current last Hcur Hlast.
    rewrite generate_hex_run in Hcur.
    destruct (digest tree None) as [h0|e]; [|discriminate].
    cbn in Hcur. injection Hcur as ->.
    rewrite (tree_last_hex_run _ _ _ _ _ H1) in Hlast. cbn in Hlast. injection Hlast as <-.
    eexists. eexists.
    split; [reflexivity|].
    split; [cbn; rewrite <- !app_assoc; reflexivity|].
    split; [reflexivity|].
    split; [apply differs_true_iff|].
    intros h Hh Hlen. split.
    + apply differs_true_iff. right. rewrite Hh. intros [= ->]. congruence.
    + intros Hne. rewrite !in_app_iff. right. right. right.
      unfold compare_log. rewrite Hh. rewrite in_app_iff. left.
      assert (Ht : truthy (Some h) = true) by (destruct h; [congruence | reflexivity]).
      rewrite Ht. cbn [andb].
      apply Nat.eqb_neq in Hlen. rewrite Hlen. cbn. left. reflexivity.
Qed.

Lemma should_sync_change_gate_witness :
  let ws := Sample.boot [(Sample.config_path, Sample.state_file 1699990000 "0123456789")]
              Sample.t0 MISSING (Sample.registry [Sample.ban; Sample.kick] []) in
  let st := snd (AutoSyncTree.should_sync (ws.1, ws.2)) in
  exists (b : bool) (appended : list (Level * LogEvent)),
    fst (AutoSyncTree.should_sync (ws.1, ws.2)) = Ok b /\
    log st.1 = log ws.1 ++ appended /\
    AutoSyncTree._current_hex st.2 = Some (fingerprint ws.2 None) /\
    (b = true <-> Some "0123456789" = None \/ Some "0123456789" <> Some (fingerprint ws.2 None)) /\
    forall h, Some "0123456789" = Some h ->
              len h <> len (fingerprint ws.2 None) ->
              b = true /\
              (h <> "" ->
               In (WARNING, HexLengthMismatch (len h) (len (fingerprint ws.2 None))) appended).
Proof.
  intros ws st.
  pose proof (should_sync_change_gate ws.1 ws.2 true) as H.
  destruct H as [_ H]; [vm_compute; reflexivity|].
  apply (H eq_refl (fingerprint ws.2 None) (Some "0123456789")); vm_compute; reflexivity.
Defined.

(** C4, the claim as stated, fails on an empty stored fingerprint: it has
    another length than the 16-character current one and [should_sync]
    answers [True], yet the guard [if last_hex and ...] skips the warning.
    Nor does [should_sync] return on every state: it raises what the gate
    raises (here on a stored timestamp in the year 10000) and, the gate
    open, what the serialisation of the commands raises (here on an
    integer option whose upper bound is 2^64). *)
Lemma empty_stored_hex_raises_no_diagnostic :
  let ws := Sample.boot [(Sample.config_path, Sample.state_file 1699990000 "")]
              Sample.t0 MISSING (Sample.registry [Sample.ban; Sample.kick] []) in
  let tampered := Sample.boot [(Sample.config_path, Sample.state_file 253402300800 "0123456789abcdef")]
                    Sample.t0 MISSING (Sample.registry [Sample.ban] []) in
  let unwritable := Sample.boot [] Sample.t0 MISSING (Sample.registry [Sample.lottery] []) in
  (fst (AutoSyncTree.last_hex ws) = Ok (Some "") /\
   len "" <> len (fingerprint ws.2 None) /\
   fst (AutoSyncTree.should_sync ws) = Ok true /\
   existsb is_mismatch_warning (log (snd (AutoSyncTree.should_sync ws)).1) = false) /\
  (exists msg, fst (AutoSyncTree.should_sync tampered) = Raise (ValueError msg)) /\
  fst (AutoSyncTree.can_sync unwritable) = Ok true /\
  (exists msg, fst (AutoSyncTree.should_sync unwritable) = Raise (OverflowError msg)).
Proof.
  vm_compute.
  split; [repeat split; congruence|].
  split; [eexists; reflexivity|]. split; [reflexivity|]. eexists; reflexivity.
Qed.

(** The length that decides the warning is counted in characters: a
    stored fingerprint of sixteen two-byte characters has the length of
    the current one, and raises no warning though it differs. *)
Example length_is_counted_in_characters :
  let stored := "éééééééééééééééé" in
  let ws := Sample.boot [(Sample.config_path, Sample.state_file 1699990000 stored)]
              Sample.t0 MISSING (Sample.registry [Sample.ban; Sample.kick] []) in
  String.length stored = 32%nat /\ len stored = 16%nat /\
  fst (AutoSyncTree.should_sync ws) = Ok true /\
  existsb is_mismatch_warning (log (snd (AutoSyncTree.should_sync ws)).1) = false.
Proof. vm_compute. repeat split; congruence. Qed.

(** ** Recovery from a state file that does not load *)

Lemma get_config_fallback (force : bool) (w : World) (s : SaveConfig.t) :
  force = true \/ SaveConfig._config s = None ->
  unloadable w s = true ->
  exists w' s' e,
    SaveConfig.get_config force (w, s) = (Ok absent_config, (w', s')) /\
    SaveConfig._config s' = Some absent_config /\
    log w' = log w ++ [(WARNING, FailedToLoad (target s) e)].
Proof.
  destruct s as [d f p c]; destruct w as [[nd ds sl] clk lg calls].
  unfold unloadable, target. cbn.
  intros Hload Hbad.
  assert (Hmiss : match c, force with Some _, false => False | _, _ => True end)
    by (destruct Hload as [-> | ->]; [destruct c|]; exact I).
  clear Hload.
  unfold_store. unfold_monad. cbn.
  repeat (destruct_inner; cbn in *; simplify_map_eq; eauto 10); contradiction.
Qed.

Lemma cached_absent_should_sync (w : World) (tree : AutoSyncTree.t) (h : string) :
  SaveConfig._config (AutoSyncTree._config_manager tree) = Some absent_config ->
  digest tree None = Ok h ->
  fst (AutoSyncTree.should_sync (w, tree)) = Ok true.
Proof.
  intros H Hd. erewrite should_sync_run; last by apply get_config_cached.
  cbn. unfold gate. rewrite Hd.
  destruct (AutoSyncTree.minimal_sync_interval tree); reflexivity.
Qed.

(** C5. When the backing file is missing, unreadable, not JSON, or lacks a
    field or holds one of the wrong type, a load does not raise: it logs a
    warning and returns the absent/absent state, after which [should_sync]
    answers [True] (the interval gate is open, no sync being recorded) on
    every tree whose commands serialise, that is for which [generate_hex]
    returns. *)
Theorem corrupted_state_forces_resync (w : World) (tree : AutoSyncTree.t)
    (force : bool) :
  force = true \/ SaveConfig._config (AutoSyncTree._config_manager tree) = None ->
  unloadable w (AutoSyncTree._config_manager tree) = true ->
  exists w' s' e,
    SaveConfig.get_config force (w, AutoSyncTree._config_manager tree)
    = (Ok absent_config, (w', s')) /\
    log w' = log w ++ [(WARNING, FailedToLoad (target (AutoSyncTree._config_manager tree)) e)] /\
    forall now h,
      fst (AutoSyncTree.generate_hex None
             (with_clock now w', AutoSyncTree.with_config_manager s' tree)) = Ok h ->
      fst (AutoSyncTree.can_sync
             (with_clock now w', AutoSyncTree.with_config_manager s' tree)) = Ok true /\
      fst (AutoSyncTree.should_sync
             (with_clock now w', AutoSyncTree.with_config_manager s' tree)) = Ok true.
Proof.
  intros Hload Hbad.
  destruct (get_config_fallback force w _ Hload Hbad) as (w' & s' & e & Hrun & Hc & Hlog).
  exists w', s', e. repeat split; [exact Hrun | exact Hlog | |].
  - rewrite (can_sync_value _ _ absent_config) by exact Hc.
    unfold allowed, gate. cbn.
    destruct (AutoSyncTree.minimal_sync_interval tree); reflexivity.
  - rewrite generate_hex_run in H.
    destruct (digest (AutoSyncTree.with_config_manager s' tree) None) as [h0|e0] eqn:Hd;
      [|discriminate].
    apply (cached_absent_should_sync _ _ h0); [exact Hc | exact Hd].
Qed.

Lemma corrupted_state_forces_resync_witness :
  let w := Sample.world [(Sample.config_path, File (Malformed "{last_hex") true true)]
             Sample.t0 in
  let tree := Sample.tree None Sample.five_minutes
                (Sample.registry [Sample.ban; Sample.kick] []) in
  exists w' s' e,
    SaveConfig.get_config true (w, AutoSyncTree._config_manager tree)
    = (Ok absent_config, (w', s')) /\
    log w' = log w ++ [(WARNING, FailedToLoad (target (AutoSyncTree._config_manager tree)) e)] /\
    forall now h,
      fst (AutoSyncTree.generate_hex None
             (with_clock now w', AutoSyncTree.with_config_manager s' tree)) = Ok h ->
      fst (AutoSyncTree.can_sync
             (with_clock now w', AutoSyncTree.with_config_manager s' tree)) = Ok true /\
      fst (AutoSyncTree.should_sync
             (with_clock now w', AutoSyncTree.with_config_manager s' tree)) = Ok true.
Proof.
  cbv zeta.
  apply (corrupted_state_forces_resync _ _ true); [left; reflexivity | vm_compute; reflexivity].
Defined.

(** On the tree of the witness the commands do serialise, and the call
    answers [True]. *)
Example corrupted_state_then_should_sync :
  let ws := Sample.boot [(Sample.config_path, File (Malformed "{last_hex") true true)]
              Sample.t0 MISSING (Sample.registry [Sample.ban; Sample.kick] []) in
  fst (AutoSyncTree.generate_hex None ws) = Ok "664268aba77ebf77" /\
  fst (AutoSyncTree.should_sync ws) = Ok true.
Proof. vm_compute. repeat split. Qed.

(** The same on the files the design names: no file at all, a document
    without the fields, a field of the wrong type. *)
Example load_of_missing_file :
  fst (SaveConfig.get_config true (Sample.world [] Sample.t0, Sample.store None))
  = Ok absent_config.
Proof. vm_compute. reflexivity. Qed.

Example load_of_empty_object :
  fst (SaveConfig.get_config true
         (Sample.world [(Sample.config_path, File (Json (JObj [])) true true)] Sample.t0,
          Sample.store None))
  = Ok absent_config.
Proof. vm_compute. reflexivity. Qed.

Example load_of_null_fields :
  fst (SaveConfig.get_config true
         (Sample.world
            [(Sample.config_path,
              File (Json (JObj [("last_hex", JNull); ("last_timestamp", JNull)])) true true)]
            Sample.t0,
          Sample.store None))
  = Ok absent_config.
Proof. vm_compute. reflexivity. Qed.

Example load_of_valid_file :
  fst (SaveConfig.get_config true
         (Sample.world [(Sample.config_path, Sample.state_file 1699990000 "0123456789abcdef")]
            Sample.t0,
          Sample.store None))
  = Ok (Sample.saved 1699990000 "0123456789abcdef").
Proof. vm_compute. reflexivity. Qed.

(** ** Shape of the digest *)

Lemma hex_nibbles_length (k : nat) (x : Z) (acc : string) :
  String.length (Xxh64.hex_nibbles k x acc) = (k + String.length acc)%nat.
Proof.
  revert x acc. induction k as [|k IH]; intros x acc; cbn; [reflexivity|].
  rewrite IH. cbn. lia.
Qed.

Lemma xxh64_hexdigest_length (data : list byte) (seed : Z) :
  String.length (Xxh64.xxh64_hexdigest data seed) = 16%nat.
Proof. unfold Xxh64.xxh64_hexdigest. rewrite hex_nibbles_length. reflexivity. Qed.

Lemma digest_inv (tree : AutoSyncTree.t) (guild : option Z) (h : string) :
  digest tree guild = Ok h -> exists data, h = Xxh64.xxh64_hexdigest data 0.
Proof.
  unfold digest, and_then. destruct (Msgpack.encode _) as [data|e]; [|discriminate].
  intros [= <-]. eauto.
Qed.

Lemma digest_length (tree : AutoSyncTree.t) (guild : option Z) (h : string) :
  digest tree guild = Ok h -> String.length h = 16%nat.
Proof. intros (data & ->)%digest_inv. apply xxh64_hexdigest_length. Qed.

Lemma digest_truthy (tree : AutoSyncTree.t) (guild : option Z) (h : string) :
  digest tree guild = Ok h -> truthy (Some h) = true.
Proof.
  intros H%digest_length. destruct h; [discriminate | reflexivity].
Qed.

(** ** [_update] and [sync] on a loaded store *)

Lemma with_config_manager_id (tree : AutoSyncTree.t) :
  AutoSyncTree.with_config_manager (AutoSyncTree._config_manager tree) tree = tree.
Proof. destruct tree; reflexivity. Qed.

(** Whatever becomes of the write, [_update] has by then put the new pair
    in the cached state. *)
Lemma update_run (new_hex : string) (w : World) (s : SaveConfig.t) (c : SavedConfig) :
  SaveConfig._config s = Some c ->
  exists r w' s',
    SaveConfig._update new_hex (w, s) = (r, (w', s')) /\
    SaveConfig._config s' = Some (updated_pair new_hex (clock w)) /\
    clock w' = clock w /\ remote_calls w' = remote_calls w /\
    SaveConfig.__directory s' = SaveConfig.__directory s /\
    SaveConfig.__filename s' = SaveConfig.__filename s.
Proof.
  destruct s as [d f p cc]; destruct w as [[nd ds sl] clk lg calls].
  cbn. intros ->.
  unfold SaveConfig._update, updated_pair. unfold_store. unfold_monad. cbn.
  repeat (destruct_inner; cbn in *; simplify_eq; eauto 12).
Qed.

Lemma same_setup_digest (t1 t2 : AutoSyncTree.t) (guild : option Z) :
  same_setup t1 t2 -> digest t2 guild = digest t1 guild.
Proof. intros (Hc & _ & Ht). unfold digest. rewrite Hc, Ht. reflexivity. Qed.

Lemma same_setup_fingerprint (t1 t2 : AutoSyncTree.t) (guild : option Z) :
  same_setup t1 t2 -> fingerprint t2 guild = fingerprint t1 guild.
Proof. intros H. unfold fingerprint. rewrite (same_setup_digest _ _ _ H). reflexivity. Qed.

(** What a decision of [should_sync] tells about the state it read. *)
Lemma needs_sync_true_inv (tree : AutoSyncTree.t) (c : SavedConfig) (now : Z) :
  needs_sync tree c now = Ok true ->
  exists last h,
    instant_of c = Ok last /\
    gate (AutoSyncTree.minimal_sync_interval tree) last now = Ok true /\
    digest tree None = Ok h /\
    differs (last_hex c) h = true.
Proof.
  unfold needs_sync, allowed, and_then.
  destruct (instant_of c) as [last|]; [|discriminate].
  destruct (gate _ last now) as [[|]|] eqn:Hg; try discriminate.
  destruct (digest tree None) as [h|]; [|discriminate].
  intros [= H]. exists last, h. auto.
Qed.

Lemma needs_sync_false_inv (tree : AutoSyncTree.t) (c : SavedConfig) (now : Z) :
  needs_sync tree c now = Ok false ->
  exists last,
    instant_of c = Ok last /\
    (gate (AutoSyncTree.minimal_sync_interval tree) last now = Ok false \/
     gate (AutoSyncTree.minimal_sync_interval tree) last now = Ok true /\
     exists h, digest tree None = Ok h /\ differs (last_hex c) h = false).
Proof.
  unfold needs_sync, allowed, and_then.
  destruct (instant_of c) as [last|]; [|discriminate].
  destruct (gate _ last now) as [[|]|] eqn:Hg; try discriminate.
  - destruct (digest tree None) as [h|]; [|discriminate].
    intros [= H]. exists last. split; [reflexivity|]. right. split; [exact Hg|].
    exists h. auto.
  - intros _. exists last. auto.
Qed.

Lemma should_sync_loaded (w : World) (tree : AutoSyncTree.t) (c : SavedConfig) :
  SaveConfig._config (AutoSyncTree._config_manager tree) = Some c ->
  exists w' tree',
    AutoSyncTree.should_sync (w, tree) = (needs_sync tree c (clock w), (w', tree')) /\
    fs w' = fs w /\ clock w' = clock w /\ remote_calls w' = remote_calls w /\
    AutoSyncTree._config_manager tree' = AutoSyncTree._config_manager tree /\
    same_setup tree tree' /\
    (needs_sync tree c (clock w) = Ok true ->
     AutoSyncTree._current_hex tree' = Some (fingerprint tree None)).
Proof.
  intros Hc.
  erewrite should_sync_run; last by apply get_config_cached.
  cbv zeta. rewrite with_config_manager_id. unfold needs_sync, allowed, and_then, fingerprint.
  change (clock (with_log _ w)) with (clock w).
  destruct (instant_of c) as [last|e].
  2: { do 2 eexists. split; [reflexivity|]. repeat split. discriminate. }
  destruct (gate _ last (clock w)) as [[|]|e].
  - destruct (digest tree None) as [h|e].
    + do 2 eexists. split; [reflexivity|]. repeat split; destruct tree; reflexivity.
    + do 2 eexists. split; [reflexivity|]. repeat split. discriminate.
  - do 2 eexists. split; [reflexivity|]. repeat split. discriminate.
  - do 2 eexists. split; [reflexivity|]. repeat split. discriminate.
Qed.

Lemma current_hex_run (w : World) (tree : AutoSyncTree.t) :
  AutoSyncTree.current_hex (w, tree) = (Ok (AutoSyncTree._current_hex tree), (w, tree)).
Proof. reflexivity. Qed.

Lemma should_sync_value (w : World) (tree : AutoSyncTree.t) (c : SavedConfig) :
  SaveConfig._config (AutoSyncTree._config_manager tree) = Some c ->
  fst (AutoSyncTree.should_sync (w, tree)) = needs_sync tree c (clock w).
Proof.
  intros Hc. destruct (should_sync_loaded w tree c Hc) as (w' & tree' & -> & _).
  reflexivity.
Qed.

(** No sync is needed: the result set is empty and nothing is sent. *)
Lemma sync_skip (remote : Transport) (guild : option Z) (w : World)
    (tree : AutoSyncTree.t) (c : SavedConfig) :
  SaveConfig._config (AutoSyncTree._config_manager tree) = Some c ->
  needs_sync tree c (clock w) = Ok false ->
  exists w' tree',
    AutoSyncTree.sync remote guild (w, tree) = (Ok [], (w', tree')) /\
    fs w' = fs w /\ clock w' = clock w /\ remote_calls w' = remote_calls w /\
    AutoSyncTree._config_manager tree' = AutoSyncTree._config_manager tree /\
    same_setup tree tree'.
Proof.
  intros Hc Hno.
  destruct (should_sync_loaded w tree c Hc) as (w' & tree' & Hrun & H).
  rewrite Hno in Hrun.
  exists w', tree'. split; [|tauto].
  unfold AutoSyncTree.sync, bind at 1. rewrite Hrun. reflexivity.
Qed.

(** The decision itself raises: so does [sync], and nothing is sent. *)
Lemma sync_undecided (remote : Transport) (guild : option Z) (w : World)
    (tree : AutoSyncTree.t) (c : SavedConfig) (e : Exn) :
  SaveConfig._config (AutoSyncTree._config_manager tree) = Some c ->
  needs_sync tree c (clock w) = Raise e ->
  exists w' tree',
    AutoSyncTree.sync remote guild (w, tree) = (Raise e, (w', tree')) /\
    fs w' = fs w /\ clock w' = clock w /\ remote_calls w' = remote_calls w /\
    AutoSyncTree._config_manager tree' = AutoSyncTree._config_manager tree /\
    same_setup tree tree'.
Proof.
  intros Hc Hno.
  destruct (should_sync_loaded w tree c Hc) as (w' & tree' & Hrun & H).
  rewrite Hno in Hrun.
  exists w', tree'. split; [|tauto].
  unfold AutoSyncTree.sync, bind at 1. rewrite Hrun. reflexivity.
Qed.

(** A sync is needed and the remote call raises. *)
Lemma sync_fail (remote : Transport) (guild : option Z) (w : World)
    (tree : AutoSyncTree.t) (c : SavedConfig) (e : Exn) :
  SaveConfig._config (AutoSyncTree._config_manager tree) = Some c ->
  needs_sync tree c (clock w) = Ok true ->
  reply (remote guild) = Raise e ->
  exists w' tree',
    AutoSyncTree.sync remote guild (w, tree) = (Raise e, (w', tree')) /\
    fs w' = fs w /\ clock w' = clock w + took (remote guild) /\
    remote_calls w' = remote_calls w ++ [guild] /\
    AutoSyncTree._config_manager tree' = AutoSyncTree._config_manager tree /\
    same_setup tree tree'.
Proof.
  intros Hc Hyes He.
  destruct (should_sync_loaded w tree c Hc) as (w' & tree' & Hrun & Hfs & Hclk & Hcalls & H).
  rewrite Hyes in Hrun.
  unfold AutoSyncTree.sync, bind at 1. rewrite Hrun. cbn [negb].
  unfold bind at 1, AutoSyncTree.super_sync, on_world, zoom. cbn [fst snd].
  rewrite He. do 2 eexists. split; [reflexivity|].
  cbn. rewrite Hfs, Hclk, Hcalls. tauto.
Qed.

Lemma fingerprint_truthy (tree : AutoSyncTree.t) (c : SavedConfig) (now : Z) :
  needs_sync tree c now = Ok true -> truthy (Some (fingerprint tree None)) = true.
Proof.
  intros (last & h & _ & _ & Hd & _)%needs_sync_true_inv.
  rewrite (digest_fingerprint _ _ _ Hd). eapply digest_truthy, Hd.
Qed.

(** A sync is needed and the remote call answers: the store is updated
    with the fingerprint [should_sync] cached and the time of the update. *)
Lemma sync_go (remote : Transport) (guild : option Z) (w : World)
    (tree : AutoSyncTree.t) (c : SavedConfig) (answer : list AppCommand) :
  SaveConfig._config (AutoSyncTree._config_manager tree) = Some c ->
  needs_sync tree c (clock w) = Ok true ->
  reply (remote guild) = Ok answer ->
  exists r w' tree',
    AutoSyncTree.sync remote guild (w, tree) = (r, (w', tree')) /\
    (r = Ok answer \/ exists e, r = Raise e) /\
    SaveConfig._config (AutoSyncTree._config_manager tree')
    = Some (updated_pair (fingerprint tree None) (clock w + took (remote guild))) /\
    AutoSyncTree._current_hex tree' = Some (fingerprint tree None) /\
    clock w' = clock w + took (remote guild) /\
    remote_calls w' = remote_calls w ++ [guild] /\
    same_setup tree tree'.
Proof.
  intros Hc Hyes Hans.
  destruct (should_sync_loaded w tree c Hc)
    as (w1 & tree1 & Hrun & Hfs & Hclk & Hcalls & Hcm & Hsame & Hcur).
  rewrite Hyes in Hrun. specialize (Hcur Hyes).
  unfold AutoSyncTree.sync, bind at 1. rewrite Hrun. cbn [negb].
  unfold bind at 1, AutoSyncTree.super_sync, on_world, zoom. cbn [fst snd].
  rewrite Hans.
  unfold bind at 1. rewrite current_hex_run.
  rewrite Hcur, (fingerprint_truthy _ _ _ Hyes). cbn [default].
  set (current := fingerprint tree None) in *. clearbody current.
  unfold bind at 1. unfold ret at 1.
  unfold bind at 1. unfold AutoSyncTree.config_manager, zoom. cbn [fst snd].
  match goal with |- context [SaveConfig._update ?h (?w2, ?s2)] =>
    destruct (update_run h w2 s2 c) as (r & w3 & s3 & Hup & Hnew & Hclk3 & Hcalls3 & _)
  end; [congruence|].
  rewrite Hup. cbn in Hnew, Hclk3, Hcalls3.
  destruct r as [[]|e].
  - do 3 eexists. split; [reflexivity|]. cbn.
    rewrite Hnew, Hclk3, Hcalls3, Hclk, Hcalls.
    repeat split; auto; try apply Hsame; try (destruct tree1; cbn in *; congruence).
  - do 3 eexists. split; [reflexivity|]. cbn.
    rewrite Hnew, Hclk3, Hcalls3, Hclk, Hcalls.
    repeat split; eauto; try apply Hsame; try (destruct tree1; cbn in *; congruence).
Qed.

Lemma gate_mono (interval last : option Z) (now later : Z) :
  gate interval last now = Ok true -> now <= later -> gate interval last later = Ok true.
Proof.
  unfold gate, and_then. destruct interval as [i|], last as [l|]; auto.
  destruct (Datetime.add l i); [|discriminate].
  intros [= H%Z.leb_le] Hle. f_equal. apply Z.leb_le. lia.
Qed.

Lemma needs_sync_same_setup (t1 t2 : AutoSyncTree.t) (c : SavedConfig) (now : Z) :
  same_setup t1 t2 -> needs_sync t2 c now = needs_sync t1 c now.
Proof.
  intros H. unfold needs_sync, allowed. rewrite (same_setup_digest _ _ _ H).
  destruct H as (_ & -> & _). reflexivity.
Qed.

(** ** Transport failure *)

(** C2. When [should_sync] has decided [True] and the remote sync raises,
    [sync] raises that very exception; the store object (cached
    fingerprint and timestamp, path) and the file system are what they
    were before the call, and a later attempt on the same commands decides
    [True] again. *)
Theorem transport_failure_leaves_state (remote : Transport) (guild : option Z)
    (w : World) (tree : AutoSyncTree.t) (c : SavedConfig) (e : Exn) :
  SaveConfig._config (AutoSyncTree._config_manager tree) = Some c ->
  fst (AutoSyncTree.should_sync (w, tree)) = Ok true ->
  reply (remote guild) = Raise e ->
  exists w' tree',
    AutoSyncTree.sync remote guild (w, tree) = (Raise e, (w', tree')) /\
    AutoSyncTree._config_manager tree' = AutoSyncTree._config_manager tree /\
    fs w' = fs w /\
    forall later, clock w <= later ->
      fst (AutoSyncTree.should_sync (with_clock later w', tree')) = Ok true.
Proof.
  intros Hc Hneed He.
  rewrite (should_sync_value _ _ _ Hc) in Hneed.
  destruct (sync_fail remote guild w tree c e Hc Hneed He)
    as (w' & tree' & Hrun & Hfs & _ & _ & Hcm & Hsame).
  exists w', tree'. repeat split; auto.
  intros later Hlater.
  rewrite (should_sync_value _ _ c) by congruence.
  cbn. rewrite (needs_sync_same_setup _ _ _ _ Hsame).
  apply needs_sync_true_inv in Hneed as (last & h & Hlast & Hg & Hd & Hdiff).
  unfold needs_sync, allowed, and_then.
  rewrite Hlast, (gate_mono _ _ _ _ Hg Hlater), Hd, Hdiff. reflexivity.
Qed.

Lemma transport_failure_leaves_state_witness :
  let w := Sample.world [(Sample.config_path, Sample.state_file 1699990000 "0123456789abcdef")]
             Sample.t0 in
  let tree := Sample.tree (Some (Sample.saved 1699990000 "0123456789abcdef"))
                Sample.five_minutes (Sample.registry [Sample.ban; Sample.kick] []) in
  exists w' tree',
    AutoSyncTree.sync (Sample.fail 503) None (w, tree)
    = (Raise (TransportError 503), (w', tree')) /\
    AutoSyncTree._config_manager tree' = AutoSyncTree._config_manager tree /\
    fs w' = fs w /\
    forall later, clock w <= later ->
      fst (AutoSyncTree.should_sync (with_clock later w', tree')) = Ok true.
Proof.
  cbv zeta.
  apply (transport_failure_leaves_state (Sample.fail 503) None _ _
           (Sample.saved 1699990000 "0123456789abcdef"));
    vm_compute; reflexivity.
Defined.

(** ** The store is loaded from its construction on *)

Lemma store_init_loaded (directory filename : string) (w : World) :
  exists s w',
    SaveConfig.__init__ directory filename w = (Ok s, w') /\
    is_Some (SaveConfig._config s).
Proof.
  unfold SaveConfig.__init__.
  destruct (get_config_ok true w
              {| SaveConfig.__directory := directory; SaveConfig.__filename := filename;
                 SaveConfig.__path := None; SaveConfig._config := None |})
    as (c & w' & s' & -> & Hc & _).
  exists s', w'. split; [reflexivity|]. rewrite Hc. eauto.
Qed.

Lemma timedelta_of_seconds_valid (n : Z) :
  valid_interval (Seconds n) -> Datetime.timedelta_of_seconds n = Ok (n * 1000000).
Proof.
  unfold valid_interval, Datetime.timedelta_of_seconds. intros [H1 H2].
  apply Z.leb_le in H1, H2. rewrite H1, H2. reflexivity.
Qed.

(** The constructor returns a tree over a loaded store, unless the number
    of seconds given for the interval is more than a [timedelta] holds. *)
Lemma tree_init_loaded (interval : IntervalArg) (cwd : string)
    (registry : option Z -> list Command) (has_translator : bool) (w : World) :
  valid_interval interval ->
  exists tree w',
    AutoSyncTree.__init__ None interval cwd registry has_translator w = (Ok tree, w') /\
    is_Some (SaveConfig._config (AutoSyncTree._config_manager tree)).
Proof.
  intros Hvalid. unfold AutoSyncTree.__init__.
  destruct (store_init_loaded cwd AutoSyncTree.DEFAULT_FILENAME w) as (s & w' & -> & Hs).
  destruct interval as [| |us|n]; cbn [and_then].
  - do 2 eexists. split; [reflexivity|]. exact Hs.
  - do 2 eexists. split; [reflexivity|]. exact Hs.
  - do 2 eexists. split; [reflexivity|]. exact Hs.
  - rewrite (timedelta_of_seconds_valid n Hvalid). cbn [and_then].
    do 2 eexists. split; [reflexivity|]. exact Hs.
Qed.

Example constructor_refuses_long_interval :
  exists msg,
    fst (AutoSyncTree.__init__ None (Seconds 1000000000000000) "/srv/bot"
           (Sample.registry [Sample.ban] []) false (Sample.world [] Sample.t0))
    = Raise (OverflowError msg).
Proof. vm_compute. eexists. reflexivity. Qed.

(** ** Two calls in a row *)

Lemma differs_same (h : string) : differs (Some h) h = false.
Proof. unfold differs. rewrite bool_decide_eq_true_2; reflexivity. Qed.

Lemma allowed_same_setup (t1 t2 : AutoSyncTree.t) (c : SavedConfig) (now : Z) :
  same_setup t1 t2 -> allowed t2 c now = allowed t1 c now.
Proof. intros (_ & H & _). unfold allowed. rewrite H. reflexivity. Qed.

(** C7 (as amended). If a first [sync] returns normally (with or without
    contacting the remote), the commands are unchanged, and at the second
    call the interval gate returns (the recorded sync and the end of the
    wait are instants a [datetime] holds) while the minimal interval has
    not elapsed since the recorded sync, then the second call returns the
    empty result set without contacting the remote: the remote is invoked
    at most once over the two calls. *)
Theorem repeated_sync_is_noop (remote1 remote2 : Transport) (guild1 guild2 : option Z)
    (w w1 : World) (tree tree1 : AutoSyncTree.t) (c : SavedConfig)
    (answer : list AppCommand) (later : Z) (open : bool) :
  SaveConfig._config (AutoSyncTree._config_manager tree) = Some c ->
  AutoSyncTree.sync remote1 guild1 (w, tree) = (Ok answer, (w1, tree1)) ->
  fst (AutoSyncTree.can_sync (with_clock later w1, tree1)) = Ok open ->
  (forall i last,
     AutoSyncTree.minimal_sync_interval tree1 = Some i ->
     fst (AutoSyncTree.last_synced_at (with_clock later w1, tree1)) = Ok (Some last) ->
     later - last < i) ->
  exists w2 tree2,
    AutoSyncTree.sync remote2 guild2 (with_clock later w1, tree1) = (Ok [], (w2, tree2)) /\
    remote_calls w2 = remote_calls w1 /\
    (length (remote_calls w2) <= length (remote_calls w) + 1)%nat.
Proof.
  intros Hc Hfirst Hgate Hquiet.
  assert (Hstate : exists c1,
             SaveConfig._config (AutoSyncTree._config_manager tree1) = Some c1 /\
             same_setup tree tree1 /\
             (length (remote_calls w1) <= length (remote_calls w) + 1)%nat /\
             (allowed tree c1 later = Ok open -> needs_sync tree c1 later = Ok false)).
  { destruct (needs_sync tree c (clock w)) as [[|]|e] eqn:Hneed.
    - destruct (reply (remote1 guild1)) as [a|e] eqn:Hreply.
      + destruct (sync_go remote1 guild1 w tree c a Hc Hneed Hreply)
          as (r & w' & tree' & Hrun & _ & Hnew & _ & _ & Hcalls & Hsame).
        rewrite Hfirst in Hrun. simplify_eq.
        eexists. split; [exact Hnew|]. split; [exact Hsame|].
        split; [rewrite Hcalls, length_app; cbn; lia|].
        intros Hopen. unfold needs_sync. rewrite Hopen. cbn [and_then].
        apply needs_sync_true_inv in Hneed as (last & h & _ & _ & Hd & _).
        rewrite Hd, (digest_fingerprint _ _ _ Hd). cbn [and_then updated_pair last_hex].
        rewrite differs_same. destruct open; reflexivity.
      + destruct (sync_fail remote1 guild1 w tree c e Hc Hneed Hreply)
          as (w' & tree' & Hrun & _).
        rewrite Hfirst in Hrun. discriminate.
    - destruct (sync_skip remote1 guild1 w tree c Hc Hneed)
        as (w' & tree' & Hrun & _ & _ & Hcalls & Hcm & Hsame).
      rewrite Hfirst in Hrun. simplify_eq.
      exists c. split; [congruence|]. split; [exact Hsame|].
      split; [rewrite Hcalls; lia|].
      intros Hopen. unfold needs_sync. rewrite Hopen. cbn [and_then].
      apply needs_sync_false_inv in Hneed as (last & Hlast & [Hclosed | (_ & h & Hd & Hdiff)]).
      + assert (open = false) as ->; [|reflexivity].
        unfold allowed in Hopen. rewrite Hlast in Hopen. cbn [and_then] in Hopen.
        unfold gate in Hopen, Hclosed.
        destruct (AutoSyncTree.minimal_sync_interval tree) as [i|] eqn:Hi; [|discriminate].
        destruct last as [l|]; [|discriminate].
        destruct (Datetime.add l i); [|discriminate].
        cbn [and_then] in Hopen. injection Hopen as <-.
        apply Z.leb_gt. apply Hquiet.
        * destruct Hsame as (_ & -> & _). exact Hi.
        * erewrite tree_last_synced_at_run;
            last by (apply get_config_cached; rewrite Hcm; exact Hc).
          cbn. exact Hlast.
      + rewrite Hd. cbn [and_then]. rewrite Hdiff. destruct open; reflexivity.
    - destruct (sync_undecided remote1 guild1 w tree c e Hc Hneed)
        as (w' & tree' & Hrun & _).
      rewrite Hfirst in Hrun. discriminate. }
  destruct Hstate as (c1 & Hc1 & Hsame & Hlen & Hno).
  rewrite (can_sync_value _ _ _ Hc1) in Hgate.
  change (clock (with_clock later w1)) with later in Hgate.
  rewrite (allowed_same_setup _ _ _ _ Hsame) in Hgate.
  destruct (sync_skip remote2 guild2 (with_clock later w1) tree1 c1 Hc1)
    as (w2 & tree2 & Hrun & _ & _ & Hcalls & _).
  { rewrite (needs_sync_same_setup _ _ _ _ Hsame). exact (Hno Hgate). }
  exists w2, tree2. split; [exact Hrun|]. cbn in Hcalls.
  split; [exact Hcalls|]. rewrite Hcalls. exact Hlen.
Qed.

Lemma repeated_sync_is_noop_witness :
  let w := Sample.world [] Sample.t0 in
  let tree := Sample.tree (Some absent_config) Sample.five_minutes
                (Sample.registry [Sample.ban; Sample.kick] []) in
  let first := AutoSyncTree.sync (Sample.succeed Sample.registered) None (w, tree) in
  let later := Sample.t0 + 1000000 in
  exists w2 tree2,
    AutoSyncTree.sync (Sample.succeed Sample.registered) None
      (with_clock later first.2.1, first.2.2) = (Ok [], (w2, tree2)) /\
    remote_calls w2 = remote_calls first.2.1 /\
    (length (remote_calls w2) <= length (remote_calls w) + 1)%nat.
Proof.
  cbv zeta.
  apply repeated_sync_is_noop
    with (remote1 := Sample.succeed Sample.registered) (guild1 := None)
         (w := Sample.world [] Sample.t0)
         (tree := Sample.tree (Some absent_config) Sample.five_minutes
                    (Sample.registry [Sample.ban; Sample.kick] []))
         (c := absent_config) (answer := Sample.registered) (open := false).
  - reflexivity.
  - vm_compute. reflexivity.
  - vm_compute. reflexivity.
  - intros i last Hi Hlast. vm_compute in Hi, Hlast.
    injection Hi as <-. injection Hlast as <-. reflexivity.
Defined.

(** C7, the claim as stated, fails when the first call fails in the
    transport: nothing is recorded, so the second call, with the same
    commands and no time elapsed, contacts the remote again and returns
    its non-empty result set. It fails as well under an interval too long
    for the end of the wait to be a [datetime] (3000000 days): the first
    call syncs and returns, and the second, a second later, raises in the
    interval gate. *)
Lemma failed_first_sync_is_retried :
  let w := Sample.world [] Sample.t0 in
  let tree := Sample.tree (Some absent_config) Sample.five_minutes
                (Sample.registry [Sample.ban; Sample.kick] []) in
  let first := AutoSyncTree.sync (Sample.fail 503) None (w, tree) in
  let second := AutoSyncTree.sync (Sample.succeed Sample.registered) None first.2 in
  let patient := Sample.tree (Some absent_config) (Some (3000000 * 86400 * 1000000))
                   (Sample.registry [Sample.ban; Sample.kick] []) in
  let once := AutoSyncTree.sync (Sample.succeed Sample.registered) None (w, patient) in
  let twice := AutoSyncTree.sync (Sample.succeed Sample.registered) None
                 (with_clock (Sample.t0 + 1000000) once.2.1, once.2.2) in
  (first.1 = Raise (TransportError 503) /\
   second.1 = Ok Sample.registered /\
   Sample.registered <> [] /\
   remote_calls second.2.1 = [None; None]) /\
  (once.1 = Ok Sample.registered /\
   exists msg, twice.1 = Raise (OverflowError msg)).
Proof.
  vm_compute.
  split; [repeat split; congruence|].
  split; [reflexivity|]. eexists; reflexivity.
Qed.

(** ** One pair for all scopes *)

(** C8 (as amended). A store holds one fingerprint/timestamp pair, not one
    per scope. A sync that contacted the remote, in whatever scope, and
    returned has replaced the pair, whatever it was, by the fingerprint
    cached during the call and the second of the update; [last_hex] and
    [last_synced_at], which take no scope, answer from that pair
    afterwards. *)
Theorem single_pair_shared_by_all_scopes (remote : Transport) (guild : option Z)
    (w w' : World) (tree tree' : AutoSyncTree.t) (c : SavedConfig)
    (answer : list AppCommand) :
  SaveConfig._config (AutoSyncTree._config_manager tree) = Some c ->
  AutoSyncTree.sync remote guild (w, tree) = (Ok answer, (w', tree')) ->
  remote_calls w' = remote_calls w ++ [guild] ->
  exists h,
    let pair := {| last_timestamp := Some (Datetime.int_timestamp (clock w'));
                   last_hex := Some h |} in
    SaveConfig._config (AutoSyncTree._config_manager tree') = Some pair /\
    AutoSyncTree._current_hex tree' = Some h /\
    forall later,
      fst (AutoSyncTree.last_hex (with_clock later w', tree')) = Ok (Some h) /\
      fst (AutoSyncTree.last_synced_at (with_clock later w', tree')) = instant_of pair.
Proof.
  intros Hc Hrun Hcalled.
  destruct (needs_sync tree c (clock w)) as [[|]|e] eqn:Hneed.
  - destruct (reply (remote guild)) as [a|e] eqn:Hreply.
    + destruct (sync_go remote guild w tree c a Hc Hneed Hreply)
        as (r & w0 & tree0 & Hgo & _ & Hnew & Hcur & Hclk & _ & Hsame).
      rewrite Hrun in Hgo. simplify_eq.
      exists (fingerprint tree None). cbv zeta. rewrite Hclk.
      split; [exact Hnew|]. split; [exact Hcur|].
      intros later.
      pose proof (get_config_cached (with_clock later w0) _ _ Hnew) as Hread.
      rewrite (tree_last_hex_run _ _ _ _ _ Hread), (tree_last_synced_at_run _ _ _ _ _ Hread).
      split; reflexivity.
    + destruct (sync_fail remote guild w tree c e Hc Hneed Hreply) as (w0 & tree0 & Hf & _).
      rewrite Hrun in Hf. discriminate.
  - destruct (sync_skip remote guild w tree c Hc Hneed)
      as (w0 & tree0 & Hskip & _ & _ & Hcalls & _).
    rewrite Hrun in Hskip. simplify_eq.
    apply (f_equal length) in Hcalled. rewrite Hcalls, length_app in Hcalled.
    cbn in Hcalled. lia.
  - destruct (sync_undecided remote guild w tree c e Hc Hneed) as (w0 & tree0 & Hf & _).
    rewrite Hrun in Hf. discriminate.
Qed.

Lemma single_pair_shared_by_all_scopes_witness :
  let w := Sample.world [] Sample.t0 in
  let tree := Sample.tree (Some (Sample.saved 1699990000 "0123456789abcdef")) None
                (Sample.registry [Sample.ban] [(42, [Sample.kick])]) in
  let first := AutoSyncTree.sync (Sample.succeed Sample.registered) (Some 42) (w, tree) in
  exists h,
    let pair := {| last_timestamp := Some (Datetime.int_timestamp (clock first.2.1));
                   last_hex := Some h |} in
    SaveConfig._config (AutoSyncTree._config_manager first.2.2) = Some pair /\
    AutoSyncTree._current_hex first.2.2 = Some h /\
    forall later,
      fst (AutoSyncTree.last_hex (with_clock later first.2.1, first.2.2)) = Ok (Some h) /\
      fst (AutoSyncTree.last_synced_at (with_clock later first.2.1, first.2.2))
      = instant_of pair.
Proof.
  cbv zeta.
  apply single_pair_shared_by_all_scopes
    with (remote := Sample.succeed Sample.registered) (guild := Some 42)
         (w := Sample.world [] Sample.t0)
         (tree := Sample.tree (Some (Sample.saved 1699990000 "0123456789abcdef")) None
                    (Sample.registry [Sample.ban] [(42, [Sample.kick])]))
         (c := Sample.saved 1699990000 "0123456789abcdef") (answer := Sample.registered).
  - reflexivity.
  - vm_compute. reflexivity.
  - vm_compute. reflexivity.
Defined.

(** C8, the claim as stated, fails: a sync for guild 42 fills the one pair,
    which is the pair read for the global scope (absent before, present
    after); the fingerprint stored and compared is not the one of guild
    42's commands; and the global sync that follows is skipped although
    the global commands were never sent. *)
Lemma guild_sync_overwrites_the_pair_read_for_global :
  let w := Sample.world [] Sample.t0 in
  let tree := Sample.tree (Some absent_config) None
                (Sample.registry [Sample.ban] [(42, [Sample.kick])]) in
  let first := AutoSyncTree.sync (Sample.succeed Sample.registered) (Some 42) (w, tree) in
  let second := AutoSyncTree.sync (Sample.succeed Sample.registered) None first.2 in
  Some 42 <> (None : option Z) /\
  first.1 = Ok Sample.registered /\
  fst (AutoSyncTree.last_hex (w, tree)) = Ok None /\
  fst (AutoSyncTree.last_hex first.2) = Ok (Some (fingerprint tree None)) /\
  fingerprint tree None <> fingerprint tree (Some 42) /\
  second.1 = Ok [] /\
  remote_calls second.2.1 = [Some 42].
Proof. vm_compute. repeat split; congruence. Qed.

(** ** Moving the state file *)

(** A forced reload reads the file the store currently resolves to. *)
Lemma get_config_reload (w : World) (s : SaveConfig.t) (text : FileText)
    (writable : bool) (c' : SavedConfig) :
  (target s).1 ∈ dirs (fs w) ->
  nodes (fs w) !! target s = Some (File text true writable) ->
  json_decode text = Some c' ->
  fst (SaveConfig.get_config true (w, s)) = Ok c'.
Proof.
  destruct s as [d f p c]; destruct w as [[nd ds sl] clk lg calls].
  unfold target. cbn. intros Hdir Hfile Hdec.
  unfold_store. unfold_monad. cbn.
  repeat (destruct_inner; cbn in *; simplify_map_eq; eauto 10); try contradiction.
  all: exfalso; eauto.
Qed.

Lemma set_directory_run (new_path : string) (w : World) (s : SaveConfig.t) :
  SaveConfig.set_directory new_path (w, s)
  = (Ok tt,
     (with_log (log w ++ [(DEBUG, ChangingDirectory (SaveConfig.__directory s) new_path)]) w,
      SaveConfig.with_path None (SaveConfig.with_directory new_path s))).
Proof. reflexivity. Qed.

Lemma set_filename_run (new_filename : string) (w : World) (s : SaveConfig.t) :
  SaveConfig.set_filename new_filename (w, s)
  = (Ok tt,
     (with_log (log w ++ [(DEBUG, ChangingFilename (SaveConfig.__filename s)
                                    (removesuffix new_filename ".json"))]) w,
      SaveConfig.with_path None
        (SaveConfig.with_filename (removesuffix new_filename ".json") s))).
Proof. reflexivity. Qed.

(** C6 (as amended). Setting [directory] or [filename] clears the cached
    path and nothing else: the store then resolves to the new location,
    where a forced reload reads, but the cached state is kept, so
    [last_hex] and [last_synced_at] answer what they answered before the
    change. *)
Theorem relocation_keeps_cached_state (w : World) (s : SaveConfig.t) (c : SavedConfig)
    (new_directory new_filename : string) :
  SaveConfig._config s = Some c ->
  let moved := snd (SaveConfig.set_directory new_directory (w, s)) in
  let renamed := snd (SaveConfig.set_filename new_filename (w, s)) in
  (SaveConfig.__path moved.2 = None /\
   target moved.2 = (new_directory, (SaveConfig.__filename s ++ ".json")%string) /\
   fs moved.1 = fs w /\
   SaveConfig._config moved.2 = Some c /\
   fst (SaveConfig.last_hex moved) = Ok (last_hex c) /\
   fst (SaveConfig.last_hex moved) = fst (SaveConfig.last_hex (w, s)) /\
   fst (SaveConfig.last_synced_at moved) = fst (SaveConfig.last_synced_at (w, s)) /\
   forall text writable c',
     new_directory ∈ dirs (fs w) ->
     nodes (fs w) !! target moved.2 = Some (File text true writable) ->
     json_decode text = Some c' ->
     fst (SaveConfig.get_config true moved) = Ok c') /\
  (SaveConfig.__path renamed.2 = None /\
   target renamed.2
   = (SaveConfig.__directory s, (removesuffix new_filename ".json" ++ ".json")%string) /\
   fs renamed.1 = fs w /\
   SaveConfig._config renamed.2 = Some c /\
   fst (SaveConfig.last_hex renamed) = Ok (last_hex c) /\
   fst (SaveConfig.last_hex renamed) = fst (SaveConfig.last_hex (w, s)) /\
   fst (SaveConfig.last_synced_at renamed) = fst (SaveConfig.last_synced_at (w, s)) /\
   forall text writable c',
     SaveConfig.__directory s ∈ dirs (fs w) ->
     nodes (fs w) !! target renamed.2 = Some (File text true writable) ->
     json_decode text = Some c' ->
     fst (SaveConfig.get_config true renamed) = Ok c').
Proof.
  intros Hc moved renamed.
  assert (Hread : forall (w1 : World) (s1 : SaveConfig.t),
             SaveConfig._config s1 = Some c ->
             fst (SaveConfig.last_hex (w1, s1)) = Ok (last_hex c) /\
             fst (SaveConfig.last_synced_at (w1, s1)) = instant_of c).
  { intros w1 s1 H1. pose proof (get_config_cached w1 s1 c H1) as Hrun.
    rewrite (last_hex_run _ _ _ _ _ Hrun), (last_synced_at_run _ _ _ _ _ Hrun).
    split; reflexivity. }
  destruct (Hread w s Hc) as [Hhex0 Hat0]. rewrite Hhex0, Hat0.
  subst moved renamed.
  rewrite (set_directory_run new_directory w s), (set_filename_run new_filename w s).
  cbn [fst snd].
  split.
  - split; [reflexivity|]. split; [destruct s; reflexivity|].
    split; [reflexivity|]. split; [destruct s; exact Hc|].
    split; [apply Hread; destruct s; exact Hc|].
    split; [apply Hread; destruct s; exact Hc|].
    split; [apply Hread; destruct s; exact Hc|].
    intros text writable c' Hdir Hfile Hdec.
    eapply get_config_reload; eauto; destruct s; exact Hdir.
  - split; [reflexivity|]. split; [destruct s; reflexivity|].
    split; [reflexivity|]. split; [destruct s; exact Hc|].
    split; [apply Hread; destruct s; exact Hc|].
    split; [apply Hread; destruct s; exact Hc|].
    split; [apply Hread; destruct s; exact Hc|].
    intros text writable c' Hdir Hfile Hdec.
    eapply get_config_reload; eauto; destruct s; exact Hdir.
Qed.

Lemma relocation_keeps_cached_state_witness :
  let w := Sample.world [(Sample.config_path, Sample.state_file 1699990000 "0123456789abcdef")]
             Sample.t0 in
  let s := Sample.store (Some (Sample.saved 1699990000 "0123456789abcdef")) in
  fst (SaveConfig.last_hex (snd (SaveConfig.set_directory "/var/lib/bot" (w, s))))
  = Ok (last_hex (Sample.saved 1699990000 "0123456789abcdef")) /\
  fst (SaveConfig.last_synced_at (snd (SaveConfig.set_directory "/var/lib/bot" (w, s))))
  = fst (SaveConfig.last_synced_at (w, s)).
Proof.
  intros w s.
  pose proof (relocation_keeps_cached_state w s
                (Sample.saved 1699990000 "0123456789abcdef")
                "/var/lib/bot" "state.json") as H.
  assert (Hc : SaveConfig._config s = Some (Sample.saved 1699990000 "0123456789abcdef"))
    by reflexivity.
  destruct (H Hc) as [(_ & _ & _ & _ & Hhex & _ & Hat & _) _].
  split; [exact Hhex | exact Hat].
Defined.

(** C6, the claim as stated, fails: after the directory (or the file name)
    is changed, [last_hex] and [last_synced_at] still return the pair
    loaded from the old location, not [None]. *)
Lemma relocated_store_still_reports_old_pair :
  let w := Sample.world [(Sample.config_path, Sample.state_file 1699990000 "0123456789abcdef")]
             Sample.t0 in
  let s := match SaveConfig.__init__ "/srv/bot" AutoSyncTree.DEFAULT_FILENAME w with
           | (Ok s, w') => (w', s)
           | (Raise _, w') => (w', Sample.store None)
           end in
  let moved := snd (SaveConfig.set_directory "/var/lib/bot" s) in
  let renamed := snd (SaveConfig.set_filename "other.json" s) in
  fst (SaveConfig.last_hex moved) = Ok (Some "0123456789abcdef") /\
  fst (SaveConfig.last_synced_at moved) = Ok (Some (1699990000 * 1000000)) /\
  fst (SaveConfig.last_hex renamed) = Ok (Some "0123456789abcdef") /\
  fst (SaveConfig.last_synced_at renamed) = Ok (Some (1699990000 * 1000000)) /\
  target moved.2 = ("/var/lib/bot", "discord_py_autosync_config.json") /\
  target renamed.2 = ("/srv/bot", "other.json").
Proof. vm_compute. repeat split; congruence. Qed.
(** ** The fingerprint does not depend on the order of the commands *)

Lemma ascii_compare_trans_le (x y z : ascii) :
  Ascii.compare x y <> Gt -> Ascii.compare y z <> Gt -> Ascii.compare x z <> Gt.
Proof.
  unfold Ascii.compare. rewrite !N.compare_le_iff. lia.
Qed.

Lemma string_leb_trans (a b c : string) :
  String.leb a b = true -> String.leb b c = true -> String.leb a c = true.
Proof.
  unfold String.leb. revert b c.
  induction a as [|x a IH]; intros [|y b] [|z c]; cbn; try done.
  unfold Ascii.compare.
  destruct (N.compare_spec (N_of_ascii x) (N_of_ascii y)) as [Hxy|Hxy|Hxy];
    destruct (N.compare_spec (N_of_ascii y) (N_of_ascii z)) as [Hyz|Hyz|Hyz];
    try done.
  - rewrite Hxy, Hyz, N.compare_refl. apply IH.
  - rewrite Hxy. apply N.compare_lt_iff in Hyz. rewrite Hyz. done.
  - rewrite <- Hyz. apply N.compare_lt_iff in Hxy. rewrite Hxy. done.
  - assert (H : (N_of_ascii x < N_of_ascii z)%N) by lia.
    apply N.compare_lt_iff in H. rewrite H. done.
Qed.

Lemma name_le_trans (a b c : Command) : name_le a b -> name_le b c -> name_le a c.
Proof. apply string_leb_trans. Qed.

Lemma name_le_total (a b : Command) : name_le a b \/ name_le b a.
Proof. apply String.leb_total. Qed.

Lemma insert_by_name_perm (c : Command) (l : list Command) :
  Permutation (insert_by_name c l) (c :: l).
Proof.
  induction l as [|d l IH]; cbn; [reflexivity|].
  destruct (String.leb _ _); [reflexivity|].
  rewrite IH. apply perm_swap.
Qed.

Lemma sorted_perm (l : list Command) : Permutation (sorted l) l.
Proof.
  induction l as [|c l IH]; cbn; [reflexivity|].
  rewrite insert_by_name_perm. apply perm_skip, IH.
Qed.

Lemma insert_by_name_sorted (c : Command) (l : list Command) :
  StronglySorted name_le l -> StronglySorted name_le (insert_by_name c l).
Proof.
  induction 1 as [|d l Hl IH Hd]; cbn.
  - repeat constructor.
  - destruct (String.leb (qualified_name c) (qualified_name d)) eqn:Hcd.
    + constructor; [constructor; assumption|].
      constructor; [exact Hcd|].
      eapply Forall_impl; [exact Hd|]. intros e He. eapply name_le_trans; eassumption.
    + constructor; [exact IH|].
      assert (Hdc : name_le d c).
      { destruct (name_le_total c d) as [H|H]; [unfold name_le in H; congruence | exact H]. }
      eapply Permutation_Forall; [symmetry; apply insert_by_name_perm|].
      constructor; assumption.
Qed.

Lemma sorted_sorted (l : list Command) : StronglySorted name_le (sorted l).
Proof.
  induction l as [|c l IH]; cbn; [constructor|].
  apply insert_by_name_sorted, IH.
Qed.

Lemma same_name_same_command (l : list Command) (a b : Command) :
  NoDup (map qualified_name l) -> In a l -> In b l ->
  qualified_name a = qualified_name b -> a = b.
Proof.
  induction l as [|c l IH]; cbn; [done|].
  intros Hnd [-> | Ha] [-> | Hb] Hname; auto.
  - apply NoDup_cons in Hnd as [Hnot _]. exfalso. apply Hnot.
    rewrite Hname. apply list_elem_of_In, in_map. exact Hb.
  - apply NoDup_cons in Hnd as [Hnot _]. exfalso. apply Hnot.
    rewrite <- Hname. apply list_elem_of_In, in_map. exact Ha.
  - apply NoDup_cons in Hnd as [_ Hnd]. auto.
Qed.

(** Two sorted arrangements of the same commands coincide when no two
    commands share a name. *)
Lemma sorted_unique (l1 l2 : list Command) :
  StronglySorted name_le l1 -> StronglySorted name_le l2 ->
  Permutation l1 l2 -> NoDup (map qualified_name l1) -> l1 = l2.
Proof.
  intros H1. revert l2. induction H1 as [|a l1 Hs1 IH Ha]; intros l2 H2 Hperm Hnd.
  - apply Permutation_nil in Hperm. congruence.
  - destruct H2 as [|b l2 Hs2 Hb].
    + apply Permutation_sym, Permutation_nil in Hperm. discriminate.
    + assert (Hab : a = b).
      { assert (Hin_b : In b (a :: l1))
          by (eapply Permutation_in; [symmetry; exact Hperm | left; reflexivity]).
        assert (Hin_a : In a (b :: l2))
          by (eapply Permutation_in; [exact Hperm | left; reflexivity]).
        apply (same_name_same_command (a :: l1)); auto; [left; reflexivity|].
        apply String.leb_antisym.
        - destruct Hin_b as [<- | Hin]; [destruct (name_le_total a a); assumption|].
          rewrite Forall_forall in Ha. apply Ha, list_elem_of_In, Hin.
        - destruct Hin_a as [<- | Hin]; [destruct (name_le_total b b); assumption|].
          rewrite Forall_forall in Hb. apply Hb, list_elem_of_In, Hin. }
      subst b. f_equal. apply IH; [exact Hs2 | | ].
      * eapply Permutation_cons_inv. exact Hperm.
      * cbn in Hnd. apply NoDup_cons in Hnd as [_ Hnd]. exact Hnd.
Qed.

Lemma sorted_permutation_invariant (l1 l2 : list Command) :
  Permutation l1 l2 -> NoDup (map qualified_name l1) -> sorted l1 = sorted l2.
Proof.
  intros Hperm Hnd. apply sorted_unique.
  - apply sorted_sorted.
  - apply sorted_sorted.
  - rewrite !sorted_perm. exact Hperm.
  - rewrite sorted_perm. exact Hnd.
Qed.

Lemma hex_digit_lower (n : Z) : is_lower_hex (Xxh64.hex_digit n) = true.
Proof.
  unfold Xxh64.hex_digit. repeat (destruct_inner; try reflexivity).
Qed.

Lemma hex_nibbles_lower (k : nat) (x : Z) (acc : string) :
  forallb is_lower_hex (list_ascii_of_string acc) = true ->
  forallb is_lower_hex (list_ascii_of_string (Xxh64.hex_nibbles k x acc)) = true.
Proof.
  revert x acc. induction k as [|k IH]; intros x acc Hacc; cbn [Xxh64.hex_nibbles]; [exact Hacc|].
  apply IH. cbn [list_ascii_of_string forallb]. rewrite hex_digit_lower, Hacc. reflexivity.
Qed.

Lemma xxh64_hexdigest_lower (data : list byte) (seed : Z) :
  forallb is_lower_hex (list_ascii_of_string (Xxh64.xxh64_hexdigest data seed)) = true.
Proof. apply hex_nibbles_lower. reflexivity. Qed.

(** The sort is stable: the commands of one name come out in the order
    they went in. *)
Lemma filter_insert_by_name (name : string) (c : Command) (l : list Command) :
  List.filter (fun d => String.eqb (qualified_name d) name) (insert_by_name c l)
  = (if String.eqb (qualified_name c) name then [c] else [])
    ++ List.filter (fun d => String.eqb (qualified_name d) name) l.
Proof.
  induction l as [|d l IH]; cbn [insert_by_name].
  - cbn. destruct (String.eqb _ _); reflexivity.
  - destruct (String.leb (qualified_name c) (qualified_name d)) eqn:Hcd.
    + cbn [List.filter]. destruct (String.eqb (qualified_name c) name); reflexivity.
    + cbn [List.filter]. rewrite IH.
      destruct (String.eqb (qualified_name c) name) eqn:Hc;
        destruct (String.eqb (qualified_name d) name) eqn:Hd; try reflexivity.
      apply String.eqb_eq in Hc, Hd. rewrite Hc, Hd in Hcd.
      destruct (String.leb_total name name); congruence.
Qed.

Lemma sorted_stable (name : string) (l : list Command) :
  List.filter (fun d => String.eqb (qualified_name d) name) (sorted l)
  = List.filter (fun d => String.eqb (qualified_name d) name) l.
Proof.
  induction l as [|c l IH]; [reflexivity|].
  cbn [sorted fold_right]. fold (sorted l).
  rewrite filter_insert_by_name, IH. cbn [List.filter].
  destruct (String.eqb (qualified_name c) name); reflexivity.
Qed.

(** A digit of a hexadecimal numeral is a character of its own. *)
Lemma lower_hex_is_no_continuation (a : ascii) :
  is_lower_hex a = true -> is_continuation a = false.
Proof.
  destruct a as [[] [] [] [] [] [] [] []]; vm_compute; congruence.
Qed.

Lemma len_lower_hex (s : string) :
  forallb is_lower_hex (list_ascii_of_string s) = true -> len s = String.length s.
Proof.
  unfold len. induction s as [|a s IH]; [reflexivity|].
  cbn [list_ascii_of_string forallb List.filter String.length].
  intros [Ha Hs]%andb_true_iff.
  rewrite (lower_hex_is_no_continuation a Ha). cbn [negb length]. f_equal. exact (IH Hs).
Qed.

Lemma digest_permutation_invariant (tree1 tree2 : AutoSyncTree.t) (guild : option Z) :
  AutoSyncTree.translator tree1 = AutoSyncTree.translator tree2 ->
  Permutation (AutoSyncTree._get_all_commands tree1 guild)
              (AutoSyncTree._get_all_commands tree2 guild) ->
  NoDup (map qualified_name (AutoSyncTree._get_all_commands tree1 guild)) ->
  digest tree1 guild = digest tree2 guild.
Proof.
  intros Htr Hperm Hnd. unfold digest.
  rewrite Htr, (sorted_permutation_invariant _ _ Hperm Hnd). reflexivity.
Qed.

(** C1 (as amended). For two trees that hold, for a scope, the same
    commands in any two orders, no two of them sharing a qualified name,
    [generate_hex] has one and the same outcome: the same string, of 16
    lowercase hexadecimal digits, or, when a payload does not serialise,
    the same exception. The commands are sorted by qualified name before
    they are serialised and hashed; the sort is stable, so that in any
    list the commands of one name keep the order they had. *)
Theorem generate_hex_permutation_invariant (w1 w2 : World)
    (tree1 tree2 : AutoSyncTree.t) (guild : option Z) :
  AutoSyncTree.translator tree1 = AutoSyncTree.translator tree2 ->
  Permutation (AutoSyncTree._get_all_commands tree1 guild)
              (AutoSyncTree._get_all_commands tree2 guild) ->
  NoDup (map qualified_name (AutoSyncTree._get_all_commands tree1 guild)) ->
  fst (AutoSyncTree.generate_hex guild (w1, tree1))
  = fst (AutoSyncTree.generate_hex guild (w2, tree2)) /\
  (forall h,
     fst (AutoSyncTree.generate_hex guild (w1, tree1)) = Ok h ->
     len h = 16%nat /\
     forallb is_lower_hex (list_ascii_of_string h) = true) /\
  (forall (commands : list Command) (name : string),
     List.filter (fun c => String.eqb (qualified_name c) name) (sorted commands)
     = List.filter (fun c => String.eqb (qualified_name c) name) commands).
Proof.
  intros Htr Hperm Hnd.
  rewrite !generate_hex_run, <- (digest_permutation_invariant _ _ _ Htr Hperm Hnd).
  split; [destruct (digest tree1 guild); reflexivity|].
  split; [|intros commands name; apply sorted_stable].
  intros h Hh.
  assert (Hd : digest tree1 guild = Ok h)
    by (destruct (digest tree1 guild); cbn in Hh; congruence).
  destruct (digest_inv _ _ _ Hd) as (data & ->).
  pose proof (xxh64_hexdigest_lower data 0) as Hlow.
  split; [|exact Hlow].
  rewrite (len_lower_hex _ Hlow). apply xxh64_hexdigest_length.
Qed.

Lemma generate_hex_permutation_invariant_witness :
  let w := Sample.world [] Sample.t0 in
  let tree1 := Sample.tree (Some absent_config) None
                 (Sample.registry [Sample.ban; Sample.kick] []) in
  let tree2 := Sample.tree (Some absent_config) None
                 (Sample.registry [Sample.kick; Sample.ban] []) in
  fst (AutoSyncTree.generate_hex None (w, tree1))
  = fst (AutoSyncTree.generate_hex None (w, tree2)) /\
  (forall h,
     fst (AutoSyncTree.generate_hex None (w, tree1)) = Ok h ->
     len h = 16%nat /\
     forallb is_lower_hex (list_ascii_of_string h) = true) /\
  (forall (commands : list Command) (name : string),
     List.filter (fun c => String.eqb (qualified_name c) name) (sorted commands)
     = List.filter (fun c => String.eqb (qualified_name c) name) commands).
Proof.
  cbv zeta.
  apply generate_hex_permutation_invariant.
  - reflexivity.
  - apply perm_swap.
  - cbn. apply NoDup_cons. split; [|apply NoDup_singleton].
    rewrite list_elem_of_singleton. discriminate.
Defined.

(** C1, the claim as stated, fails for commands that share a qualified
    name (a user and a message context menu both called "ban"): the stable
    sort keeps them in the order it finds them, and the two orders hash to
    different digests. Nor is there a digest for every collection: an
    integer outside the 64 bits of MessagePack in a payload makes
    [generate_hex] raise. *)
Lemma equal_names_break_permutation_invariance :
  let w := Sample.world [] Sample.t0 in
  let user_ban := Sample.context_menu "ban" 2 in
  let message_ban := Sample.context_menu "ban" 3 in
  let tree1 := Sample.tree (Some absent_config) None
                 (Sample.registry [user_ban; message_ban] []) in
  let tree2 := Sample.tree (Some absent_config) None
                 (Sample.registry [message_ban; user_ban] []) in
  let tree3 := Sample.tree (Some absent_config) None
                 (Sample.registry [Sample.lottery] []) in
  (Permutation (AutoSyncTree._get_all_commands tree1 None)
               (AutoSyncTree._get_all_commands tree2 None) /\
   fst (AutoSyncTree.generate_hex None (w, tree1))
   <> fst (AutoSyncTree.generate_hex None (w, tree2))) /\
  (exists msg, fst (AutoSyncTree.generate_hex None (w, tree3)) = Raise (OverflowError msg)).
Proof.
  cbv zeta. split; [split; [apply perm_swap|]|].
  - vm_compute. congruence.
  - vm_compute. eexists. reflexivity.
Qed.

(** The scenario of the design: "ban" and "kick", in either order. *)
Example ban_kick_digest :
  fst (AutoSyncTree.generate_hex None
         (Sample.world [] Sample.t0,
          Sample.tree None None (Sample.registry [Sample.kick; Sample.ban] [])))
  = Ok "664268aba77ebf77" /\
  fingerprint (Sample.tree None None (Sample.registry [Sample.kick; Sample.ban] [])) None
  = fingerprint (Sample.tree None None (Sample.registry [Sample.ban; Sample.kick] [])) None.
Proof. vm_compute. split; reflexivity. Qed.

(** Two commands of one name, given in either order, are serialised in
    the order given. *)
Example equal_names_keep_their_order :
  let user_ban := Sample.context_menu "ban" 2 in
  let message_ban := Sample.context_menu "ban" 3 in
  sorted [Sample.kick; user_ban; Sample.ban; message_ban]
  = [user_ban; Sample.ban; message_ban; Sample.kick] /\
  sorted [message_ban; Sample.kick; Sample.ban; user_ban]
  = [message_ban; Sample.ban; user_ban; Sample.kick].
Proof. vm_compute. split; reflexivity. Qed.
(** ** The validation reporter *)

Lemma check_command_run (c : Debugger.CommandT) (s : Debugger.St) :
  exists r, Debugger.check_command c s = (r, s) /\
            (incompatible s.2 c = true -> exists e, r = Raise e) /\
            (incompatible s.2 c = false -> exists d, r = Ok d).
Proof.
  unfold Debugger.check_command, incompatible. unfold_monad. cbn.
  repeat (destruct_inner; cbn; try (eexists; split; [reflexivity|]; split;
    [intros H; try discriminate; eauto | intros H; try discriminate; eauto])).
Qed.

(** The loop stops at the first incompatible command, with its error. *)
Lemma check_each_stops (pre post : list Debugger.CommandT) (c : Debugger.CommandT)
    (done : list Debugger._DebugableCommand) (s : Debugger.St) :
  Forall (fun p => incompatible s.2 p = false) pre ->
  incompatible s.2 c = true ->
  exists e, Debugger.check_command c s = (Raise e, s) /\
            Debugger.check_each (pre ++ c :: post) done s = (Raise e, s).
Proof.
  intros Hpre Hc. revert done.
  induction Hpre as [|p pre Hp _ IH]; intros done; cbn [app Debugger.check_each].
  - destruct (check_command_run c s) as (r & Hrun & Hbad & _).
    destruct (Hbad Hc) as (e & ->). exists e. split; [exact Hrun|].
    unfold bind. rewrite Hrun. reflexivity.
  - destruct (check_command_run p s) as (r & Hrun & _ & Hgood).
    destruct (Hgood Hp) as (d & ->).
    destruct (IH (done ++ [d])) as (e & He & Hrest).
    exists e. split; [exact He|]. unfold bind at 1. rewrite Hrun. exact Hrest.
Qed.

Lemma check_each_state (commands : list Debugger.CommandT)
    (done : list Debugger._DebugableCommand) (s : Debugger.St) :
  snd (Debugger.check_each commands done s) = s.
Proof.
  revert done. induction commands as [|c l IH]; intros done; cbn; [reflexivity|].
  destruct (check_command_run c s) as (r & Hrun & _).
  unfold bind. rewrite Hrun. destruct r; [apply IH | reflexivity].
Qed.

Lemma store_application_outputs (s : Debugger.St) :
  (snd (Debugger.store_application s)).1 = s.1.
Proof.
  unfold Debugger.store_application. unfold_monad. cbn.
  repeat (destruct_inner; cbn); reflexivity.
Qed.

Lemma check_guild_state (app : Debugger.AppInfo) (g : Debugger.GuildArg) (s : Debugger.St) :
  snd (Debugger.check_guild app g s) = s.
Proof.
  unfold Debugger.check_guild. unfold_monad. cbn.
  repeat (destruct_inner; cbn); try destruct (find _ _); reflexivity.
Qed.

(** [check] unfolded once the application is stored and the guild branch
    has passed. *)
Lemma check_after_prelude (guild : option Debugger.GuildArg) (s s1 : Debugger.St)
    (app : Debugger.AppInfo) :
  Debugger.store_application s = (Ok app, s1) ->
  match guild with
  | Some g => fst (Debugger.check_guild app g s1) = Ok tt
  | None => True
  end ->
  forall c rest,
    Debugger.get_commands s1.2 (option_map Debugger.arg_id guild) = c :: rest ->
    forall e,
      Debugger.check_each (c :: rest) [] s1 = (Raise e, s1) ->
      Debugger.check guild s = (Raise e, s1).
Proof.
  intros Happ Hguild c rest Hcmds e Hloop.
  unfold Debugger.check. unfold bind at 1. rewrite Happ.
  unfold bind at 1.
  assert (Hpre : (match guild with
                  | Some g => Debugger.check_guild app g
                  | None => ret ()
                  end) s1 = (Ok tt, s1)).
  { destruct guild as [g|]; [|reflexivity].
    pose proof (check_guild_state app g s1) as Hs.
    destruct (Debugger.check_guild app g s1) as [r s']. cbn in *. congruence. }
  rewrite Hpre.
  unfold bind at 1, gets. rewrite Hcmds.
  unfold bind at 1. rewrite Hloop. reflexivity.
Qed.

(** When [check] raises, the report file and the console are untouched. *)
Lemma check_raise_no_report_run (guild : option Debugger.GuildArg) (s s' : Debugger.St)
    (e : Exn) :
  Debugger.check guild s = (Raise e, s') -> report s'.1 = report s.1.
Proof.
  unfold Debugger.check. unfold bind at 1.
  pose proof (store_application_outputs s) as Hout.
  destruct (Debugger.store_application s) as [[app|e0] s1]; cbn in Hout;
    [|intros [= _ <-]; rewrite Hout; reflexivity].
  unfold bind at 1.
  assert (Hpre : exists r, (match guild with
                  | Some g => Debugger.check_guild app g
                  | None => ret ()
                  end) s1 = (r, s1)).
  { destruct guild as [g|]; [|eexists; reflexivity].
    pose proof (check_guild_state app g s1) as Hs.
    destruct (Debugger.check_guild app g s1) as [r s2]. cbn in Hs. subst s2. eauto. }
  destruct Hpre as (r & ->).
  destruct r as [[]|e1]; [|intros [= _ <-]; rewrite Hout; reflexivity].
  unfold bind at 1, gets.
  destruct (Debugger.get_commands s1.2 (option_map Debugger.arg_id guild)) as [|c rest];
    [intros [= _ <-]; rewrite Hout; reflexivity|].
  unfold bind at 1.
  pose proof (check_each_state (c :: rest) [] s1) as Hs.
  destruct (Debugger.check_each (c :: rest) [] s1) as [[l|e2] s2]; cbn in Hs; subst s2;
    [|intros [= _ <-]; rewrite Hout; reflexivity].
  unfold bind at 1, gets. unfold bind at 1, Debugger.dump.
  destruct (Debugger.cwd_writable s1.1);
    [discriminate | intros [= _ <-]; rewrite Hout; reflexivity].
Qed.

Lemma check_raise_no_report (guild : option Debugger.GuildArg) (s : Debugger.St)
    (e : Exn) :
  fst (Debugger.check guild s) = Raise e ->
  report (snd (Debugger.check guild s)).1 = report s.1.
Proof.
  destruct (Debugger.check guild s) as [r s'] eqn:Hrun. cbn. intros ->.
  eapply check_raise_no_report_run. exact Hrun.
Qed.

(** C9. [check] raises the error of the first command, in the order the
    tree lists them, whose declared capabilities the bot-level policy
    denies; and whenever [check] raises, neither [debug_info.json] nor the
    console text has been produced. The policy is the one in force once the
    application has been stored, and the guild, if one is given, must have
    passed its own checks for the commands to be looked at. *)
Theorem check_raises_before_reporting (guild : option Debugger.GuildArg)
    (s : Debugger.St) :
  (forall e, fst (Debugger.check guild s) = Raise e ->
             report (snd (Debugger.check guild s)).1 = report s.1) /\
  (forall app s1 pre c post,
     Debugger.store_application s = (Ok app, s1) ->
     match guild with
     | Some g => fst (Debugger.check_guild app g s1) = Ok tt
     | None => True
     end ->
     Debugger.get_commands s1.2 (option_map Debugger.arg_id guild) = pre ++ c :: post ->
     Forall (fun p => incompatible s1.2 p = false) pre ->
     incompatible s1.2 c = true ->
     exists e,
       fst (Debugger.check_command c s1) = Raise e /\
       fst (Debugger.check guild s) = Raise e /\
       report (snd (Debugger.check guild s)).1 = report s.1).
Proof.
  split; [apply check_raise_no_report|].
  intros app s1 pre c post Happ Hguild Hcmds Hpre Hc.
  destruct (check_each_stops pre post c [] s1 Hpre Hc) as (e & Hone & Hloop).
  exists e. split; [rewrite Hone; reflexivity|].
  assert (Hrun : Debugger.check guild s = (Raise e, s1)).
  { destruct (pre ++ c :: post) as [|c0 rest] eqn:Hl.
    - destruct pre; discriminate.
    - eapply check_after_prelude; eauto. }
  split; [rewrite Hrun; reflexivity|].
  apply (check_raise_no_report guild s e). rewrite Hrun. reflexivity.
Qed.

Lemma check_raises_before_reporting_witness :
  let s := (Sample.console, Sample.debugger [Sample.ping; Sample.profile; Sample.remind]) in
  let s1 := snd (Debugger.store_application s) in
  exists e,
    fst (Debugger.check_command Sample.profile s1) = Raise e /\
    fst (Debugger.check None s) = Raise e /\
    report (snd (Debugger.check None s)).1 = report s.1.
Proof.
  intros s s1.
  destruct (check_raises_before_reporting None s) as [_ H].
  apply (H Sample.app s1 [Sample.ping] Sample.profile [Sample.remind]).
  - reflexivity.
  - exact I.
  - reflexivity.
  - repeat constructor.
  - reflexivity.
Defined.

(** The error names the offending command, and later ones are not reached. *)
Example check_names_first_offender :
  fst (Debugger.check None
         (Sample.console, Sample.debugger [Sample.ping; Sample.profile; Sample.remind]))
  = Raise (ValueError
             "Command 'profile' is user installable, but the bot is not user installable.").
Proof. vm_compute. reflexivity. Qed.

(** With compatible commands only, both parts of the report come out. *)
Example check_reports_when_compatible :
  let out := (snd (Debugger.check None (Sample.console, Sample.debugger [Sample.ping]))).1 in
  fst (Debugger.check None (Sample.console, Sample.debugger [Sample.ping])) = Ok tt /\
  is_Some (Debugger.debug_info_json out) /\
  length (Debugger.stdout out) = 1%nat.
Proof. vm_compute. repeat split. eauto. Qed.

Example check_without_commands :
  fst (Debugger.check None (Sample.console, Sample.debugger []))
  = Raise (ValueError "No global commands found to sync.").
Proof. vm_compute. reflexivity. Qed.

(** ** The serialisation, on a small payload *)

Example msgpack_of_small_payload :
  Msgpack.encode (Msgpack.VArray [Msgpack.VMap [("name", Msgpack.VStr "ban");
                                                ("type", Msgpack.VInt 1)]])
  = Ok [x91; x82; xa4; x6e; x61; x6d; x65; xa3; x62; x61; x6e;
        xa4; x74; x79; x70; x65; x01].
Proof. vm_compute. reflexivity. Qed.

Example msgpack_of_integers :
  map Msgpack.encode_int [0; 127; 128; 256; 65536; 4294967296; -1; -32; -33; -129]
  = map Ok
      [[x00]; [x7f]; [xcc; x80]; [xcd; x01; x00]; [xce; x00; x01; x00; x00];
       [xcf; x00; x00; x00; x01; x00; x00; x00; x00];
       [xff]; [xe0]; [xd0; xdf]; [xd1; xff; x7f]].
Proof. vm_compute. reflexivity. Qed.

(** The ends of the integers MessagePack holds. *)
Example msgpack_integer_range :
  Msgpack.encode_int (2 ^ 64 - 1)
  = Ok [xcf; xff; xff; xff; xff; xff; xff; xff; xff] /\
  Msgpack.encode_int (- 2 ^ 63)
  = Ok [xd3; x80; x00; x00; x00; x00; x00; x00; x00] /\
  (exists e, Msgpack.encode_int (2 ^ 64) = Raise e) /\
  (exists e, Msgpack.encode_int (- 2 ^ 63 - 1) = Raise e).
Proof. vm_compute. repeat split; eauto. Qed.

(* ===================================================================== *)
(** * Further properties of the state store *)
(* ===================================================================== *)

Lemma path_cached (w : World) (s : SaveConfig.t) (p : Path) :
  SaveConfig.__path s = Some p -> SaveConfig.path (w, s) = (Ok p, (w, s)).
Proof.
  intros H. unfold SaveConfig.path. unfold_monad. cbn. rewrite H. reflexivity.
Qed.

(** Resolving an unresolved path caches it before anything can fail, and
    changes nothing but the file system. *)
Lemma path_resolve (w : World) (s : SaveConfig.t) :
  SaveConfig.__path s = None ->
  exists r f',
    SaveConfig.path (w, s)
    = (r, (with_fs f' w, SaveConfig.with_path (Some (target s)) s)) /\
    (r = Ok (target s) \/ exists e, r = Raise e).
Proof.
  destruct s as [d f p c]; destruct w as [[nd ds sl] clk lg calls].
  cbn. intros ->. unfold target. unfold_store. unfold_monad. cbn.
  repeat (destruct_inner; cbn in *; simplify_eq);
    do 2 eexists; (split; [reflexivity | eauto]).
Qed.

(** X1. Once [path] has been read, with or without an error, the store
    has settled on the location: reading it again returns the resolved
    path and changes nothing, in particular it does not look at the file
    system again. *)
Theorem path_settles (w w1 : World) (s s1 : SaveConfig.t) (r : Res Path) :
  SaveConfig.path (w, s) = (r, (w1, s1)) ->
  SaveConfig.__path s1 = Some (target s) /\
  SaveConfig.path (w1, s1) = (Ok (target s), (w1, s1)).
Proof.
  intros Hrun.
  destruct (SaveConfig.__path s) as [p|] eqn:Hp.
  - rewrite (path_cached _ _ _ Hp) in Hrun. injection Hrun as <- <- <-.
    unfold target. rewrite Hp. split; [reflexivity | apply path_cached, Hp].
  - destruct (path_resolve w s Hp) as (r' & f' & Hres & _).
    rewrite Hres in Hrun. injection Hrun as <- <- <-.
    split; [reflexivity | apply path_cached; reflexivity].
Qed.

Lemma path_settles_witness :
  let w := Sample.world [] Sample.t0 in
  let s := SaveConfig.mk "/nowhere" "state" None None in
  let first := SaveConfig.path (w, s) in
  SaveConfig.__path first.2.2 = Some (target s) /\
  SaveConfig.path first.2 = (Ok (target s), first.2).
Proof.
  intros w s first.
  pose proof (path_settles w first.2.1 s first.2.2 first.1) as H.
  apply H. reflexivity.
Defined.

(** X2. Resolving the path creates the backing file only when there is
    none: it then holds the empty object; a file that exists is never
    rewritten, and when the resolution raises no file has been created. *)
Theorem path_creates_default_only_when_missing (w : World) (s : SaveConfig.t) :
  SaveConfig.__path s = None ->
  nodes (fs (snd (SaveConfig.path (w, s))).1)
  = match nodes (fs w) !! target s, fst (SaveConfig.path (w, s)) with
    | None, Ok _ => <[target s := File (Json (JObj [])) true true]> (nodes (fs w))
    | _, _ => nodes (fs w)
    end.
Proof.
  destruct s as [d f p c]; destruct w as [[nd ds sl] clk lg calls].
  cbn. intros ->. unfold target. unfold_store. unfold_monad. cbn.
  repeat (destruct_inner; cbn in *; simplify_map_eq); reflexivity.
Qed.

Lemma path_creates_default_only_when_missing_witness :
  let w := Sample.world [] Sample.t0 in
  let s := SaveConfig.mk "/srv/bot" "state" None None in
  nodes (fs (snd (SaveConfig.path (w, s))).1)
  = match nodes (fs w) !! target s, fst (SaveConfig.path (w, s)) with
    | None, Ok _ => <[target s := File (Json (JObj [])) true true]> (nodes (fs w))
    | _, _ => nodes (fs w)
    end.
Proof.
  intros w s. apply (path_creates_default_only_when_missing w s). reflexivity.
Defined.

Ltac unfold_update := unfold SaveConfig._update in *; unfold_store; unfold_monad.

(** X3. Loading and updating touch one file only, the one the store
    resolves to: every other path of the file system reads as before. *)
Theorem store_touches_only_its_file (w : World) (s : SaveConfig.t) (force : bool)
    (new_hex : string) (q : Path) :
  q <> target s ->
  nodes (fs (snd (SaveConfig.get_config force (w, s))).1) !! q = nodes (fs w) !! q /\
  nodes (fs (snd (SaveConfig._update new_hex (w, s))).1) !! q = nodes (fs w) !! q.
Proof.
  destruct s as [d f p c]; destruct w as [[nd ds sl] clk lg calls].
  unfold target. cbn. intros Hq. split.
  - unfold_store. unfold_monad. cbn.
    repeat (destruct_inner; cbn in *; simplify_map_eq); reflexivity.
  - unfold_update. cbn.
    repeat (destruct_inner; cbn in *; simplify_map_eq); reflexivity.
Qed.

Lemma store_touches_only_its_file_witness :
  let w := Sample.world [(("/etc", "passwd"), File (Malformed "root") true true)] Sample.t0 in
  let s := Sample.store None in
  nodes (fs (snd (SaveConfig.get_config true (w, s))).1) !! ("/etc", "passwd")
  = nodes (fs w) !! ("/etc", "passwd") /\
  nodes (fs (snd (SaveConfig._update "0123456789abcdef" (w, s))).1) !! ("/etc", "passwd")
  = nodes (fs w) !! ("/etc", "passwd").
Proof.
  intros w s. apply (store_touches_only_its_file w s true). discriminate.
Defined.

(** What [json_encode] writes for a full pair, [json_decode] reads back. *)
Lemma json_round_trip (timestamp : Z) (hex : string) :
  json_decode (json_encode {| last_timestamp := Some timestamp; last_hex := Some hex |})
  = Some {| last_timestamp := Some timestamp; last_hex := Some hex |}.
Proof. reflexivity. Qed.

(** The two ways [_update] ends on a loaded store. *)
Lemma update_outcome (new_hex : string) (w w' : World) (s s' : SaveConfig.t)
    (c : SavedConfig) (r : Res unit) :
  SaveConfig._config s = Some c ->
  SaveConfig._update new_hex (w, s) = (r, (w', s')) ->
  SaveConfig._config s' = Some (updated_pair new_hex (clock w)) /\
  SaveConfig.__path s' = Some (target s) /\
  SaveConfig.__directory s' = SaveConfig.__directory s /\
  SaveConfig.__filename s' = SaveConfig.__filename s /\
  dirs (fs w) ⊆ dirs (fs w') /\
  match r with
  | Ok _ =>
      exists readable,
        nodes (fs w') !! target s
        = Some (File (json_encode (updated_pair new_hex (clock w))) readable true) /\
        (readable = false -> exists text, nodes (fs w) !! target s = Some (File text false true))
  | Raise _ => nodes (fs w') = nodes (fs w)
  end.
Proof.
  destruct s as [d f p cc]; destruct w as [[nd ds sl] clk lg calls].
  unfold target, updated_pair. cbn. intros ->.
  unfold_update. cbn.
  repeat (destruct_inner; cbn in *; simplify_map_eq);
    intros [= <- <- <-]; cbn; repeat split; simplify_map_eq; eauto;
    try set_solver;
    (eexists; split; [reflexivity|]; intros Hr; subst; eauto; discriminate).
Qed.

(** A forced reload through a cached path reads the file as it is. *)
Lemma get_config_reload_cached (w : World) (s : SaveConfig.t) (p : Path)
    (text : FileText) (writable : bool) (c' : SavedConfig) :
  SaveConfig.__path s = Some p ->
  nodes (fs w) !! p = Some (File text true writable) ->
  json_decode text = Some c' ->
  SaveConfig.get_config true (w, s)
  = (Ok c', (with_log (log w ++ [(INFO, LoadedConfig p)]) w,
             SaveConfig.with_config (Some c') s)).
Proof.
  destruct s as [d f q c]; destruct w as [[nd ds sl] clk lg calls].
  cbn. intros -> Hfile Hdec.
  unfold_store. unfold_monad.
  destruct c; cbn; rewrite Hfile; cbn; rewrite Hdec; reflexivity.
Qed.

(** X4. When the write of [_update] fails, with the exception passed on,
    the file system holds the files it held, while the cached state
    already carries the new fingerprint and timestamp: memory and disk
    then disagree. *)
Theorem failed_write_updates_memory_only (new_hex : string) (w w' : World)
    (s s' : SaveConfig.t) (c : SavedConfig) (e : Exn) :
  SaveConfig._config s = Some c ->
  SaveConfig._update new_hex (w, s) = (Raise e, (w', s')) ->
  nodes (fs w') = nodes (fs w) /\
  SaveConfig._config s' = Some (updated_pair new_hex (clock w)) /\
  fst (SaveConfig.last_hex (w', s')) = Ok (Some new_hex).
Proof.
  intros Hc Hrun.
  destruct (update_outcome _ _ _ _ _ _ _ Hc Hrun) as (Hnew & _ & _ & _ & _ & Hdisk).
  split; [exact Hdisk|]. split; [exact Hnew|].
  rewrite (last_hex_run _ _ _ _ _ (get_config_cached w' s' _ Hnew)). reflexivity.
Qed.

Lemma failed_write_updates_memory_only_witness :
  let frozen := File (Json (JObj [("last_timestamp", JInt 1699990000);
                                  ("last_hex", JStr "0123456789abcdef")])) true false in
  let w := Sample.world [(Sample.config_path, frozen)] Sample.t0 in
  let s := Sample.store (Some (Sample.saved 1699990000 "0123456789abcdef")) in
  let run := SaveConfig._update "fedcba9876543210" (w, s) in
  nodes (fs run.2.1) = nodes (fs w) /\
  SaveConfig._config run.2.2 = Some (updated_pair "fedcba9876543210" (clock w)) /\
  fst (SaveConfig.last_hex run.2) = Ok (Some "fedcba9876543210").
Proof.
  intros frozen w s run.
  apply (failed_write_updates_memory_only "fedcba9876543210" w run.2.1 s run.2.2
           (Sample.saved 1699990000 "0123456789abcdef") (OSError "PermissionError")).
  - reflexivity.
  - vm_compute. reflexivity.
Defined.

(** X5. What [_update] has written, a forced reload reads back: after a
    successful update the file decodes to the pair just stored, provided
    the file was not an unreadable one to begin with. *)
Theorem update_then_reload (new_hex : string) (w w' : World)
    (s s' : SaveConfig.t) (c : SavedConfig) :
  SaveConfig._config s = Some c ->
  SaveConfig._update new_hex (w, s) = (Ok tt, (w', s')) ->
  (forall text writable, nodes (fs w) !! target s <> Some (File text false writable)) ->
  fst (SaveConfig.get_config true (w', s')) = Ok (updated_pair new_hex (clock w)) /\
  json_decode (json_encode (updated_pair new_hex (clock w)))
  = Some (updated_pair new_hex (clock w)).
Proof.
  intros Hc Hrun Hreadable.
  destruct (update_outcome _ _ _ _ _ _ _ Hc Hrun)
    as (_ & Hpath & _ & _ & _ & readable & Hfile & Hwas).
  destruct readable.
  - split; [|reflexivity].
    erewrite get_config_reload_cached; [reflexivity | exact Hpath | exact Hfile | reflexivity].
  - destruct (Hwas eq_refl) as (text & Htext). exfalso. exact (Hreadable _ _ Htext).
Qed.

Lemma update_then_reload_witness :
  let w := Sample.world [] Sample.t0 in
  let s := Sample.store (Some absent_config) in
  let run := SaveConfig._update "0123456789abcdef" (w, s) in
  fst (SaveConfig.get_config true run.2) = Ok (updated_pair "0123456789abcdef" (clock w)) /\
  json_decode (json_encode (updated_pair "0123456789abcdef" (clock w)))
  = Some (updated_pair "0123456789abcdef" (clock w)).
Proof.
  intros w s run.
  apply (update_then_reload "0123456789abcdef" w run.2.1 s run.2.2 absent_config).
  - reflexivity.
  - vm_compute. reflexivity.
  - intros text writable. vm_compute. discriminate.
Defined.

(** X6. A store constructed where no file exists creates the file with
    the empty object in it, and, the empty object lacking both fields,
    starts from the absent/absent state with one warning logged. *)
Theorem fresh_store_is_absent (directory filename : string) (w : World) :
  let p := (directory, (filename ++ ".json")%string) in
  nodes (fs w) !! p = None ->
  directory ∉ sealed (fs w) ->
  exists s w' e,
    SaveConfig.__init__ directory filename w = (Ok s, w') /\
    SaveConfig._config s = Some absent_config /\
    SaveConfig.__path s = Some p /\
    nodes (fs w') = <[p := File (Json (JObj [])) true true]> (nodes (fs w)) /\
    log w' = log w ++ [(WARNING, FailedToLoad p e)].
Proof.
  destruct w as [[nd ds sl] clk lg calls]. cbn. intros Hmiss Hopen.
  unfold SaveConfig.__init__. unfold_store. unfold_monad. cbn.
  rewrite ?Hmiss. cbn.
  repeat (destruct_inner; cbn in *; rewrite ?Hmiss in *; cbn in *; simplify_map_eq);
    try contradiction; try discriminate;
    try (match goal with H : _ ∉ {[_]} ∪ _ |- _ => exfalso; apply H; set_solver end);
    do 3 eexists; repeat split; reflexivity.
Qed.

Lemma fresh_store_is_absent_witness :
  exists s w' e,
    SaveConfig.__init__ "/srv/bot" "state" (Sample.world [] Sample.t0) = (Ok s, w') /\
    SaveConfig._config s = Some absent_config /\
    SaveConfig.__path s = Some ("/srv/bot", "state.json") /\
    nodes (fs w') = <[("/srv/bot", "state.json") := File (Json (JObj [])) true true]>
                      (nodes (fs (Sample.world [] Sample.t0))) /\
    log w' = log (Sample.world [] Sample.t0)
             ++ [(WARNING, FailedToLoad ("/srv/bot", "state.json") e)].
Proof.
  apply (fresh_store_is_absent "/srv/bot" "state" (Sample.world [] Sample.t0)).
  - reflexivity.
  - vm_compute. set_solver.
Defined.

(** ** The pair kept by the store *)

Lemma json_decode_full (text : FileText) (c : SavedConfig) :
  json_decode text = Some c -> is_Some (last_timestamp c) /\ is_Some (last_hex c).
Proof.
  unfold json_decode.
  repeat (destruct_inner; try discriminate). intros H. simplify_eq. cbn. eauto.
Qed.

(** What [get_config] leaves in the cache: what was there, what the file
    decodes to, or the fallback. *)
Lemma get_config_cache (force : bool) (w : World) (s : SaveConfig.t) :
  exists c, SaveConfig._config (snd (SaveConfig.get_config force (w, s))).2 = Some c /\
            (SaveConfig._config s = Some c \/ c = absent_config \/
             exists text, json_decode text = Some c).
Proof.
  destruct s as [d f p c]; destruct w as [[nd ds sl] clk lg calls].
  unfold_store. unfold_monad. cbn.
  repeat (destruct_inner; cbn in *; simplify_eq); eauto 8.
Qed.

Lemma update_after_load (new_hex : string) (w w1 : World) (s s1 : SaveConfig.t)
    (c : SavedConfig) :
  SaveConfig.get_config false (w, s) = (Ok c, (w1, s1)) ->
  SaveConfig._update new_hex (w, s) = SaveConfig._update new_hex (w1, s1).
Proof.
  intros H.
  assert (Hc : SaveConfig._config s1 = Some c).
  { destruct (get_config_ok false w s) as (c0 & w0 & s0 & H0 & Hc0 & _).
    rewrite H in H0. congruence. }
  pose proof (get_config_cached w1 s1 c Hc) as H1.
  unfold SaveConfig._update, bind. rewrite H, H1. reflexivity.
Qed.

(** X7. The cached state keeps its two fields together: if they are both
    present or both absent before a load or an update, they are so
    afterwards; after an update they are both present. *)
Theorem pair_stays_paired (w : World) (s : SaveConfig.t) (force : bool)
    (new_hex : string) :
  (forall c, SaveConfig._config s = Some c -> paired c) ->
  (forall c, SaveConfig._config (snd (SaveConfig.get_config force (w, s))).2 = Some c ->
             paired c) /\
  (forall c, SaveConfig._config (snd (SaveConfig._update new_hex (w, s))).2 = Some c ->
             is_Some (last_timestamp c) /\ is_Some (last_hex c)).
Proof.
  intros Hinv. split.
  - intros c Hc.
    destruct (get_config_cache force w s) as (c' & Hc' & Hfrom).
    rewrite Hc in Hc'. injection Hc' as <-.
    destruct Hfrom as [H | [-> | (text & H)]].
    + apply Hinv, H.
    + unfold paired. cbn. split; intros []; discriminate.
    + apply json_decode_full in H as [H1 H2]. unfold paired. tauto.
  - intros c Hc.
    destruct (get_config_ok false w s) as (c0 & w1 & s1 & Hload & Hc0 & _).
    rewrite (update_after_load _ _ _ _ _ _ Hload) in Hc.
    destruct (update_run new_hex w1 s1 c0 Hc0) as (r & w2 & s2 & Hrun & Hnew & _).
    rewrite Hrun in Hc. cbn in Hc. rewrite Hnew in Hc. injection Hc as <-.
    cbn. eauto.
Qed.

Lemma pair_stays_paired_witness :
  let w := Sample.world [(Sample.config_path, Sample.state_file 1699990000 "0123456789abcdef")]
             Sample.t0 in
  let s := Sample.store None in
  (forall c, SaveConfig._config (snd (SaveConfig.get_config true (w, s))).2 = Some c ->
             paired c) /\
  (forall c, SaveConfig._config (snd (SaveConfig._update "fedcba9876543210" (w, s))).2 = Some c ->
             is_Some (last_timestamp c) /\ is_Some (last_hex c)).
Proof.
  intros w s. apply (pair_stays_paired w s true "fedcba9876543210").
  intros c Hc. discriminate.
Defined.

(** ** File names *)

Lemma string_length_append (a b : string) :
  String.length (a ++ b)%string = (String.length a + String.length b)%nat.
Proof. induction a as [|x a IH]; simpl; [reflexivity | f_equal; exact IH]. Qed.

Lemma substring_whole (a : string) : substring 0 (String.length a) a = a.
Proof. induction a as [|x a IH]; simpl; [reflexivity | f_equal; exact IH]. Qed.

Lemma substring_prefix (a b : string) :
  substring 0 (String.length a) (a ++ b)%string = a.
Proof.
  induction a as [|x a IH]; simpl; [destruct b; reflexivity | f_equal; exact IH].
Qed.

Lemma substring_suffix (a b : string) :
  substring (String.length a) (String.length b) (a ++ b)%string = b.
Proof. induction a as [|x a IH]; simpl; [apply substring_whole | exact IH]. Qed.

Lemma removesuffix_append (a suffix : string) :
  removesuffix (a ++ suffix)%string suffix = a.
Proof.
  unfold removesuffix. rewrite string_length_append.
  replace (String.length a + String.length suffix - String.length suffix)%nat
    with (String.length a) by lia.
  rewrite substring_suffix, String.eqb_refl, substring_prefix.
  destruct (_ <=? _)%nat eqn:H; [reflexivity|].
  apply Nat.leb_gt in H. lia.
Qed.

(** X8. The [filename] setter drops one ".json" ending, so a name given
    with the extension resolves to the same file as the bare name, whereas
    the constructor keeps the name as given and resolves
    [name.json] to [name.json.json]. *)
Theorem filename_setter_strips_extension (w : World) (s : SaveConfig.t)
    (name directory : string) :
  let renamed := snd (SaveConfig.set_filename (name ++ ".json") (w, s)) in
  fst (SaveConfig.filename renamed) = Ok name /\
  target renamed.2 = (SaveConfig.__directory s, (name ++ ".json")%string) /\
  forall made w',
    SaveConfig.__init__ directory (name ++ ".json") w = (Ok made, w') ->
    SaveConfig.__path made = Some (directory, ((name ++ ".json") ++ ".json")%string).
Proof.
  cbn zeta. rewrite set_filename_run, removesuffix_append. cbn [snd].
  split; [reflexivity|]. split; [destruct s; reflexivity|].
  intros made w' Hmade. unfold SaveConfig.__init__ in Hmade.
  set (s0 := {| SaveConfig.__directory := directory;
                SaveConfig.__filename := (name ++ ".json")%string;
                SaveConfig.__path := None; SaveConfig._config := None |}) in *.
  destruct (SaveConfig.get_config true (w, s0)) as [r [w1 s1]] eqn:Hrun.
  destruct r; [|discriminate]. injection Hmade as <- <-.
  revert Hrun. subst s0. destruct w as [[nd ds sl] clk lg calls].
  unfold_store. unfold_monad. cbn.
  repeat (destruct_inner; cbn in *; simplify_eq); intros [= <- <- <-]; reflexivity.
Qed.

Lemma filename_setter_strips_extension_witness :
  let w := Sample.world [] Sample.t0 in
  let s := Sample.store None in
  target (snd (SaveConfig.set_filename "state.json" (w, s))).2
  = (SaveConfig.__directory s, "state.json").
Proof.
  intros w s.
  pose proof (filename_setter_strips_extension w s "state" "/srv/bot") as H.
  cbv zeta in H. destruct H as (_ & H & _). exact H.
Defined.

(* ===================================================================== *)
(** * Further properties of the sync gate *)
(* ===================================================================== *)


(** X9. On a loaded store, [sync] returns either the empty list, the
    remote not having been contacted, or exactly the list the remote
    answered for the given scope, the remote having been contacted once
    and for that scope; it never returns anything else. *)
Theorem sync_returns_remote_answer (remote : Transport) (guild : option Z)
    (w w' : World) (tree tree' : AutoSyncTree.t) (c : SavedConfig)
    (l : list AppCommand) :
  SaveConfig._config (AutoSyncTree._config_manager tree) = Some c ->
  AutoSyncTree.sync remote guild (w, tree) = (Ok l, (w', tree')) ->
  (l = [] /\ remote_calls w' = remote_calls w /\
   fst (AutoSyncTree.should_sync (w, tree)) = Ok false) \/
  (reply (remote guild) = Ok l /\ remote_calls w' = remote_calls w ++ [guild] /\
   fst (AutoSyncTree.should_sync (w, tree)) = Ok true).
Proof.
  intros Hc Hrun. rewrite (should_sync_value _ _ _ Hc).
  destruct (needs_sync tree c (clock w)) as [[|]|e0] eqn:Hneed.
  - right. destruct (reply (remote guild)) as [a|e] eqn:Hreply.
    + destruct (sync_go remote guild w tree c a Hc Hneed Hreply)
        as (r & w0 & tree0 & Hgo & Hr & _ & _ & _ & Hcalls & _).
      rewrite Hrun in Hgo. simplify_eq.
      destruct Hr as [[= ->] | (e & [=])]. auto.
    + destruct (sync_fail remote guild w tree c e Hc Hneed Hreply) as (w0 & tree0 & Hf & _).
      rewrite Hrun in Hf. discriminate.
  - left. destruct (sync_skip remote guild w tree c Hc Hneed)
      as (w0 & tree0 & Hskip & _ & _ & Hcalls & _).
    rewrite Hrun in Hskip. simplify_eq. auto.
  - destruct (sync_undecided remote guild w tree c e0 Hc Hneed) as (w0 & tree0 & Hf & _).
    rewrite Hrun in Hf. discriminate.
Qed.

Lemma sync_returns_remote_answer_witness :
  let w := Sample.world [] Sample.t0 in
  let tree := Sample.tree (Some absent_config) Sample.five_minutes
                (Sample.registry [Sample.ban; Sample.kick] []) in
  let run := AutoSyncTree.sync (Sample.succeed Sample.registered) None (w, tree) in
  (Sample.registered = [] /\ remote_calls run.2.1 = remote_calls w /\
   fst (AutoSyncTree.should_sync (w, tree)) = Ok false) \/
  (reply (Sample.succeed Sample.registered None) = Ok Sample.registered /\
   remote_calls run.2.1 = remote_calls w ++ [None] /\
   fst (AutoSyncTree.should_sync (w, tree)) = Ok true).
Proof.
  intros w tree run.
  apply (sync_returns_remote_answer (Sample.succeed Sample.registered) None
           w run.2.1 tree run.2.2 absent_config Sample.registered).
  - reflexivity.
  - vm_compute. reflexivity.
Defined.

Lemma sync_contacted_inv (remote : Transport) (guild : option Z)
    (w w' : World) (tree tree' : AutoSyncTree.t) (c : SavedConfig)
    (l : list AppCommand) :
  SaveConfig._config (AutoSyncTree._config_manager tree) = Some c ->
  AutoSyncTree.sync remote guild (w, tree) = (Ok l, (w', tree')) ->
  remote_calls w' = remote_calls w ++ [guild] ->
  needs_sync tree c (clock w) = Ok true /\ reply (remote guild) = Ok l.
Proof.
  intros Hc Hrun Hcalled.
  destruct (needs_sync tree c (clock w)) as [[|]|e0] eqn:Hneed.
  - split; [reflexivity|]. destruct (reply (remote guild)) as [a|e] eqn:Hreply.
    + destruct (sync_go remote guild w tree c a Hc Hneed Hreply)
        as (r & w0 & tree0 & Hgo & Hr & _).
      rewrite Hrun in Hgo. simplify_eq.
      destruct Hr as [[= ->] | (e & [=])]. reflexivity.
    + destruct (sync_fail remote guild w tree c e Hc Hneed Hreply) as (w0 & tree0 & Hf & _).
      rewrite Hrun in Hf. discriminate.
  - destruct (sync_skip remote guild w tree c Hc Hneed)
      as (w0 & tree0 & Hskip & _ & _ & Hcalls & _).
    rewrite Hrun in Hskip. simplify_eq.
    apply (f_equal length) in Hcalled. rewrite Hcalls, length_app in Hcalled.
    cbn in Hcalled. lia.
  - destruct (sync_undecided remote guild w tree c e0 Hc Hneed) as (w0 & tree0 & Hf & _).
    rewrite Hrun in Hf. discriminate.
Qed.

(** What a sync that returned after contacting the remote leaves behind. *)
Lemma sync_contacted_state (remote : Transport) (guild : option Z)
    (w w' : World) (tree tree' : AutoSyncTree.t) (c : SavedConfig)
    (l : list AppCommand) :
  SaveConfig._config (AutoSyncTree._config_manager tree) = Some c ->
  AutoSyncTree.sync remote guild (w, tree) = (Ok l, (w', tree')) ->
  remote_calls w' = remote_calls w ++ [guild] ->
  SaveConfig._config (AutoSyncTree._config_manager tree')
  = Some (updated_pair (fingerprint tree None) (clock w')) /\
  AutoSyncTree._current_hex tree' = Some (fingerprint tree None) /\
  same_setup tree tree' /\
  digest tree None = Ok (fingerprint tree None).
Proof.
  intros Hc Hrun Hcalled.
  destruct (sync_contacted_inv _ _ _ _ _ _ _ _ Hc Hrun Hcalled) as (Hneed & Hreply).
  destruct (sync_go remote guild w tree c l Hc Hneed Hreply)
    as (r & w0 & tree0 & Hgo & _ & Hnew & Hcur & Hclk & _ & Hsame).
  rewrite Hrun in Hgo. simplify_eq. rewrite Hclk.
  repeat split; try assumption; try apply Hsame.
  apply needs_sync_true_inv in Hneed as (last & h & _ & _ & Hd & _).
  rewrite (digest_fingerprint _ _ _ Hd). exact Hd.
Qed.

(** X10. The fingerprint a sync stores is the one [should_sync] computed,
    which is that of the global commands: after a sync for any scope that
    contacted the remote and returned, [last_hex] and [current_hex] both
    hold the fingerprint of scope [None]; the [generate_hex(guild=guild)]
    of [sync] is not what gets stored. *)
Theorem sync_stores_global_fingerprint (remote : Transport) (guild : option Z)
    (w w' : World) (tree tree' : AutoSyncTree.t) (c : SavedConfig)
    (l : list AppCommand) :
  SaveConfig._config (AutoSyncTree._config_manager tree) = Some c ->
  AutoSyncTree.sync remote guild (w, tree) = (Ok l, (w', tree')) ->
  remote_calls w' = remote_calls w ++ [guild] ->
  fst (AutoSyncTree.last_hex (w', tree')) = Ok (Some (fingerprint tree None)) /\
  fst (AutoSyncTree.current_hex (w', tree')) = Ok (Some (fingerprint tree None)).
Proof.
  intros Hc Hrun Hcalled.
  destruct (sync_contacted_state _ _ _ _ _ _ _ _ Hc Hrun Hcalled) as (Hnew & Hcur & _).
  rewrite (tree_last_hex_run _ _ _ _ _ (get_config_cached w' _ _ Hnew)).
  rewrite current_hex_run, Hcur. split; reflexivity.
Qed.

Lemma sync_stores_global_fingerprint_witness :
  let w := Sample.world [] Sample.t0 in
  let tree := Sample.tree (Some absent_config) None
                (Sample.registry [Sample.ban] [(42, [Sample.kick])]) in
  let run := AutoSyncTree.sync (Sample.succeed Sample.registered) (Some 42) (w, tree) in
  fst (AutoSyncTree.last_hex (run.2.1, run.2.2)) = Ok (Some (fingerprint tree None)) /\
  fst (AutoSyncTree.current_hex (run.2.1, run.2.2)) = Ok (Some (fingerprint tree None)).
Proof.
  intros w tree run.
  apply (sync_stores_global_fingerprint (Sample.succeed Sample.registered) (Some 42)
           w run.2.1 tree run.2.2 absent_config Sample.registered).
  - reflexivity.
  - vm_compute. reflexivity.
  - vm_compute. reflexivity.
Defined.

(** X11. A sync that contacted the remote closes the interval gate. Let a
    minimal interval be configured, the second stored by the update be
    other than 0 and one [datetime] takes, and the end of the wait (that
    second plus the interval) be an instant [datetime] holds: then
    [can_sync] is [False] at every instant earlier than the end of the
    wait. *)
Theorem sync_closes_the_gate (remote : Transport) (guild : option Z)
    (w w' : World) (tree tree' : AutoSyncTree.t) (c : SavedConfig)
    (l : list AppCommand) (interval later : Z) :
  SaveConfig._config (AutoSyncTree._config_manager tree) = Some c ->
  AutoSyncTree.sync remote guild (w, tree) = (Ok l, (w', tree')) ->
  remote_calls w' = remote_calls w ++ [guild] ->
  AutoSyncTree.minimal_sync_interval tree = Some interval ->
  let stored := Datetime.int_timestamp (clock w') in
  stored <> 0 ->
  convertible stored ->
  representable (stored * 1000000 + interval) ->
  later < stored * 1000000 + interval ->
  fst (AutoSyncTree.can_sync (with_clock later w', tree')) = Ok false.
Proof.
  intros Hc Hrun Hcalled Hint stored Hpast Hconv Hrep Hlater.
  destruct (sync_contacted_state _ _ _ _ _ _ _ _ Hc Hrun Hcalled) as (Hnew & _ & Hsame & _).
  rewrite (can_sync_value _ _ _ Hnew).
  change (clock (with_clock later w')) with later.
  rewrite (allowed_same_setup _ _ _ _ Hsame).
  unfold allowed, instant_of, recorded, updated_pair. cbn [last_timestamp].
  fold stored.
  destruct (Z.eqb_spec stored 0) as [H0|_]; [contradiction|].
  rewrite (fromtimestamp_convertible _ Hconv). cbn [and_then].
  rewrite Hint. unfold gate. rewrite (add_representable _ _ Hrep). cbn [and_then].
  f_equal. apply Z.leb_gt. lia.
Qed.

Lemma sync_closes_the_gate_witness :
  let w := Sample.world [] Sample.t0 in
  let tree := Sample.tree (Some absent_config) Sample.five_minutes
                (Sample.registry [Sample.ban; Sample.kick] []) in
  let run := AutoSyncTree.sync (Sample.succeed Sample.registered) None (w, tree) in
  fst (AutoSyncTree.can_sync (with_clock (Sample.t0 + 299 * 1000000) run.2.1, run.2.2))
  = Ok false.
Proof.
  intros w tree run.
  apply (sync_closes_the_gate (Sample.succeed Sample.registered) None
           w run.2.1 tree run.2.2 absent_config Sample.registered (300 * 1000000)).
  - reflexivity.
  - vm_compute. reflexivity.
  - vm_compute. reflexivity.
  - reflexivity.
  - vm_compute. discriminate.
  - vm_compute. split; discriminate.
  - vm_compute. split; discriminate.
  - vm_compute. reflexivity.
Defined.

(** Past the range of [datetime] the gate does not stay closed, it
    raises: the sync recorded, an interval of 3000000 days puts the end
    of the wait after the year 9999. *)
Example gate_raises_after_sync :
  let w := Sample.world [] Sample.t0 in
  let tree := Sample.tree (Some absent_config) (Some (3000000 * 86400 * 1000000))
                (Sample.registry [Sample.ban; Sample.kick] []) in
  let run := AutoSyncTree.sync (Sample.succeed Sample.registered) None (w, tree) in
  fst run = Ok Sample.registered /\
  exists msg,
    fst (AutoSyncTree.can_sync (with_clock (Sample.t0 + 299 * 1000000) run.2.1, run.2.2))
    = Raise (OverflowError msg).
Proof. vm_compute. split; [reflexivity|]. eexists. reflexivity. Qed.




(** On the tree of the witness the gate does return, a day later, and the
    sync is skipped. *)
Example restart_then_sync :
  let w := Sample.world [] Sample.t0 in
  let tree := Sample.tree (Some absent_config) Sample.five_minutes
                (Sample.registry [Sample.ban; Sample.kick] []) in
  let run := AutoSyncTree.sync (Sample.succeed Sample.registered) None (w, tree) in
  let again := Sample.boot [] 0 MISSING (AutoSyncTree._get_all_commands tree) in
  let restarted :=
    match AutoSyncTree.__init__ None MISSING "/srv/bot" (AutoSyncTree._get_all_commands tree)
            false (with_clock (Sample.t0 + 86400 * 1000000) run.2.1) with
    | (Ok tree2, w2) => (w2, tree2)
    | (Raise _, _) => again
    end in
  fst (AutoSyncTree.can_sync restarted) = Ok true /\
  fst (AutoSyncTree.sync (Sample.succeed Sample.registered) None restarted) = Ok [].
Proof. vm_compute. split; reflexivity. Qed.

(** X13. A forced load of a readable file that decodes returns what the
    file holds, caches it, logs one INFO record and no warning, and leaves
    every file as it is. *)
Theorem load_of_valid_state (w : World) (s : SaveConfig.t) (text : FileText)
    (writable : bool) (c' : SavedConfig) :
  (target s).1 ∈ dirs (fs w) ->
  nodes (fs w) !! target s = Some (File text true writable) ->
  json_decode text = Some c' ->
  exists w' s',
    SaveConfig.get_config true (w, s) = (Ok c', (w', s')) /\
    SaveConfig._config s' = Some c' /\
    nodes (fs w') = nodes (fs w) /\
    log w' = log w ++ [(INFO, LoadedConfig (target s))].
Proof.
  destruct s as [d f p c]; destruct w as [[nd ds sl] clk lg calls].
  unfold target. cbn. intros Hdir Hfile Hdec.
  unfold_store. unfold_monad. cbn.
  repeat (destruct_inner; cbn in *; simplify_map_eq); try contradiction;
    try (exfalso; eauto; fail);
    do 2 eexists; repeat split; reflexivity.
Qed.

Lemma load_of_valid_state_witness :
  let w := Sample.world [(Sample.config_path, Sample.state_file 1699990000 "0123456789abcdef")]
             Sample.t0 in
  let s := Sample.store None in
  exists w' s',
    SaveConfig.get_config true (w, s)
    = (Ok (Sample.saved 1699990000 "0123456789abcdef"), (w', s')) /\
    SaveConfig._config s' = Some (Sample.saved 1699990000 "0123456789abcdef") /\
    nodes (fs w') = nodes (fs w) /\
    log w' = log w ++ [(INFO, LoadedConfig (target s))].
Proof.
  intros w s.
  apply (load_of_valid_state w s
           (Json (JObj [("last_timestamp", JInt 1699990000);
                        ("last_hex", JStr "0123456789abcdef")])) true).
  - vm_compute. set_solver.
  - vm_compute. reflexivity.
  - reflexivity.
Defined.

(* ===================================================================== *)
(** * Further properties of the validation reporter *)
(* ===================================================================== *)

Lemma check_command_pass (c : Debugger.CommandT) (s : Debugger.St) :
  incompatible s.2 c = false ->
  Debugger.check_command c s = (Ok (describe c), s).
Proof.
  unfold Debugger.check_command, incompatible, describe. unfold_monad. cbn.
  repeat (destruct_inner; cbn; try discriminate); reflexivity.
Qed.

Lemma check_each_pass (commands : list Debugger.CommandT)
    (done : list Debugger._DebugableCommand) (s : Debugger.St) :
  Forall (fun c => incompatible s.2 c = false) commands ->
  Debugger.check_each commands done s = (Ok (done ++ map describe commands), s).
Proof.
  intros H. revert done. induction H as [|c l Hc _ IH]; intros done; cbn.
  - rewrite app_nil_r. reflexivity.
  - unfold bind. rewrite (check_command_pass _ _ Hc), IH, <- app_assoc. reflexivity.
Qed.

(** X14. When the application is known, the tree lists commands for the
    global scope, none of them is denied by the bot-level policy and the
    working directory is writable, [check] returns normally, having
    written one JSON entry per command, in the order of the tree, and
    printed one block of text. *)
Theorem check_reports_when_all_pass (s s1 : Debugger.St) (app : Debugger.AppInfo) :
  Debugger.store_application s = (Ok app, s1) ->
  Debugger.get_commands s1.2 None <> [] ->
  Forall (fun c => incompatible s1.2 c = false) (Debugger.get_commands s1.2 None) ->
  Debugger.cwd_writable s.1 = true ->
  let described := map describe (Debugger.get_commands s1.2 None) in
  exists s',
    Debugger.check None s = (Ok tt, s') /\
    Debugger.debug_info_json s'.1 = Some (Debugger.debug_info s1.2 described) /\
    Debugger.stdout s'.1 = Debugger.stdout s.1 ++ [console_text s1.2 described] /\
    Debugger.original_sync_calls s'.1 = Debugger.original_sync_calls s.1 /\
    s'.2 = s1.2.
Proof.
  intros Happ Hsome Hall Hw described.
  pose proof (store_application_outputs s) as Hout. rewrite Happ in Hout.
  destruct s as [o d], s1 as [o1 d1]. cbn [fst snd] in *. subst o1.
  unfold Debugger.check. unfold bind at 1. rewrite Happ.
  unfold bind at 1. unfold ret at 1. unfold bind at 1, gets. cbn [snd option_map].
  destruct (Debugger.get_commands d1 None) as [|c rest] eqn:Hcmds; [congruence|].
  unfold bind at 1. rewrite (check_each_pass (c :: rest) [] (o, d1) Hall). cbn [List.app].
  fold described.
  unfold bind at 1, gets. unfold bind at 1, Debugger.dump. cbn [fst snd].
  rewrite Hw.
  eexists. split; [reflexivity|]. cbn. repeat split.
Qed.

Lemma check_reports_when_all_pass_witness :
  let s := (Sample.console, Sample.debugger [Sample.ping]) in
  let s1 := snd (Debugger.store_application s) in
  let described := map describe (Debugger.get_commands s1.2 None) in
  exists s',
    Debugger.check None s = (Ok tt, s') /\
    Debugger.debug_info_json s'.1 = Some (Debugger.debug_info s1.2 described) /\
    Debugger.stdout s'.1 = Debugger.stdout s.1 ++ [console_text s1.2 described] /\
    Debugger.original_sync_calls s'.1 = Debugger.original_sync_calls s.1 /\
    s'.2 = s1.2.
Proof.
  intros s s1.
  apply (check_reports_when_all_pass s s1 Sample.app).
  - reflexivity.
  - discriminate.
  - repeat constructor.
  - reflexivity.
Defined.

(** X15. A command that declares neither installs nor contexts counts as
    installable to servers and usable in servers and in the bot's DM: it
    passes [check_command] exactly when the bot-level policy allows these
    three, and then with the flags Yes, No, Yes, Yes, No. *)
Theorem undeclared_command_needs_guild_and_dm (c : Debugger.CommandT)
    (s : Debugger.St) :
  Debugger.allowed_installs c = None ->
  Debugger.allowed_contexts c = None ->
  (fst (Debugger.check_command c s)
   = Ok {| Debugger.command := c;
           Debugger.is_guild_installable := true;
           Debugger.is_user_installable := false;
           Debugger.is_guild_usable := true;
           Debugger.is_dm_usable := true;
           Debugger.is_private_channel_usable := false |}
   <-> Debugger.__is_bot_guild_installable s.2 = true /\
       Debugger.__is_bot_guild_usable s.2 = true /\
       Debugger.__is_bot_dm_usable s.2 = true) /\
  ((exists e, fst (Debugger.check_command c s) = Raise e)
   <-> ~ (Debugger.__is_bot_guild_installable s.2 = true /\
          Debugger.__is_bot_guild_usable s.2 = true /\
          Debugger.__is_bot_dm_usable s.2 = true)).
Proof.
  intros Hi Hc.
  unfold Debugger.check_command. unfold_monad. cbn.
  unfold Debugger.__is_command_guild_installable, Debugger.__is_command_user_installable,
    Debugger.__is_command_guild_usable, Debugger.__is_command_dm_usable,
    Debugger.__is_command_private_channel_usable.
  rewrite Hi, Hc. cbn.
  destruct (Debugger.__is_bot_guild_installable s.2),
    (Debugger.__is_bot_guild_usable s.2), (Debugger.__is_bot_dm_usable s.2); cbn;
    (split; split);
    try (intros; (discriminate || tauto || (split; congruence) || eauto; fail));
    try (intros (e & [=])); try (intros H; exfalso; apply H; tauto);
    try (intros H; eexists; reflexivity); try (intros (H1 & H2 & H3); discriminate).
Qed.

Lemma undeclared_command_needs_guild_and_dm_witness :
  let s := (Sample.console, Sample.debugger [Sample.ping]) in
  fst (Debugger.check_command Sample.ping s)
  = Ok {| Debugger.command := Sample.ping;
          Debugger.is_guild_installable := true;
          Debugger.is_user_installable := false;
          Debugger.is_guild_usable := true;
          Debugger.is_dm_usable := true;
          Debugger.is_private_channel_usable := false |}.
Proof.
  intros s.
  destruct (undeclared_command_needs_guild_and_dm Sample.ping s eq_refl eq_refl)
    as [[_ H] _].
  apply H. repeat split.
Defined.

Lemma store_application_state (s s1 : Debugger.St) (app : Debugger.AppInfo) :
  Debugger.store_application s = (Ok app, s1) ->
  s1 = (s.1, Debugger.with_application app s.2).
Proof.
  unfold Debugger.store_application. unfold_monad. cbn.
  repeat (destruct_inner; cbn; try discriminate); intros [= <- <-]; reflexivity.
Qed.



(** X17. With the tree's install flag for servers left unset, the bot
    counts as installable to servers exactly when the application has a
    guild integration configuration; without one, every command that is
    installable to servers (any command that declares no installs, for
    one) is refused with the guild-installable error. *)
Theorem unset_install_flag_follows_application (s s1 : Debugger.St)
    (app : Debugger.AppInfo) (c : Debugger.CommandT) :
  Debugger.store_application s = (Ok app, s1) ->
  AppInstallationType._guild (Debugger._global_allowed_installs s.2) = None ->
  Debugger.__is_bot_guild_installable s1.2
  = bool_decide (is_Some (Debugger.guild_integration_config app)) /\
  (Debugger.guild_integration_config app = None ->
   Debugger.__is_command_guild_installable c = true ->
   Debugger.check_command c s1
   = (Raise (Debugger.mismatch c "guild installable" "guild installable"), s1)).
Proof.
  intros H Hunset. apply store_application_state in H. subst s1. cbn [snd].
  assert (Hbot : Debugger.__is_bot_guild_installable (Debugger.with_application app s.2)
                 = bool_decide (is_Some (Debugger.guild_integration_config app))).
  { unfold Debugger.__is_bot_guild_installable, AppInstallationType.guild. cbn.
    rewrite Hunset. destruct (Debugger.guild_integration_config app); reflexivity. }
  split; [exact Hbot|].
  intros Hnone Hc. rewrite Hnone in Hbot. cbn in Hbot.
  unfold Debugger.check_command. unfold_monad. cbn [fst snd].
  rewrite Hc, Hbot. reflexivity.
Qed.

Lemma unset_install_flag_follows_application_witness :
  let unset := {| AppInstallationType._guild := None; AppInstallationType._user := None |} in
  let d := {| Debugger.get_commands := fun _ => [Sample.ping];
              Debugger.client := Sample.bot_client;
              Debugger._global_allowed_contexts := Sample.unset_contexts;
              Debugger._global_allowed_installs := unset;
              Debugger._application := None;
              Debugger._app_user_installable := None;
              Debugger._app_guild_installable := None |} in
  let s1 := snd (Debugger.store_application (Sample.console, d)) in
  Debugger.check_command Sample.ping s1
  = (Raise (Debugger.mismatch Sample.ping "guild installable" "guild installable"), s1).
Proof.
  intros unset d s1.
  destruct (unset_install_flag_follows_application (Sample.console, d) s1 Sample.app
              Sample.ping eq_refl eq_refl) as [_ H].
  apply H; reflexivity.
Defined.

(** [check] itself never calls the wrapped sync. *)
Lemma check_keeps_calls (guild : option Debugger.GuildArg) (s s' : Debugger.St)
    (r : Res unit) :
  Debugger.check guild s = (r, s') ->
  Debugger.original_sync_calls s'.1 = Debugger.original_sync_calls s.1.
Proof.
  unfold Debugger.check. unfold bind at 1.
  pose proof (store_application_outputs s) as Hout.
  destruct (Debugger.store_application s) as [[app|e0] s1]; cbn in Hout;
    [|intros [= _ <-]; rewrite Hout; reflexivity].
  unfold bind at 1.
  assert (Hpre : exists r, (match guild with
                  | Some g => Debugger.check_guild app g
                  | None => ret ()
                  end) s1 = (r, s1)).
  { destruct guild as [g|]; [|eexists; reflexivity].
    pose proof (check_guild_state app g s1) as Hs.
    destruct (Debugger.check_guild app g s1) as [r0 s2]. cbn in Hs. subst s2. eauto. }
  destruct Hpre as (r0 & ->).
  destruct r0 as [[]|e1]; [|intros [= _ <-]; rewrite Hout; reflexivity].
  unfold bind at 1, gets.
  destruct (Debugger.get_commands s1.2 (option_map Debugger.arg_id guild)) as [|c rest];
    [intros [= _ <-]; rewrite Hout; reflexivity|].
  unfold bind at 1.
  pose proof (check_each_state (c :: rest) [] s1) as Hs.
  destruct (Debugger.check_each (c :: rest) [] s1) as [[l|e2] s2]; cbn in Hs; subst s2;
    [|intros [= _ <-]; rewrite Hout; reflexivity].
  unfold bind at 1, gets. unfold bind at 1, Debugger.dump.
  destruct (Debugger.cwd_writable s1.1);
    intros [= _ <-]; cbn; rewrite Hout; reflexivity.
Qed.

(** X18. The sync that the debugger installs runs the wrapped sync only
    after [check] has returned normally: when [check] raises, its error is
    the result and the wrapped sync is not called; otherwise the wrapped
    sync is called exactly once, for the same guild, and its outcome is
    the result. *)
Theorem new_sync_runs_original_after_check (original : option Debugger.GuildArg -> Res unit)
    (guild : option Debugger.GuildArg) (s : Debugger.St) :
  let ran := Debugger.new_sync original guild s in
  match fst (Debugger.check guild s) with
  | Raise e =>
      fst ran = Raise e /\
      Debugger.original_sync_calls ran.2.1 = Debugger.original_sync_calls s.1
  | Ok _ =>
      fst ran = original guild /\
      Debugger.original_sync_calls ran.2.1 = Debugger.original_sync_calls s.1 ++ [guild]
  end.
Proof.
  cbn zeta. unfold Debugger.new_sync, bind.
  destruct (Debugger.check guild s) as [r s'] eqn:Hrun.
  pose proof (check_keeps_calls _ _ _ _ Hrun) as Hcalls.
  destruct r as [[]|e]; cbn; rewrite Hcalls; split; reflexivity.
Qed.

(** X19. [check] for a guild gets past the guild only if the bot's own
    integration is among the guild's integrations: whenever the guild
    stage returns normally, the guild was given, or is cached, or (without
    the guilds intent) was fetched, and its integrations hold a
    [BotIntegration] of the stored application. *)
Theorem guild_stage_needs_bot_integration (app : Debugger.AppInfo)
    (guild : Debugger.GuildArg) (s : Debugger.St) :
  fst (Debugger.check_guild app guild s) = Ok tt ->
  exists g l,
    (guild = Debugger.AsGuild g \/
     (exists id, guild = Debugger.AsObject id /\
                 (Debugger.get_guild (Debugger.client s.2) id = Some g \/
                  (Debugger.get_guild (Debugger.client s.2) id = None /\
                   Debugger.intents_guilds (Debugger.client s.2) = false /\
                   Debugger.fetch_guild (Debugger.client s.2) id = Ok g)))) /\
    Debugger.integrations g = Ok l /\
    In (Debugger.BotIntegration (Debugger.app_id app)) l.
Proof.
  unfold Debugger.check_guild. unfold_monad. cbn.
  assert (Hfind : forall l,
            is_Some (find (fun i => match i with
                                    | Debugger.BotIntegration a => a =? Debugger.app_id app
                                    | Debugger.OtherIntegration => false
                                    end) l) ->
            In (Debugger.BotIntegration (Debugger.app_id app)) l).
  { intros l [i Hi]. apply find_some in Hi as [Hin Hb].
    destruct i as [a|]; [|discriminate]. apply Z.eqb_eq in Hb. subst a. exact Hin. }
  repeat (destruct_inner; cbn; try discriminate);
    try (destruct (find _ _) eqn:Hf; cbn; try discriminate; intros _;
         do 2 eexists; split; [|split; [eassumption|apply Hfind; rewrite Hf; eauto]];
         eauto 10).
  right. eexists. split; [reflexivity|]. right.
  repeat split; auto. apply negb_true_iff. assumption.
Qed.

Lemma guild_stage_needs_bot_integration_witness :
  let home := {| Debugger.guild_id := 42;
                 Debugger.integrations :=
                   Ok [Debugger.OtherIntegration; Debugger.BotIntegration 7] |} in
  let s := (Sample.console, Sample.debugger [Sample.ping]) in
  exists g l,
    (Debugger.AsGuild home = Debugger.AsGuild g \/
     (exists id, Debugger.AsGuild home = Debugger.AsObject id /\
                 (Debugger.get_guild (Debugger.client s.2) id = Some g \/
                  (Debugger.get_guild (Debugger.client s.2) id = None /\
                   Debugger.intents_guilds (Debugger.client s.2) = false /\
                   Debugger.fetch_guild (Debugger.client s.2) id = Ok g)))) /\
    Debugger.integrations g = Ok l /\
    In (Debugger.BotIntegration (Debugger.app_id Sample.app)) l.
Proof.
  intros home s.
  apply (guild_stage_needs_bot_integration Sample.app (Debugger.AsGuild home) s).
  reflexivity.
Defined.

(** X20. With no command to check, [check] raises a [ValueError] that
    names the scope, and emits no report, once the application is stored
    and, for a guild, the guild stage has passed. *)
Theorem check_without_commands_raises (guild : option Debugger.GuildArg)
    (s s1 : Debugger.St) (app : Debugger.AppInfo) :
  Debugger.store_application s = (Ok app, s1) ->
  match guild with
  | Some g => fst (Debugger.check_guild app g s1) = Ok tt
  | None => True
  end ->
  Debugger.get_commands s1.2 (option_map Debugger.arg_id guild) = [] ->
  Debugger.check guild s
  = (Raise (ValueError
              (concat_str
                 ["No ";
                  match guild with
                  | None => "global commands"
                  | Some g => ("commands for guild " ++ pretty (Debugger.arg_id g))%string
                  end;
                  " found to sync."])), s1) /\
  report s1.1 = report s.1.
Proof.
  intros Happ Hguild Hnone.
  assert (Hrun : Debugger.check guild s
                 = (Raise (ValueError
                      (concat_str
                         ["No ";
                          match guild with
                          | None => "global commands"
                          | Some g =>
                              ("commands for guild " ++ pretty (Debugger.arg_id g))%string
                          end;
                          " found to sync."])), s1)).
  { unfold Debugger.check. unfold bind at 1. rewrite Happ.
    unfold bind at 1.
    assert (Hpre : (match guild with
                    | Some g => Debugger.check_guild app g
                    | None => ret ()
                    end) s1 = (Ok tt, s1)).
    { destruct guild as [g|]; [|reflexivity].
      pose proof (check_guild_state app g s1) as Hs.
      destruct (Debugger.check_guild app g s1) as [r s2]. cbn in *. congruence. }
    rewrite Hpre. unfold bind at 1, gets. cbn [snd]. rewrite Hnone. reflexivity. }
  split; [exact Hrun|].
  eapply check_raise_no_report_run. exact Hrun.
Qed.

Lemma check_without_commands_raises_witness :
  let s := (Sample.console, Sample.debugger []) in
  let s1 := snd (Debugger.store_application s) in
  Debugger.check None s
  = (Raise (ValueError (concat_str ["No "; "global commands"; " found to sync."])), s1) /\
  report s1.1 = report s.1.
Proof.
  intros s s1.
  apply (check_without_commands_raises None s s1 Sample.app).
  - reflexivity.
  - exact I.
  - reflexivity.
Defined.

(* ===================================================================== *)
(** * Reads that do not write *)
(* ===================================================================== *)

(** X21. What [get_config] has returned stays the answer of every later
    call without [force_reload], whatever has become of the file system,
    the clock or the log in between. *)
Theorem cached_state_ignores_the_disk (force : bool) (w w' : World)
    (s s' : SaveConfig.t) (c : SavedConfig) :
  SaveConfig.get_config force (w, s) = (Ok c, (w', s')) ->
  forall elsewhere : World,
    SaveConfig.get_config false (elsewhere, s') = (Ok c, (elsewhere, s')).
Proof.
  intros Hrun elsewhere. apply get_config_cached.
  destruct (get_config_ok force w s) as (c0 & w0 & s0 & H0 & Hc0 & _).
  rewrite Hrun in H0. congruence.
Qed.

Lemma cached_state_ignores_the_disk_witness :
  let w := Sample.world [(Sample.config_path, Sample.state_file 1699990000 "0123456789abcdef")]
             Sample.t0 in
  let loaded := SaveConfig.get_config true (w, Sample.store None) in
  let elsewhere := Sample.world [] (Sample.t0 + 1000000) in
  SaveConfig.get_config false (elsewhere, loaded.2.2)
  = (Ok (Sample.saved 1699990000 "0123456789abcdef"), (elsewhere, loaded.2.2)).
Proof.
  intros w loaded elsewhere.
  apply (cached_state_ignores_the_disk true w loaded.2.1 (Sample.store None) loaded.2.2).
  vm_compute. reflexivity.
Defined.

(** X22. On a loaded store [should_sync] is a read as far as the outside
    goes: it leaves the file system, the clock, the store object and the
    tree's commands as they are and does not contact the remote; all it
    changes is the log and, when the gate is open, the cached current
    fingerprint. *)
Theorem should_sync_only_reads (w : World) (tree : AutoSyncTree.t) (c : SavedConfig) :
  SaveConfig._config (AutoSyncTree._config_manager tree) = Some c ->
  let after := snd (AutoSyncTree.should_sync (w, tree)) in
  fs after.1 = fs w /\ clock after.1 = clock w /\
  remote_calls after.1 = remote_calls w /\
  AutoSyncTree._config_manager after.2 = AutoSyncTree._config_manager tree /\
  same_setup tree after.2.
Proof.
  intros Hc.
  destruct (should_sync_loaded w tree c Hc) as (w' & tree' & Hrun & H).
  cbn zeta. rewrite Hrun. cbn [snd fst]. tauto.
Qed.

Lemma should_sync_only_reads_witness :
  let w := Sample.world [] Sample.t0 in
  let tree := Sample.tree (Some absent_config) Sample.five_minutes
                (Sample.registry [Sample.ban; Sample.kick] []) in
  let after := snd (AutoSyncTree.should_sync (w, tree)) in
  fs after.1 = fs w /\ clock after.1 = clock w /\
  remote_calls after.1 = remote_calls w /\
  AutoSyncTree._config_manager after.2 = AutoSyncTree._config_manager tree /\
  same_setup tree after.2.
Proof.
  intros w tree.
  apply (should_sync_only_reads w tree absent_config). reflexivity.
Defined.

(** ** The second stored by an update *)

(** Rounding to 53 bits does not carry into the next second while the
    spacing of the floats is below a microsecond. *)
Lemma round_half_even_scaled (n s : Z) :
  0 <= n -> 19 <= s ->
  Datetime.round_half_even (n * 2 ^ s) 1000000 / 2 ^ s = n / 1000000.
Proof.
  intros Hn Hs.
  assert (HP : 524288 <= 2 ^ s).
  { change 524288 with (2 ^ 19). apply Z.pow_le_mono_r; lia. }
  set (P := 2 ^ s) in *. clearbody P.
  pose proof (Z.div_mod n 1000000 ltac:(lia)) as Hq.
  pose proof (Z.mod_pos_bound n 1000000 ltac:(lia)) as Hr0.
  set (q := n / 1000000) in *. set (r0 := n mod 1000000) in *. clearbody q r0.
  unfold Datetime.round_half_even.
  pose proof (Z.div_mod (n * P) 1000000 ltac:(lia)) as Ht.
  pose proof (Z.mod_pos_bound (n * P) 1000000 ltac:(lia)) as Hr.
  set (t := n * P / 1000000) in *. set (r := (n * P) mod 1000000) in *. clearbody t r.
  assert (HN : n * P = 1000000 * (q * P) + r0 * P) by (subst n; ring).
  assert (HB : 0 <= r0 * P <= 999999 * P) by nia.
  remember (q * P) as A eqn:HA. remember (r0 * P) as B eqn:HB'.
  symmetry. apply Z.div_unique with (r := (if 2 * r <? 1000000 then t
                                           else if 1000000 <? 2 * r then t + 1
                                           else if Z.even t then t else t + 1) - A).
  - left. destruct (Z.ltb_spec (2 * r) 1000000); [lia|].
    destruct (Z.ltb_spec 1000000 (2 * r)); [lia|].
    destruct (Z.even t); lia.
  - replace (P * q) with A by (subst A; ring). lia.
Qed.

Lemma int_timestamp_exact (instant : Z) :
  0 <= instant < 2 ^ 34 * 1000000 ->
  Datetime.int_timestamp instant = instant / 1000000.
Proof.
  intros [H0 Hmax]. unfold Datetime.int_timestamp.
  destruct (Z.leb_spec 0 instant) as [_|]; [|lia].
  unfold Datetime.true_divide.
  destruct (Z.eqb_spec instant 0) as [->|Hne]; [reflexivity|].
  assert (Hpos : 0 < instant) by lia.
  pose proof (Z.log2_spec instant Hpos) as [Hlo Hhi].
  assert (HL : Z.log2 instant <= 53).
  { apply Z.lt_succ_r. apply (Z.pow_lt_mono_r_iff 2); [lia | lia |].
    eapply Z.le_lt_trans; [exact Hlo|]. rewrite <- Z.add_1_r. cbn. lia. }
  pose proof (Z.log2_nonneg instant) as HL0.
  change (Z.log2 1000000) with 19.
  set (L := Z.log2 instant) in *. clearbody L.
  cbv zeta.
  set (below := if 0 <=? L - 19 then instant <? 1000000 * 2 ^ (L - 19)
                else instant * 2 ^ (- (L - 19)) <? 1000000).
  assert (He : (if below then L - 19 - 1 else L - 19) - 52 <= -19).
  { destruct below eqn:Hb; [lia|].
    assert (L <= 52); [|lia].
    destruct (Z.eq_dec L 53) as [->|]; [|lia].
    subst below. cbn in Hb. apply Z.ltb_ge in Hb. cbn in Hmax. lia. }
  set (e := (if below then L - 19 - 1 else L - 19) - 52) in *. clearbody e below.
  unfold Datetime.int_of_float.
  destruct (Z.leb_spec 0 e) as [|_]; [lia|].
  apply round_half_even_scaled; lia.
Qed.

(** X23. Up to the year 2514 (2^34 seconds after the epoch) the
    timestamp an update puts in the state is the whole second its instant
    falls in: [int(utcnow().timestamp())] loses the microseconds and
    nothing else, the float being exact enough. *)
Theorem update_stores_whole_second (new_hex : string) (w : World) (s : SaveConfig.t)
    (c : SavedConfig) :
  SaveConfig._config s = Some c ->
  0 <= clock w < 2 ^ 34 * 1000000 ->
  SaveConfig._config (snd (SaveConfig._update new_hex (w, s))).2
  = Some {| last_timestamp := Some (clock w / 1000000); last_hex := Some new_hex |}.
Proof.
  intros Hc Hclock.
  destruct (update_run new_hex w s c Hc) as (r & w' & s' & Hrun & Hnew & _).
  rewrite Hrun. cbn [snd]. rewrite Hnew. unfold updated_pair.
  rewrite (int_timestamp_exact _ Hclock). reflexivity.
Qed.

Lemma update_stores_whole_second_witness :
  let w := Sample.world [] (Sample.t0 + 999999) in
  let s := Sample.store (Some absent_config) in
  SaveConfig._config (snd (SaveConfig._update "0123456789abcdef" (w, s))).2
  = Some {| last_timestamp := Some (clock w / 1000000);
            last_hex := Some "0123456789abcdef" |}.
Proof.
  intros w s.
  apply (update_stores_whole_second "0123456789abcdef" w s absent_config).
  - reflexivity.
  - vm_compute. split; [discriminate | reflexivity].
Defined.

(** Later than that the float may round up to the next second: at
    20000000000.999999 s the update stores 20000000001. *)
Example update_may_store_next_second :
  let w := Sample.world [] 20000000000999999 in
  let s := Sample.store (Some absent_config) in
  SaveConfig._config (snd (SaveConfig._update "0123456789abcdef" (w, s))).2
  = Some {| last_timestamp := Some 20000000001; last_hex := Some "0123456789abcdef" |} /\
  clock w / 1000000 = 20000000000.
Proof. vm_compute. split; reflexivity. Qed.
